(** * The agent turn orchestrator: [consultAgent]

    A shallow embedding of [consultAgent] (the Gemini service module of the
    repository) and of the data it handles, followed by the properties of
    the function-call loop, of the retry loop and of the error handler.

    The function is asynchronous and talks to two outside parties: the
    model service (through [chat.sendMessage]) and the tool endpoint
    (through [fetch] and [res.json]).  Both are oracles here, functions of
    an abstract state; the program is written in a small state-and-exception
    monad over that state, and every outside call leaves an event in a
    trace.

    The second half covers what surrounds [consultAgent]: the Express
    application that serves its tool requests (the tool endpoint, the
    OAuth routes and the table of connections), the encoding of a mail,
    the client run against that server, and [handleSend], the caller of
    [consultAgent] in the page. *)

From Stdlib Require Import String Ascii ZArith List Bool Lia.
From Stdlib Require Import DecimalString.
Import ListNotations.

Set Warnings "-register-all".

Local Open Scope string_scope.
Local Open Scope list_scope.
Local Open Scope Z_scope.

(** ** JavaScript values *)

Module JS.

(** [hay.includes(needle)]: [needle] occurs in [hay] at some position. *)
Fixpoint includes (needle hay : string) : bool :=
  if String.prefix needle hay then true
  else match hay with
       | EmptyString => false
       | String _ rest => includes needle rest
       end.

(** Truthiness of a possibly undefined string: [undefined] and the empty
    string are falsy. *)
Definition truthy (v : option string) : bool :=
  match v with
  | Some EmptyString => false
  | Some _ => true
  | None => false
  end.

(** [a || b] on possibly undefined strings. *)
Definition or (a b : option string) : option string :=
  if truthy a then a else b.

(** [2 ** n * 1000] as [Math.pow(2, n) * 1000]. *)
Definition pow (b e : Z) : Z := b ^ e.

Definition LF : string := String (ascii_of_nat 10) EmptyString.

End JS.

(** A JSON value: tool arguments and tool results. *)
Inductive JSON : Type :=
| JNull
| JBool (b : bool)
| JNum (n : Z)
| JStr (s : string)
| JArr (items : list JSON)
| JObj (fields : list (string * JSON)).

(** ** Data model *)

(** [interface AgentResponse { text: string; sources: {uri, title}[] }] *)
Record Source : Type := { uri : string; title : string }.

Record AgentResponse : Type := { text : string; sources : list Source }.

(** Modelled from the spec: the SDK's function call type is not part of the
    sources; a call is [{ id, name, args }]. *)
Record FunctionCall : Type :=
  { fc_id : string; fc_name : string; fc_args : JSON }.

(** Modelled from the spec: the SDK's response type is not part of the
    sources; a response is [{ text?, functionCalls?, candidates }] with
    [candidates[i].groundingMetadata.groundingChunks[j].web?], every level
    of which the code reads through optional chaining. *)
Record GroundingChunk : Type := { web : option Source }.

Record GroundingMetadata : Type :=
  { groundingChunks : option (list GroundingChunk) }.

Record Candidate : Type := { groundingMetadata : option GroundingMetadata }.

Record GenerateContentResponse : Type :=
  { resp_text : option string;
    functionCalls : option (list FunctionCall);
    candidates : option (list Candidate) }.

(** A thrown value; the handlers only read [error.message]. *)
Record Error : Type := { message : option string }.

(** One entry of [functionResponses]: [response] is [{ content: result }]
    on success and [{ error: error.message }] on failure. *)
Inductive Payload : Type :=
| Content (result : JSON)
| ErrorMessage (msg : option string).

Record FunctionResponse : Type :=
  { fr_name : string; fr_response : Payload; fr_id : string }.

(** The argument of [chat.sendMessage]: the user's query, or the list of
    function responses (which the code passes through [JSON.stringify]). *)
Inductive Message : Type :=
| MsgText (s : string)
| MsgFunctionResponses (l : list FunctionResponse).

(** The body of the POST to [/api/tools/execute], before [JSON.stringify]. *)
Record ToolRequest : Type := { tool : string; args : JSON }.

Record HttpResponse : Type := { status : Z; body : string }.

(** [process.env], as far as [consultAgent] reads it. *)
Record ProcessEnv : Type :=
  { API_KEY : option string; GEMINI_API_KEY : option string }.

(** What the outside world sees of one run. *)
Inductive Event : Type :=
| EvCreateChat (apiKey : string)
| EvSendMessage (m : Message)
| EvFetch (req : ToolRequest)
| EvJson (res : HttpResponse)
| EvConsoleError (attempt : Z) (error : Error)
| EvSetTimeout (delay : Z).

(** ** The outside world *)

(** The model service and the tool endpoint: each call returns a value or
    throws, and moves the outside state on.  [env_sleep] is what the
    outside does while the program waits on [setTimeout]. *)
Record Env (S : Type) : Type :=
  { env_sendMessage : S -> Message -> (GenerateContentResponse + Error) * S;
    env_fetch : S -> ToolRequest -> (HttpResponse + Error) * S;
    env_json : S -> HttpResponse -> (JSON + Error) * S;
    env_sleep : S -> Z -> S }.

Arguments env_sendMessage {S}.
Arguments env_fetch {S}.
Arguments env_json {S}.
Arguments env_sleep {S}.

Record World (S : Type) : Type := { outside : S; trace : list Event }.

Arguments outside {S}.
Arguments trace {S}.

(** ** The monad: state, exceptions, and fuel for the two [while] loops *)

Inductive Outcome (A : Type) : Type :=
| Ok (a : A)
| Throw (e : Error)
| OutOfFuel.

Arguments Ok {A}.
Arguments Throw {A}.
Arguments OutOfFuel {A}.

Definition M (S A : Type) : Type := World S -> Outcome A * World S.

Definition ret {S A} (a : A) : M S A := fun w => (Ok a, w).

Definition throw {S A} (e : Error) : M S A := fun w => (Throw e, w).

Definition out_of_fuel {S A} : M S A := fun w => (OutOfFuel, w).

Definition bind {S A B} (c : M S A) (k : A -> M S B) : M S B :=
  fun w =>
    match c w with
    | (Ok a, w') => k a w'
    | (Throw e, w') => (Throw e, w')
    | (OutOfFuel, w') => (OutOfFuel, w')
    end.

(** [try { c } catch (error) { handler error }] *)
Definition try_catch {S A} (c : M S A) (handler : Error -> M S A) : M S A :=
  fun w =>
    match c w with
    | (Throw e, w') => handler e w'
    | r => r
    end.

Declare Scope agent_scope.
Delimit Scope agent_scope with agent.
Notation "x <- c ;; k" := (bind c (fun x => k))
  (at level 100, c at next level, right associativity) : agent_scope.
Notation "c ;;; k" := (bind c (fun _ => k))
  (at level 100, right associativity) : agent_scope.
Local Open Scope agent_scope.

Definition emit {S} (ev : Event) (w : World S) : World S :=
  {| outside := outside w; trace := trace w ++ [ev] |}.

Definition lift {A} (r : A + Error) : Outcome A :=
  match r with
  | inl a => Ok a
  | inr e => Throw e
  end.

Section Primitives.

Context {S : Type} (E : Env S).

(** [await chat.sendMessage({ message })] *)
Definition sendMessage (m : Message) : M S GenerateContentResponse :=
  fun w =>
    let (r, s) := env_sendMessage E (outside w) m in
    (lift r, {| outside := s; trace := trace w ++ [EvSendMessage m] |}).

(** [await fetch("/api/tools/execute", { method: "POST", ..., body })] *)
Definition fetch (req : ToolRequest) : M S HttpResponse :=
  fun w =>
    let (r, s) := env_fetch E (outside w) req in
    (lift r, {| outside := s; trace := trace w ++ [EvFetch req] |}).

(** [await res.json()] *)
Definition res_json (res : HttpResponse) : M S JSON :=
  fun w =>
    let (r, s) := env_json E (outside w) res in
    (lift r, {| outside := s; trace := trace w ++ [EvJson res] |}).

(** [await new Promise(resolve => setTimeout(resolve, delay))] *)
Definition setTimeout (delay : Z) : M S unit :=
  fun w =>
    (Ok tt, {| outside := env_sleep E (outside w) delay;
               trace := trace w ++ [EvSetTimeout delay] |}).

(** [console.error(`Agent error (Attempt ${n}):`, error)] *)
Definition console_error (n : Z) (error : Error) : M S unit :=
  fun w => (Ok tt, emit (EvConsoleError n error) w).

(** [ai.chats.create({ model, config })]: no request is made; the chat
    lives in the outside state and is shared by all attempts. *)
Definition chats_create (apiKey : string) : M S unit :=
  fun w => (Ok tt, emit (EvCreateChat apiKey) w).

End Primitives.

(** ** The program *)

Definition maxRetries : Z := 3.

(** The fixed answers of [consultAgent]. *)

Definition missingKeyResponse : AgentResponse :=
  {| text :=
       ("## API Key Missing" ++ JS.LF ++ JS.LF ++
       "No Gemini API key was found in the environment. " ++ JS.LF ++ JS.LF ++
       "**To resolve this:**" ++ JS.LF ++
       "1. Click the **Set API Key** button in the top-right header." ++ JS.LF ++
       "2. Select a paid Google Cloud project with billing enabled." ++ JS.LF ++
       "3. Once set, you can start interacting with Nexus.")%string;
     sources := [] |}.

Definition quotaExhaustedResponse : AgentResponse :=
  {| text :=
       ("## Quota Exhausted" ++ JS.LF ++ JS.LF ++
       "You've reached the rate limit for the current API key. " ++ JS.LF ++ JS.LF ++
       "**To continue:**" ++ JS.LF ++
       "1. Click the **Set API Key** button in the header." ++ JS.LF ++
       "2. Select a paid Google Cloud project with billing enabled." ++ JS.LF ++
       "3. Try your request again.")%string;
     sources := [] |}.

Definition invalidKeyResponse : AgentResponse :=
  {| text :=
       ("## Invalid API Key" ++ JS.LF ++ JS.LF ++
       "The provided Gemini API key is invalid or has expired." ++ JS.LF ++ JS.LF ++
       "**To fix this:**" ++ JS.LF ++
       "1. Click the **Set API Key** button in the header." ++ JS.LF ++
       "2. Select a valid API key from a paid Google Cloud project." ++ JS.LF ++
       "3. Try your request again.")%string;
     sources := [] |}.

Definition internalErrorResponse : AgentResponse :=
  {| text :=
       ("## Gemini Internal Error" ++ JS.LF ++ JS.LF ++
       "The Gemini API encountered an internal error. This is usually temporary." ++ JS.LF ++ JS.LF ++
       "**Suggestions:**" ++ JS.LF ++
       "1. Wait a few seconds and try again." ++ JS.LF ++
       "2. If the problem persists, try switching to a different API key using the **Set API Key** button." ++ JS.LF ++
       "3. Simplify your request.")%string;
     sources := [] |}.

Definition fallbackResponse : AgentResponse :=
  {| text := "Failed to get a response after multiple attempts.";
     sources := [] |}.

(** [error.message?.includes(s)]: falsy when the message is undefined. *)
Definition message_includes (error : Error) (s : string) : bool :=
  match message error with
  | Some m => JS.includes s m
  | None => false
  end.

Definition isTransient (error : Error) : bool :=
  message_includes error "500" ||
  message_includes error "INTERNAL" ||
  message_includes error "Service Unavailable" ||
  message_includes error "Deadline Exceeded".

(** [response.text || "Task completed."] *)
Definition text_of (response : GenerateContentResponse) : string :=
  match resp_text response with
  | Some EmptyString => "Task completed."
  | Some t => t
  | None => "Task completed."
  end.

(** [response.candidates?.[0]?.groundingMetadata?.groundingChunks] *)
Definition chunks_of (response : GenerateContentResponse)
  : option (list GroundingChunk) :=
  match candidates response with
  | Some (c :: _) =>
      match groundingMetadata c with
      | Some gm => groundingChunks gm
      | None => None
      end
  | Some [] => None
  | None => None
  end.

(** [chunk => chunk.web] as a filter predicate. *)
Definition has_web (chunk : GroundingChunk) : bool :=
  match web chunk with
  | Some _ => true
  | None => false
  end.

(** [chunk => ({ uri: chunk.web!.uri, title: chunk.web!.title })].  It is
    applied behind the filter only; on a chunk without [web] the source
    would throw, and the value given here is never produced. *)
Definition to_source (chunk : GroundingChunk) : Source :=
  match web chunk with
  | Some w => {| uri := uri w; title := title w |}
  | None => {| uri := ""; title := "" |}
  end.

Definition sources_of (response : GenerateContentResponse) : list Source :=
  match chunks_of response with
  | Some chunks => map to_source (filter has_web chunks)
  | None => []
  end.

(** The tail of the [try] block: [return { text, sources }]. *)
Definition agentResponse_of (response : GenerateContentResponse)
  : AgentResponse :=
  {| text := text_of response; sources := sources_of response |}.

(** How one pass through the retry loop's body ends, short of a throw. *)
Inductive Control : Type :=
| Continue (retryCount : Z)
| Return (r : AgentResponse).

Section Program.

Context {S : Type} (E : Env S).

(** The body of [for (const call of response.functionCalls)]: a [try] that
    posts the call and pushes its result, and a [catch] that pushes the
    error's message. *)
Definition dispatch (call : FunctionCall)
    (functionResponses : list FunctionResponse)
  : M S (list FunctionResponse) :=
  try_catch
    (res <- fetch E {| tool := fc_name call; args := fc_args call |} ;;
     result <- res_json E res ;;
     ret (functionResponses ++
            [{| fr_name := fc_name call;
                fr_response := Content result;
                fr_id := fc_id call |}]))
    (fun error =>
       ret (functionResponses ++
              [{| fr_name := fc_name call;
                  fr_response := ErrorMessage (message error);
                  fr_id := fc_id call |}])).

Fixpoint for_calls (calls : list FunctionCall)
    (functionResponses : list FunctionResponse)
  : M S (list FunctionResponse) :=
  match calls with
  | [] => ret functionResponses
  | call :: rest =>
      functionResponses' <- dispatch call functionResponses ;;
      for_calls rest functionResponses'
  end.

(** The body of [while (response.functionCalls && iterations < 5)]. *)
Definition loop_body (iterations : Z) (calls : list FunctionCall)
  : M S (Z * GenerateContentResponse) :=
  let iterations := iterations + 1 in
  functionResponses <- for_calls calls [] ;;
  response <- sendMessage E (MsgFunctionResponses functionResponses) ;;
  ret (iterations, response).

(** The function-call loop; it yields the counter and the response it
    stopped on. *)
Fixpoint function_call_loop (fuel : nat) (iterations : Z)
    (response : GenerateContentResponse)
  : M S (Z * GenerateContentResponse) :=
  match fuel with
  | O => out_of_fuel
  | Datatypes.S fuel' =>
      match functionCalls response with
      | Some calls =>
          if iterations <? 5 then
            st <- loop_body iterations calls ;;
            function_call_loop fuel' (fst st) (snd st)
          else ret (iterations, response)
      | None => ret (iterations, response)
      end
  end.

(** The [try] block of the retry loop: one turn attempt. *)
Definition turn_attempt (fuel : nat) (userQuery : string) : M S AgentResponse :=
  response <- sendMessage E (MsgText userQuery) ;;
  st <- function_call_loop fuel 0 response ;;
  ret (agentResponse_of (snd st)).

(** The [catch] block of the retry loop. *)
Definition on_error (retryCount : Z) (error : Error) : M S Control :=
  console_error (retryCount + 1) error ;;;
  if isTransient error && (retryCount <? maxRetries - 1) then
    let retryCount := retryCount + 1 in
    let delay := JS.pow 2 retryCount * 1000 in
    setTimeout E delay ;;;
    ret (Continue retryCount)
  else if message_includes error "429" ||
          message_includes error "RESOURCE_EXHAUSTED" then
    ret (Return quotaExhaustedResponse)
  else if message_includes error "API_KEY_INVALID" ||
          message_includes error "invalid API key" then
    ret (Return invalidKeyResponse)
  else if message_includes error "500" ||
          message_includes error "INTERNAL" then
    ret (Return internalErrorResponse)
  else throw error.

(** The body of [while (retryCount < maxRetries)]. *)
Definition attempt_body (fuel : nat) (retryCount : Z) (userQuery : string)
  : M S Control :=
  try_catch
    (r <- turn_attempt fuel userQuery ;; ret (Return r))
    (on_error retryCount).

(** The retry loop.  [Some r]: a [return r] inside the body; [None]: the
    loop condition came out false and control went past the loop. *)
Fixpoint retry_loop (fuel : nat) (inner : nat) (retryCount : Z)
    (userQuery : string)
  : M S (option AgentResponse) :=
  match fuel with
  | O => out_of_fuel
  | Datatypes.S fuel' =>
      if retryCount <? maxRetries then
        c <- attempt_body inner retryCount userQuery ;;
        match c with
        | Continue retryCount' => retry_loop fuel' inner retryCount' userQuery
        | Return r => ret (Some r)
        end
      else ret None
  end.

Definition consultAgent (fuel : nat) (env : ProcessEnv) (userQuery : string)
  : M S AgentResponse :=
  let apiKey := JS.or (API_KEY env) (GEMINI_API_KEY env) in
  match apiKey with
  | Some key =>
      if JS.truthy apiKey then
        chats_create key ;;;
        r <- retry_loop fuel fuel 0 userQuery ;;
        match r with
        | Some response => ret response
        | None => ret fallbackResponse
        end
      else ret missingKeyResponse
  | None => ret missingKeyResponse
  end.

End Program.

(** ** Observations on a trace *)

(** An attempt opens with the one [sendMessage] that carries the query. *)
Definition is_query (ev : Event) : bool :=
  match ev with
  | EvSendMessage (MsgText _) => true
  | _ => false
  end.

Definition attempts (tr : list Event) : nat := length (filter is_query tr).

(** Messages that carry function responses: one per pass of the
    function-call loop. *)
Definition is_tool_reply (ev : Event) : bool :=
  match ev with
  | EvSendMessage (MsgFunctionResponses _) => true
  | _ => false
  end.

Definition tool_replies (tr : list Event) : nat :=
  length (filter is_tool_reply tr).

(** The waits, in milliseconds, in the order they happened. *)
Fixpoint delays (tr : list Event) : list Z :=
  match tr with
  | [] => []
  | EvSetTimeout d :: rest => d :: delays rest
  | _ :: rest => delays rest
  end.

(** The traffic of one tool call. *)
Definition is_tool_call (ev : Event) : bool :=
  match ev with
  | EvFetch _ => true
  | EvJson _ => true
  | _ => false
  end.

(** The traffic of the function-call loop. *)
Definition is_round_trip (ev : Event) : bool :=
  match ev with
  | EvSendMessage (MsgFunctionResponses _) => true
  | EvFetch _ => true
  | EvJson _ => true
  | _ => false
  end.

(** ** Reference descriptions *)

(** The citations of a list of grounding chunks: the chunks that carry
    [web], each as [{ uri, title }], in the order given. *)
Fixpoint citations (chunks : list GroundingChunk) : list Source :=
  match chunks with
  | [] => []
  | chunk :: rest =>
      match web chunk with
      | Some w => {| uri := uri w; title := title w |} :: citations rest
      | None => citations rest
      end
  end.

Section Reference.

Context {S : Type} (E : Env S).

(** Invoking one call: the POST and the decoding of its answer. *)
Definition invoke (call : FunctionCall) : M S JSON :=
  res <- fetch E {| tool := fc_name call; args := fc_args call |} ;;
  res_json E res.

(** [answered w calls rs w']: starting in [w], the calls are invoked one
    after the other, each call has one entry in [rs] at its own position,
    under its own name and id, holding the result of the invocation or the
    message of what it threw; [w'] is the world after the last call. *)
Inductive answered : World S -> list FunctionCall -> list FunctionResponse ->
                     World S -> Prop :=
| answered_nil : forall w, answered w [] [] w
| answered_ok : forall w call result w1 calls rs w2,
    invoke call w = (Ok result, w1) ->
    answered w1 calls rs w2 ->
    answered w (call :: calls)
             ({| fr_name := fc_name call; fr_response := Content result;
                 fr_id := fc_id call |} :: rs) w2
| answered_failed : forall w call error w1 calls rs w2,
    invoke call w = (Throw error, w1) ->
    answered w1 calls rs w2 ->
    answered w (call :: calls)
             ({| fr_name := fc_name call;
                 fr_response := ErrorMessage (message error);
                 fr_id := fc_id call |} :: rs) w2.

(** The heads of the function-call loop: [(iterations, response, world)]
    each time its condition is evaluated. *)
Definition LoopHead : Type := (Z * GenerateContentResponse * World S)%type.

Inductive loop_visits : LoopHead -> LoopHead -> Prop :=
| loop_visits_here : forall h, loop_visits h h
| loop_visits_next : forall iterations response w calls iterations' response' w' h,
    functionCalls response = Some calls ->
    (iterations <? 5) = true ->
    loop_body E iterations calls w = (Ok (iterations', response'), w') ->
    loop_visits (iterations', response', w') h ->
    loop_visits (iterations, response, w) h.

(** The heads of the retry loop: [(retryCount, world)] each time its
    condition is evaluated. *)
Definition RetryHead : Type := (Z * World S)%type.

Inductive retry_visits (inner : nat) (userQuery : string)
  : RetryHead -> RetryHead -> Prop :=
| retry_visits_here : forall h, retry_visits inner userQuery h h
| retry_visits_next : forall retryCount w retryCount' w' h,
    (retryCount <? maxRetries) = true ->
    attempt_body E inner retryCount userQuery w = (Ok (Continue retryCount'), w') ->
    retry_visits inner userQuery (retryCount', w') h ->
    retry_visits inner userQuery (retryCount, w) h.

(** The model answers every message, and every answer asks for calls. *)
Definition always_calls : Prop :=
  forall s m,
    match fst (env_sendMessage E s m) with
    | inl response => functionCalls response <> None
    | inr _ => False
    end.

(** The world after a failed attempt that is retried: the error is logged
    under the attempt's number and the program waits [delay] ms. *)
Definition after_backoff (attempt : Z) (error : Error) (delay : Z)
    (w : World S) : World S :=
  {| outside := env_sleep E (outside w) delay;
     trace := trace w ++ [EvConsoleError attempt error; EvSetTimeout delay] |}.

(** The world after a failed attempt that is not retried: the error is
    logged, nothing else happens. *)
Definition after_log (attempt : Z) (error : Error) (w : World S) : World S :=
  {| outside := outside w;
     trace := trace w ++ [EvConsoleError attempt error] |}.

(** The world in which the retry loop starts. *)
Definition after_create (key : string) (w : World S) : World S :=
  {| outside := outside w; trace := trace w ++ [EvCreateChat key] |}.

End Reference.

(** ** Further observations on a trace *)

(** Every message to the model, whatever it carries. *)
Definition is_send (ev : Event) : bool :=
  match ev with
  | EvSendMessage _ => true
  | _ => false
  end.

Definition model_messages (tr : list Event) : nat :=
  length (filter is_send tr).

Definition is_create (ev : Event) : bool :=
  match ev with
  | EvCreateChat _ => true
  | _ => false
  end.

Definition not_create (ev : Event) : bool := negb (is_create ev).

(** What the error handler leaves in the trace. *)
Definition is_handler_event (ev : Event) : bool :=
  match ev with
  | EvConsoleError _ _ => true
  | EvSetTimeout _ => true
  | _ => false
  end.

(** The requests posted to the tool endpoint, in order. *)
Fixpoint fetches (tr : list Event) : list ToolRequest :=
  match tr with
  | [] => []
  | EvFetch req :: rest => req :: fetches rest
  | _ :: rest => fetches rest
  end.

(** The responses handed to [res.json()], in order. *)
Fixpoint json_reads (tr : list Event) : list HttpResponse :=
  match tr with
  | [] => []
  | EvJson res :: rest => res :: json_reads rest
  | _ :: rest => json_reads rest
  end.

(** The body posted for a call: [{ tool: call.name, args: call.args }]. *)
Definition request_of (call : FunctionCall) : ToolRequest :=
  {| tool := fc_name call; args := fc_args call |}.

(** ** Concrete environments *)

(** A model service that plays a script: the n-th message is answered by
    the n-th entry, and by [rest] once the script is over.  The tool
    endpoint and the decoder are functions of the request. *)
Definition scripted (script : list (GenerateContentResponse + Error))
    (rest : GenerateContentResponse + Error)
    (endpoint : ToolRequest -> HttpResponse + Error)
    (decode : HttpResponse -> JSON + Error) : Env nat :=
  {| env_sendMessage := fun n _ => (nth n script rest, Datatypes.S n);
     env_fetch := fun n req => (endpoint req, n);
     env_json := fun n res => (decode res, n);
     env_sleep := fun n _ => n |}.

Definition start : World nat := {| outside := 0%nat; trace := [] |}.

Definition with_key : ProcessEnv :=
  {| API_KEY := None; GEMINI_API_KEY := Some "k" |}.

Definition without_key : ProcessEnv :=
  {| API_KEY := None; GEMINI_API_KEY := None |}.

Definition says (t : string) : GenerateContentResponse :=
  {| resp_text := Some t; functionCalls := None; candidates := None |}.

Definition asks (calls : list FunctionCall) : GenerateContentResponse :=
  {| resp_text := None; functionCalls := Some calls; candidates := None |}.

Definition fails (m : string) : Error := {| message := Some m |}.

Definition http_ok (req : ToolRequest) : HttpResponse + Error :=
  inl {| status := 200; body := tool req |}.

Definition decode_body (res : HttpResponse) : JSON + Error :=
  inl (JStr (body res)).

Definition list_repos : FunctionCall :=
  {| fc_id := "1"; fc_name := "list_github_repos"; fc_args := JObj [] |}.

Definition send_mail : FunctionCall :=
  {| fc_id := "2"; fc_name := "send_gmail"; fc_args := JObj [] |}.

(** A tool endpoint that cannot be reached for [send_gmail]. *)
Definition mail_down (req : ToolRequest) : HttpResponse + Error :=
  if String.eqb (tool req) "send_gmail"
  then inr (fails "Failed to fetch")
  else http_ok req.

Definition env_mail_down : Env nat :=
  scripted [] (inl (says "Done.")) mail_down decode_body.

(** A model that asks for the same call in every answer. *)
Definition env_always_calls : Env nat :=
  scripted [] (inl (asks [list_repos])) http_ok decode_body.

(** A model service that fails every time with the same message. *)
Definition env_failing (m : string) : Env nat :=
  scripted [] (inr (fails m)) http_ok decode_body.

(** A model service that fails with the messages given, one per message
    sent, and then answers with the text [t]. *)
Definition env_recovering (ms : list string) (t : string) : Env nat :=
  scripted (map (fun m => inr (fails m)) ms) (inl (says t)) http_ok decode_body.

(** One turn against each, with the query "q" and a key in place. *)
Definition run_failing (m : string) : Outcome AgentResponse * World nat :=
  consultAgent (env_failing m) 6 with_key "q" start.

Definition run_recovering (ms : list string) (t : string)
  : Outcome AgentResponse * World nat :=
  consultAgent (env_recovering ms t) 6 with_key "q" start.

Definition quota_message : string :=
  "got status: 429 RESOURCE_EXHAUSTED. Quota exceeded for metric with limit 500.".

(** An answer without calls, with three grounding chunks of which the
    second carries no web citation. *)
Definition grounded : GenerateContentResponse :=
  {| resp_text := Some "Rocq is a proof assistant.";
     functionCalls := None;
     candidates :=
       Some [{| groundingMetadata :=
                  Some {| groundingChunks :=
                            Some [{| web := Some {| uri := "https://rocq-prover.org";
                                                    title := "Rocq" |} |};
                                  {| web := None |};
                                  {| web := Some {| uri := "https://example.org";
                                                    title := "Example" |} |}] |} |}] |}.

Definition env_grounded : Env nat :=
  scripted [inl grounded] (inl (says "")) http_ok decode_body.

(** The scenario of the specification: one call to [list_github_repos],
    then the final text. *)
Definition env_list_repos : Env nat :=
  scripted [inl (asks [list_repos]); inl (says "Here are your repos: r1.")]
           (inl (says "")) http_ok decode_body.

(** * The server *)

(** ** JavaScript values read from JSON *)

(** What the handlers of the server do with the values they are given:
    a value is a JSON value or [undefined]. *)
Module Dyn.

Definition Value : Type := option JSON.

Definition undefined : Value := None.

Definition str (s : string) : Value := Some (JStr s).

(** Truthiness: [undefined], [null], [false], [0] and the empty string are
    falsy; arrays and objects are truthy. *)
Definition truthy (v : Value) : bool :=
  match v with
  | None => false
  | Some JNull => false
  | Some (JBool b) => b
  | Some (JNum n) => negb (n =? 0)
  | Some (JStr s) => negb (String.eqb s "")
  | Some (JArr _) => true
  | Some (JObj _) => true
  end.

(** [a || b] *)
Definition or (a b : Value) : Value := if truthy a then a else b.

(** [v === "s"] *)
Definition is_string (v : Value) (s : string) : bool :=
  match v with
  | Some (JStr t) => String.eqb t s
  | _ => false
  end.

(** The field of an object as [JSON.parse] leaves it: of two fields of
    the same name the later one counts. *)
Fixpoint field (k : string) (fields : list (string * JSON)) : Value :=
  match fields with
  | [] => None
  | (k', v) :: rest =>
      match field k rest with
      | Some v' => Some v'
      | None => if String.eqb k k' then Some v else None
      end
  end.

Definition TypeError (m : string) : Error := {| message := Some m |}.

(** [v.k], for the property names the handlers read (none of them is an
    index, [length] or an inherited property): reading from [undefined]
    or [null] throws, an object gives its field, any other value gives
    [undefined]. *)
Definition get (v : Value) (k : string) : Value + Error :=
  match v with
  | None =>
      inr (TypeError ("Cannot read properties of undefined (reading '"
                        ++ k ++ "')")%string)
  | Some JNull =>
      inr (TypeError ("Cannot read properties of null (reading '"
                        ++ k ++ "')")%string)
  | Some (JObj fields) => inl (field k fields)
  | Some _ => inl None
  end.

(** [v?.k] *)
Definition get_opt (v : Value) (k : string) : Value + Error :=
  match v with
  | None => inl None
  | Some JNull => inl None
  | _ => get v k
  end.

Definition comma_join (parts : list string) : string :=
  String.concat "," parts.

(** [String(v)] on a JSON value: what a template literal and
    [new Error(v)] make of it.  Numbers are the integers of [JNum]. *)
Fixpoint json_to_string (v : JSON) : string :=
  match v with
  | JNull => "null"
  | JBool true => "true"
  | JBool false => "false"
  | JNum n => NilZero.string_of_int (Z.to_int n)
  | JStr s => s
  | JArr items =>
      comma_join
        (map (fun item => match item with
                          | JNull => ""
                          | _ => json_to_string item
                          end) items)
  | JObj _ => "[object Object]"
  end.

Definition to_string (v : Value) : string :=
  match v with
  | None => "undefined"
  | Some j => json_to_string j
  end.

(** An element of [Array.prototype.join]: [undefined] and [null] give
    the empty string. *)
Definition join_item (v : Value) : string :=
  match v with
  | None => ""
  | Some JNull => ""
  | Some j => json_to_string j
  end.

(** An object literal as [JSON.stringify] leaves it: the fields whose
    value is [undefined] are left out. *)
Fixpoint object (fields : list (string * Value)) : list (string * JSON) :=
  match fields with
  | [] => []
  | (k, Some v) :: rest => (k, v) :: object rest
  | (_, None) :: rest => object rest
  end.

End Dyn.

(** ** [Buffer.from(s).toString('base64')] *)

(** Base 64 with the standard alphabet and padding, on the bytes of a
    string. *)
Module Base64.

Definition alphabet : string :=
  "ABCDEFGHIJKLMNOPQRSTUVWXYZabcdefghijklmnopqrstuvwxyz0123456789+/".

Definition pad : ascii := "="%char.

Definition digit (n : Z) : ascii :=
  match String.get (Z.to_nat n) alphabet with
  | Some c => c
  | None => pad
  end.

Definition byte (a : ascii) : Z := Z.of_N (N_of_ascii a).

Fixpoint encode (bytes : list ascii) : string :=
  match bytes with
  | [] => ""
  | [a] =>
      let x := byte a in
      String (digit (x / 4))
        (String (digit (x mod 4 * 16)) (String pad (String pad "")))
  | [a; b] =>
      let x := byte a in
      let y := byte b in
      String (digit (x / 4))
        (String (digit (x mod 4 * 16 + y / 16))
           (String (digit (y mod 16 * 4)) (String pad "")))
  | a :: b :: c :: rest =>
      let x := byte a in
      let y := byte b in
      let z := byte c in
      String (digit (x / 4))
        (String (digit (x mod 4 * 16 + y / 16))
           (String (digit (y mod 16 * 4 + z / 64))
              (String (digit (z mod 64)) (encode rest))))
  end.

(** [Buffer.from(message).toString('base64')] *)
Definition of_string (message : string) : string :=
  encode (list_ascii_of_string message).

End Base64.

(** ** The Express application *)

Module Server.

(** [process.env], as far as the server reads it. *)
Record ServerEnv : Type :=
  { GITHUB_CLIENT_ID : option string;
    GITHUB_CLIENT_SECRET : option string;
    GOOGLE_CLIENT_ID : option string;
    GOOGLE_CLIENT_SECRET : option string;
    NOTION_CLIENT_ID : option string;
    NOTION_CLIENT_SECRET : option string;
    APP_URL : option string }.

(** A row of the table [connections]; [id] is its primary key.  The
    handlers always give [id] and [provider] as string constants; the
    other cells hold what the database made of the values bound. *)
Record Row : Type :=
  { row_id : string;
    row_provider : string;
    access_token : JSON;
    refresh_token : JSON;
    expires_at : JSON;
    created_at : JSON }.

(** A request the server sends out. *)
Record OutRequest : Type :=
  { out_url : string;
    out_method : string;
    out_headers : list (string * string);
    out_body : option JSON }.

(** What the code takes from its platform without defining it:
    how the database driver binds a value to a column ([not_null] tells
    whether the column rejects NULL), JavaScript's
    [Date.now() + (x * 1000)], the value of [CURRENT_TIMESTAMP], and
    [encodeURIComponent]. *)
Record Platform : Type :=
  { bind : bool -> Dyn.Value -> JSON + Error;
    expiry : Z -> Dyn.Value -> Dyn.Value;
    current_timestamp : Z -> JSON;
    encodeURIComponent : string -> string }.

(** The network and the clock. *)
Record Net (X : Type) : Type :=
  { net_fetch : X -> OutRequest -> (HttpResponse + Error) * X;
    net_json : X -> HttpResponse -> (JSON + Error) * X;
    net_now : X -> Z }.

Arguments net_fetch {X}.
Arguments net_json {X}.
Arguments net_now {X}.

(** The state of the server: the table, the requests sent out so far,
    what was written with [console.error], and the outside. *)
Record State (X : Type) : Type :=
  { db : list Row;
    outbox : list OutRequest;
    console : list (string * Error);
    outer : X }.

Arguments db {X}.
Arguments outbox {X}.
Arguments console {X}.
Arguments outer {X}.

(** What a handler sends back. *)
Inductive ReplyBody : Type :=
| SendJson (j : JSON)
| SendText (s : string).

Record Reply : Type := { reply_status : Z; reply_body : ReplyBody }.

(** [res.json(j)] and [res.send(s)] answer with status 200 unless
    [res.status(n)] came first. *)
Definition json (j : JSON) : Reply :=
  {| reply_status := 200; reply_body := SendJson j |}.

Definition send (s : string) : Reply :=
  {| reply_status := 200; reply_body := SendText s |}.

Definition status_json (n : Z) (j : JSON) : Reply :=
  {| reply_status := n; reply_body := SendJson j |}.

Definition status_send (n : Z) (s : string) : Reply :=
  {| reply_status := n; reply_body := SendText s |}.

(** [{ error: m }] *)
Definition error_object (m : Dyn.Value) : JSON :=
  JObj (Dyn.object [("error", m)]).

(** A template literal's [${process.env.X}]. *)
Definition env_text (v : option string) : string :=
  match v with
  | Some s => s
  | None => "undefined"
  end.

(** A variable of the environment as a field of an object literal. *)
Definition env_value (v : option string) : Dyn.Value :=
  match v with
  | Some s => Some (JStr s)
  | None => None
  end.

(** [response.ok] *)
Definition ok (response : HttpResponse) : bool :=
  (200 <=? status response) && (status response <=? 299).

(** *** The handlers' monad: state and exceptions *)

Definition H (X A : Type) : Type := State X -> (A + Error) * State X.

Definition pure {X A} (a : A) : H X A := fun st => (inl a, st).

Definition raise {X A} (e : Error) : H X A := fun st => (inr e, st).

Definition and_then {X A B} (c : H X A) (k : A -> H X B) : H X B :=
  fun st =>
    match c st with
    | (inl a, st') => k a st'
    | (inr e, st') => (inr e, st')
    end.

(** [try { c } catch (error) { handler error }] *)
Definition catch {X A} (c : H X A) (handler : Error -> H X A) : H X A :=
  fun st =>
    match c st with
    | (inr e, st') => handler e st'
    | r => r
    end.

(** A value that is there, or a throw. *)
Definition lift {X A} (r : A + Error) : H X A := fun st => (r, st).

Declare Scope handler_scope.
Delimit Scope handler_scope with handler.
Notation "x <~ c ; k" := (and_then c (fun x => k))
  (at level 100, c at next level, right associativity) : handler_scope.
Notation "c ;> k" := (and_then c (fun _ => k))
  (at level 100, right associativity) : handler_scope.
Local Open Scope handler_scope.

(** *** SQL *)

(** [SELECT ... FROM connections WHERE id = ?] with [.get(id)] *)
Definition select_by_id (id : string) (rows : list Row) : option Row :=
  find (fun r => String.eqb (row_id r) id) rows.

(** [DELETE FROM connections WHERE id = ?] *)
Definition delete_by_id (id : string) (rows : list Row) : list Row :=
  filter (fun r => negb (String.eqb (row_id r) id)) rows.

(** [INSERT OR REPLACE INTO connections ...]: a row with the same
    primary key is deleted, then the new row is added. *)
Definition insert_or_replace (r : Row) (rows : list Row) : list Row :=
  delete_by_id (row_id r) rows ++ [r].

(** The tool declarations given to the model (the client's [tools]). *)
Record FunctionDeclaration : Type :=
  { decl_name : string;
    decl_description : string;
    decl_properties : list (string * string);
    decl_required : option (list string) }.

Definition tools : list FunctionDeclaration :=
  [ {| decl_name := "list_github_repos";
       decl_description :=
         "List the user's most recently updated GitHub repositories.";
       decl_properties := [];
       decl_required := None |};
    {| decl_name := "create_github_issue";
       decl_description := "Create a new issue in a GitHub repository.";
       decl_properties :=
         [("repo", "The full name of the repository (e.g., 'owner/repo').");
          ("title", "The title of the issue.");
          ("body", "The body content of the issue.")];
       decl_required := Some ["repo"; "title"] |};
    {| decl_name := "send_gmail";
       decl_description :=
         "Send an email using the user's connected Gmail account.";
       decl_properties :=
         [("to", "The recipient's email address.");
          ("subject", "The subject of the email.");
          ("body", "The plain text body of the email.")];
       decl_required := Some ["to"; "subject"; "body"] |} ].

(** *** The encoding of a mail *)

(** [s.replace(/\+/g, '-')] and [s.replace(/\//g, '_')]: every occurrence
    of the one character becomes the other. *)
Fixpoint replace_all (from to : ascii) (s : string) : string :=
  match s with
  | EmptyString => EmptyString
  | String c rest =>
      String (if Ascii.eqb c from then to else c) (replace_all from to rest)
  end.

(** [s.replace(/=+$/, '')]: the run of [=] at the end of the string, if
    there is one, is removed. *)
Fixpoint strip_padding (s : string) : string :=
  match s with
  | EmptyString => EmptyString
  | String c rest =>
      match strip_padding rest with
      | EmptyString => if Ascii.eqb c "=" then EmptyString
                       else String c EmptyString
      | kept => String c kept
      end
  end.

(** The three [replace] calls on the base 64 text. *)
Definition url_safe (base64 : string) : string :=
  strip_padding (replace_all "/" "_" (replace_all "+" "-" base64)).

Definition DQ : string := String (ascii_of_nat 34) EmptyString.

(** The RFC 2822 message: the five lines joined by a line feed. *)
Definition mail_message (to subject body : Dyn.Value) : string :=
  String.concat JS.LF
    [("To: " ++ Dyn.to_string to)%string;
     ("Subject: " ++ Dyn.to_string subject)%string;
     ("Content-Type: text/plain; charset=" ++ DQ ++ "UTF-8" ++ DQ)%string;
     "";
     Dyn.join_item body].

Definition encodedMessage (to subject body : Dyn.Value) : string :=
  url_safe (Base64.of_string (mail_message to subject body)).

(** The page sent after a successful authorisation. *)
Definition success_page (provider label : string) : string :=
  String.concat JS.LF
    [""; 
     "        <html>";
     "          <body>";
     "            <script>";
     "              if (window.opener) {";
     ("                window.opener.postMessage({ type: 'OAUTH_AUTH_SUCCESS', provider: '"
        ++ provider ++ "' }, '*'" ++ ");")%string;
     "                window.close();";
     "              } else {";
     "                window.location.href = '/';";
     "              }";
     "            </script>";
     ("            <p>" ++ label
        ++ " connected successfully. Closing window...</p>")%string;
     "          </body>";
     "        </html>";
     "      "].

Inductive Provider : Type := GitHub | Google | Notion.

(** What comes in: the routes of the application, with what each handler
    reads of the request. *)
Inductive Request : Type :=
| GetHealth
| GetConnections
| GetAuthUrl (provider : Provider)
| GetAuthCallback (provider : Provider) (code : Dyn.Value)
| PostDisconnect (id : string)
| PostToolsExecute (body : JSON).

Section Handlers.

Context {X : Type} (P : Platform) (N : Net X) (env : ServerEnv).

(** [await fetch(url, init)] *)
Definition fetch (req : OutRequest) : H X HttpResponse :=
  fun st =>
    let (r, x) := net_fetch N (outer st) req in
    (r, {| db := db st; outbox := outbox st ++ [req];
           console := console st; outer := x |}).

(** [await response.json()] *)
Definition response_json (response : HttpResponse) : H X JSON :=
  fun st =>
    let (r, x) := net_json N (outer st) response in
    (r, {| db := db st; outbox := outbox st;
           console := console st; outer := x |}).

Definition console_error (label : string) (error : Error) : H X unit :=
  fun st =>
    (inl tt, {| db := db st; outbox := outbox st;
                console := console st ++ [(label, error)];
                outer := outer st |}).

(** [db.prepare("SELECT access_token FROM connections WHERE id = ?").get(id)] *)
Definition get_connection (id : string) : H X (option Row) :=
  fun st => (inl (select_by_id id (db st)), st).

Definition set_db (rows : list Row) (st : State X) : State X :=
  {| db := rows; outbox := outbox st; console := console st;
     outer := outer st |}.

(** [app.get("/api/health")] *)
Definition health : H X Reply :=
  pure (json (JObj [("status", JStr "ok")])).

(** [app.get("/api/connections")]:
    [SELECT id, provider, created_at FROM connections] with [.all()]. *)
Definition connections : H X Reply :=
  fun st =>
    (inl (json (JArr (map (fun r => JObj [("id", JStr (row_id r));
                                          ("provider", JStr (row_provider r));
                                          ("created_at", created_at r)])
                          (db st)))),
     st).

(** [app.get("/api/auth/github/url")] *)
Definition github_url : H X Reply :=
  let clientId := GITHUB_CLIENT_ID env in
  if negb (JS.truthy clientId) then
    pure (status_json 500 (error_object (Dyn.str "GITHUB_CLIENT_ID not configured")))
  else
    let redirectUri := (env_text (APP_URL env) ++ "/api/auth/github/callback")%string in
    let url := ("https://github.com/login/oauth/authorize?client_id="
                  ++ env_text clientId ++ "&redirect_uri=" ++ redirectUri
                  ++ "&scope=repo,user")%string in
    pure (json (JObj [("url", JStr url)])).

(** [app.get("/api/auth/google/url")] *)
Definition google_url : H X Reply :=
  let clientId := GOOGLE_CLIENT_ID env in
  if negb (JS.truthy clientId) then
    pure (status_json 500 (error_object (Dyn.str "GOOGLE_CLIENT_ID not configured")))
  else
    let redirectUri := (env_text (APP_URL env) ++ "/api/auth/google/callback")%string in
    let scopes := String.concat " "
                    ["https://www.googleapis.com/auth/gmail.send";
                     "https://www.googleapis.com/auth/userinfo.email";
                     "openid"] in
    let url := ("https://accounts.google.com/o/oauth2/v2/auth?client_id="
                  ++ env_text clientId ++ "&redirect_uri="
                  ++ encodeURIComponent P redirectUri
                  ++ "&response_type=code&scope=" ++ encodeURIComponent P scopes
                  ++ "&access_type=offline&prompt=consent")%string in
    pure (json (JObj [("url", JStr url)])).

(** [app.get("/api/auth/notion/url")] *)
Definition notion_url : H X Reply :=
  let clientId := NOTION_CLIENT_ID env in
  if negb (JS.truthy clientId) then
    pure (status_json 500 (error_object (Dyn.str "NOTION_CLIENT_ID not configured")))
  else
    let redirectUri := (env_text (APP_URL env) ++ "/api/auth/notion/callback")%string in
    let url := ("https://api.notion.com/v1/oauth/authorize?client_id="
                  ++ env_text clientId ++ "&redirect_uri="
                  ++ encodeURIComponent P redirectUri
                  ++ "&response_type=code&owner=user")%string in
    pure (json (JObj [("url", JStr url)])).

(** [if (data.error) throw new Error(data.error_description || data.error)] *)
Definition check_token_error (data : JSON) : H X unit :=
  error <~ lift (Dyn.get (Some data) "error") ;
  if Dyn.truthy error then
    description <~ lift (Dyn.get (Some data) "error_description") ;
    raise {| message := Some (Dyn.to_string (Dyn.or description error)) |}
  else pure tt.

(** The [catch] block of the three callbacks. *)
Definition auth_failed (label : string) (error : Error) : H X Reply :=
  console_error label error ;>
  pure (status_send 500 ("Auth failed: " ++ Dyn.to_string
                           (match message error with
                            | Some m => Some (JStr m)
                            | None => None
                            end))%string).

(** [db.prepare(...).run(...)]: the values are bound, which may throw,
    and the row replaces the one with the same id. *)
Definition run_insert (id provider : string) (token : Dyn.Value)
    (extras : (JSON * JSON) + Error) : H X unit :=
  fun st =>
    match bind P true token with
    | inr e => (inr e, st)
    | inl cell =>
        match extras with
        | inr e => (inr e, st)
        | inl (refresh, expires) =>
            (inl tt,
             set_db (insert_or_replace
                       {| row_id := id; row_provider := provider;
                          access_token := cell;
                          refresh_token := refresh;
                          expires_at := expires;
                          created_at := current_timestamp P (net_now N (outer st)) |}
                       (db st)) st)
        end
    end.

(** [app.get("/api/auth/github/callback")] *)
Definition github_callback (code : Dyn.Value) : H X Reply :=
  if negb (Dyn.truthy code) then pure (status_send 400 "No code provided")
  else
    catch
      (tokenResponse <~
         fetch {| out_url := "https://github.com/login/oauth/access_token";
                  out_method := "POST";
                  out_headers := [("Content-Type", "application/json");
                                  ("Accept", "application/json")];
                  out_body :=
                    Some (JObj (Dyn.object
                            [("client_id", env_value (GITHUB_CLIENT_ID env));
                             ("client_secret", env_value (GITHUB_CLIENT_SECRET env));
                             ("code", code)])) |} ;
       data <~ response_json tokenResponse ;
       check_token_error data ;>
       token <~ lift (Dyn.get (Some data) "access_token") ;
       run_insert "github" "github" token (inl (JNull, JNull)) ;>
       pure (send (success_page "github" "GitHub")))
      (auth_failed "GitHub OAuth error:").

(** [app.get("/api/auth/google/callback")] *)
Definition google_callback (code : Dyn.Value) : H X Reply :=
  if negb (Dyn.truthy code) then pure (status_send 400 "No code provided")
  else
    catch
      (tokenResponse <~
         fetch {| out_url := "https://oauth2.googleapis.com/token";
                  out_method := "POST";
                  out_headers := [("Content-Type", "application/json")];
                  out_body :=
                    Some (JObj (Dyn.object
                            [("client_id", env_value (GOOGLE_CLIENT_ID env));
                             ("client_secret", env_value (GOOGLE_CLIENT_SECRET env));
                             ("code", code);
                             ("grant_type", Dyn.str "authorization_code");
                             ("redirect_uri",
                              Dyn.str (env_text (APP_URL env)
                                         ++ "/api/auth/google/callback")%string)])) |} ;
       data <~ response_json tokenResponse ;
       check_token_error data ;>
       token <~ lift (Dyn.get (Some data) "access_token") ;
       refresh <~ lift (Dyn.get (Some data) "refresh_token") ;
       expires_in <~ lift (Dyn.get (Some data) "expires_in") ;
       (fun st =>
          run_insert "google" "google" token
            (match bind P false refresh with
             | inr e => inr e
             | inl r =>
                 match bind P false
                         (expiry P (net_now N (outer st)) expires_in) with
                 | inr e => inr e
                 | inl x => inl (r, x)
                 end
             end) st) ;>
       pure (send (success_page "google" "Google")))
      (auth_failed "Google OAuth error:").

(** [app.get("/api/auth/notion/callback")] *)
Definition notion_callback (code : Dyn.Value) : H X Reply :=
  if negb (Dyn.truthy code) then pure (status_send 400 "No code provided")
  else
    catch
      (let auth := Base64.of_string
                     (env_text (NOTION_CLIENT_ID env) ++ ":"
                        ++ env_text (NOTION_CLIENT_SECRET env))%string in
       tokenResponse <~
         fetch {| out_url := "https://api.notion.com/v1/oauth/token";
                  out_method := "POST";
                  out_headers := [("Content-Type", "application/json");
                                  ("Authorization", ("Basic " ++ auth)%string)];
                  out_body :=
                    Some (JObj (Dyn.object
                            [("grant_type", Dyn.str "authorization_code");
                             ("code", code);
                             ("redirect_uri",
                              Dyn.str (env_text (APP_URL env)
                                         ++ "/api/auth/notion/callback")%string)])) |} ;
       data <~ response_json tokenResponse ;
       check_token_error data ;>
       token <~ lift (Dyn.get (Some data) "access_token") ;
       run_insert "notion" "notion" token (inl (JNull, JNull)) ;>
       pure (send (success_page "notion" "Notion")))
      (auth_failed "Notion OAuth error:").

(** [app.post("/api/connections/:id/disconnect")] *)
Definition disconnect (id : string) : H X Reply :=
  fun st =>
    (inl (json (JObj [("success", JBool true)])),
     set_db (delete_by_id id (db st)) st).

(** [repos.map(r => ({ name: r.name, url: r.html_url,
    description: r.description }))]: only an array has [map]. *)
Definition repo_entry (r : JSON) : JSON + Error :=
  match Dyn.get (Some r) "name" with
  | inr e => inr e
  | inl name =>
      match Dyn.get (Some r) "html_url" with
      | inr e => inr e
      | inl url =>
          match Dyn.get (Some r) "description" with
          | inr e => inr e
          | inl description =>
              inl (JObj (Dyn.object [("name", name); ("url", url);
                                     ("description", description)]))
          end
      end
  end.

Fixpoint map_entries (items : list JSON) : list JSON + Error :=
  match items with
  | [] => inl []
  | r :: rest =>
      match repo_entry r with
      | inr e => inr e
      | inl entry =>
          match map_entries rest with
          | inr e => inr e
          | inl entries => inl (entry :: entries)
          end
      end
  end.

Definition map_repos (repos : JSON) : list JSON + Error :=
  match repos with
  | JArr items => map_entries items
  | JNull => inr (Dyn.TypeError "Cannot read properties of null (reading 'map')")
  | _ => inr (Dyn.TypeError "repos.map is not a function")
  end.

Definition list_github_repos : H X Reply :=
  connection <~ get_connection "github" ;
  match connection with
  | None => pure (status_json 400 (error_object (Dyn.str "GitHub not connected")))
  | Some connection =>
      response <~
        fetch {| out_url := "https://api.github.com/user/repos?sort=updated&per_page=5";
                 out_method := "GET";
                 out_headers :=
                   [("Authorization",
                     ("token " ++ Dyn.json_to_string (access_token connection))%string);
                    ("User-Agent", "Nexus-Agent")];
                 out_body := None |} ;
      repos <~ response_json response ;
      entries <~ lift (map_repos repos) ;
      pure (json (JArr entries))
  end.

Definition create_github_issue (args : Dyn.Value) : H X Reply :=
  connection <~ get_connection "github" ;
  match connection with
  | None => pure (status_json 400 (error_object (Dyn.str "GitHub not connected")))
  | Some connection =>
      repo <~ lift (Dyn.get args "repo") ;
      title <~ lift (Dyn.get args "title") ;
      body <~ lift (Dyn.get args "body") ;
      response <~
        fetch {| out_url := ("https://api.github.com/repos/"
                               ++ Dyn.to_string repo ++ "/issues")%string;
                 out_method := "POST";
                 out_headers :=
                   [("Authorization",
                     ("token " ++ Dyn.json_to_string (access_token connection))%string);
                    ("User-Agent", "Nexus-Agent");
                    ("Content-Type", "application/json")];
                 out_body := Some (JObj (Dyn.object [("title", title);
                                                     ("body", body)])) |} ;
      issue <~ response_json response ;
      url <~ lift (Dyn.get (Some issue) "html_url") ;
      number <~ lift (Dyn.get (Some issue) "number") ;
      pure (json (JObj (Dyn.object [("url", url); ("number", number)])))
  end.

Definition send_gmail (args : Dyn.Value) : H X Reply :=
  connection <~ get_connection "google" ;
  match connection with
  | None => pure (status_json 400 (error_object (Dyn.str "Google not connected")))
  | Some connection =>
      to <~ lift (Dyn.get args "to") ;
      subject <~ lift (Dyn.get args "subject") ;
      body <~ lift (Dyn.get args "body") ;
      response <~
        fetch {| out_url := "https://gmail.googleapis.com/gmail/v1/users/me/messages/send";
                 out_method := "POST";
                 out_headers :=
                   [("Authorization",
                     ("Bearer " ++ Dyn.json_to_string (access_token connection))%string);
                    ("Content-Type", "application/json")];
                 out_body :=
                   Some (JObj [("raw", JStr (encodedMessage to subject body))]) |} ;
      if negb (ok response) then
        errorData <~ response_json response ;
        error <~ lift (Dyn.get (Some errorData) "error") ;
        m <~ lift (Dyn.get_opt error "message") ;
        raise {| message :=
                   Some (Dyn.to_string
                           (Dyn.or m (Dyn.str "Failed to send email"))) |}
      else
        result <~ response_json response ;
        id <~ lift (Dyn.get (Some result) "id") ;
        pure (json (JObj (Dyn.object [("success", Some (JBool true));
                                      ("id", id)])))
  end.

(** [app.post("/api/tools/execute")]: [const { tool, args } = req.body]
    comes before the [try]. *)
Definition tools_execute (body : JSON) : H X Reply :=
  tool <~ lift (Dyn.get (Some body) "tool") ;
  args <~ lift (Dyn.get (Some body) "args") ;
  catch
    (if Dyn.is_string tool "list_github_repos" then list_github_repos
     else if Dyn.is_string tool "create_github_issue" then create_github_issue args
     else if Dyn.is_string tool "send_gmail" then send_gmail args
     else pure (status_json 404 (error_object (Dyn.str "Tool not found"))))
    (fun error =>
       console_error "Tool execution error:" error ;>
       pure (status_json 500
               (error_object (match message error with
                              | Some m => Some (JStr m)
                              | None => None
                              end)))).

(** The application: each request goes to the handler of its route. *)
Definition handle (request : Request) : H X Reply :=
  match request with
  | GetHealth => health
  | GetConnections => connections
  | GetAuthUrl GitHub => github_url
  | GetAuthUrl Google => google_url
  | GetAuthUrl Notion => notion_url
  | GetAuthCallback GitHub code => github_callback code
  | GetAuthCallback Google code => google_callback code
  | GetAuthCallback Notion code => notion_callback code
  | PostDisconnect id => disconnect id
  | PostToolsExecute body => tools_execute body
  end.

(** The requests of a list, one after the other; a handler that throws
    leaves its request without reply. *)
Fixpoint serve (requests : list Request) (st : State X)
  : list (Reply + Error) * State X :=
  match requests with
  | [] => ([], st)
  | request :: rest =>
      let (r, st') := handle request st in
      let (rs, st'') := serve rest st' in
      (r :: rs, st'')
  end.

End Handlers.

End Server.

(** ** Reference descriptions for the server *)

(** Base 64 with the URL-safe alphabet and no padding, and its decoder. *)
Module Base64Url.

Definition alphabet : string :=
  "ABCDEFGHIJKLMNOPQRSTUVWXYZabcdefghijklmnopqrstuvwxyz0123456789-_".

Definition digit (n : Z) : ascii :=
  match String.get (Z.to_nat n) alphabet with
  | Some c => c
  | None => "="%char
  end.

Fixpoint index_from (i : Z) (c : ascii) (s : string) : option Z :=
  match s with
  | EmptyString => None
  | String d rest => if Ascii.eqb c d then Some i else index_from (i + 1) c rest
  end.

Definition value (c : ascii) : option Z := index_from 0 c alphabet.

Definition is_digit (c : ascii) : bool :=
  match value c with
  | Some _ => true
  | None => false
  end.

Fixpoint all_digits (s : string) : bool :=
  match s with
  | EmptyString => true
  | String c rest => is_digit c && all_digits rest
  end.

Fixpoint encode (bytes : list ascii) : string :=
  match bytes with
  | [] => ""
  | [a] =>
      let x := Base64.byte a in
      String (digit (x / 4)) (String (digit (x mod 4 * 16)) "")
  | [a; b] =>
      let x := Base64.byte a in
      let y := Base64.byte b in
      String (digit (x / 4))
        (String (digit (x mod 4 * 16 + y / 16))
           (String (digit (y mod 16 * 4)) ""))
  | a :: b :: c :: rest =>
      let x := Base64.byte a in
      let y := Base64.byte b in
      let z := Base64.byte c in
      String (digit (x / 4))
        (String (digit (x mod 4 * 16 + y / 16))
           (String (digit (y mod 16 * 4 + z / 64))
              (String (digit (z mod 64)) (encode rest))))
  end.

Definition chr (n : Z) : ascii := ascii_of_N (Z.to_N n).

Fixpoint decode (s : string) : option (list ascii) :=
  match s with
  | EmptyString => Some []
  | String c1 (String c2 EmptyString) =>
      match value c1, value c2 with
      | Some v1, Some v2 => Some [chr (v1 * 4 + v2 / 16)]
      | _, _ => None
      end
  | String c1 (String c2 (String c3 EmptyString)) =>
      match value c1, value c2, value c3 with
      | Some v1, Some v2, Some v3 =>
          Some [chr (v1 * 4 + v2 / 16); chr (v2 mod 16 * 16 + v3 / 4)]
      | _, _, _ => None
      end
  | String c1 (String c2 (String c3 (String c4 rest))) =>
      match value c1, value c2, value c3, value c4, decode rest with
      | Some v1, Some v2, Some v3, Some v4, Some bytes =>
          Some (chr (v1 * 4 + v2 / 16)
                  :: chr (v2 mod 16 * 16 + v3 / 4)
                  :: chr (v3 mod 4 * 64 + v4) :: bytes)
      | _, _, _, _, _ => None
      end
  | String _ EmptyString => None
  end.

(** The sextets, as numbers from 0 to 63. *)
Definition sextets : list Z := map Z.of_nat (seq 0 64).

End Base64Url.

Module ServerRef.

(** The property [k] of a JSON value that is not [null]. *)
Definition prop (v : JSON) (k : string) : Dyn.Value :=
  match v with
  | JObj fields => Dyn.field k fields
  | _ => None
  end.

(** What the listing keeps of one repository. *)
Definition repo_summary (r : JSON) : JSON :=
  JObj (Dyn.object [("name", prop r "name");
                    ("url", prop r "html_url");
                    ("description", prop r "description")]).

(** Whether a value names one of the declared tools. *)
Definition declared (tool : Dyn.Value) : bool :=
  existsb (fun d => Dyn.is_string tool (Server.decl_name d)) Server.tools.

(** The request for the repositories, made with the token [token]. *)
Definition repos_request (token : JSON) : Server.OutRequest :=
  {| Server.out_url := "https://api.github.com/user/repos?sort=updated&per_page=5";
     Server.out_method := "GET";
     Server.out_headers :=
       [("Authorization", ("token " ++ Dyn.json_to_string token)%string);
        ("User-Agent", "Nexus-Agent")];
     Server.out_body := None |}.

(** The state after a request went out and its answer was taken in. *)
Definition after_request {X} (req : Server.OutRequest) (x : X)
    (st : Server.State X) : Server.State X :=
  {| Server.db := Server.db st;
     Server.outbox := Server.outbox st ++ [req];
     Server.console := Server.console st;
     Server.outer := x |}.


Definition provider_id (p : Server.Provider) : string :=
  match p with
  | Server.GitHub => "github"
  | Server.Google => "google"
  | Server.Notion => "notion"
  end.

Definition client_id (env : Server.ServerEnv) (p : Server.Provider)
  : option string :=
  match p with
  | Server.GitHub => Server.GITHUB_CLIENT_ID env
  | Server.Google => Server.GOOGLE_CLIENT_ID env
  | Server.Notion => Server.NOTION_CLIENT_ID env
  end.

Definition authorize_endpoint (p : Server.Provider) : string :=
  match p with
  | Server.GitHub => "https://github.com/login/oauth/authorize"
  | Server.Google => "https://accounts.google.com/o/oauth2/v2/auth"
  | Server.Notion => "https://api.notion.com/v1/oauth/authorize"
  end.

(** The table as the handlers keep it: one row per id, each row for one
    of the three providers and filed under the provider's name. *)
Definition connections_ok (rows : list Server.Row) : Prop :=
  NoDup (map Server.row_id rows) /\
  Forall (fun r => Server.row_provider r = Server.row_id r /\
                   In (Server.row_id r) ["github"; "google"; "notion"]) rows.

(** What a request can do to the table: nothing, delete the row of an
    id, or put the row of a provider in the place of the old one. *)
Inductive table_change (rows : list Server.Row) : list Server.Row -> Prop :=
| table_unchanged : table_change rows rows
| table_deleted : forall id, table_change rows (Server.delete_by_id id rows)
| table_replaced : forall row,
    Server.row_provider row = Server.row_id row ->
    In (Server.row_id row) ["github"; "google"; "notion"] ->
    table_change rows (Server.insert_or_replace row rows).

(** The request that exchanges a code for a GitHub token. *)
Definition github_token_request (env : Server.ServerEnv) (code : Dyn.Value)
  : Server.OutRequest :=
  {| Server.out_url := "https://github.com/login/oauth/access_token";
     Server.out_method := "POST";
     Server.out_headers := [("Content-Type", "application/json");
                            ("Accept", "application/json")];
     Server.out_body :=
       Some (JObj (Dyn.object
               [("client_id", Server.env_value (Server.GITHUB_CLIENT_ID env));
                ("client_secret",
                 Server.env_value (Server.GITHUB_CLIENT_SECRET env));
                ("code", code)])) |}.

(** The name of the variable that holds a provider's client id. *)
Definition client_id_name (p : Server.Provider) : string :=
  match p with
  | Server.GitHub => "GITHUB_CLIENT_ID"
  | Server.Google => "GOOGLE_CLIENT_ID"
  | Server.Notion => "NOTION_CLIENT_ID"
  end.

(** The hosts the server talks to. *)
Definition hosts : list string :=
  ["https://github.com/"; "https://api.github.com/";
   "https://oauth2.googleapis.com/"; "https://gmail.googleapis.com/";
   "https://api.notion.com/"].

Definition known_host (url : string) : bool :=
  existsb (fun h => String.prefix h url) hosts.



End ServerRef.

(** Whether a character occurs in a string. *)
Fixpoint occurs (c : ascii) (s : string) : bool :=
  match s with
  | EmptyString => false
  | String d rest => Ascii.eqb c d || occurs c rest
  end.

(** The last character of a string. *)
Fixpoint last_char (s : string) : option ascii :=
  match s with
  | EmptyString => None
  | String c EmptyString => Some c
  | String _ rest => last_char rest
  end.

(** * The client and the server together *)

(** The world of [consultAgent] when its tool requests go to this
    server.  What the code does not define is taken as given: the model
    service, and the passage of a JSON value through [JSON.stringify] on
    one side and the parser on the other. *)
Section Browser.

Context {X MS : Type} (N : Server.Net X)
        (model : MS -> Message -> (GenerateContentResponse + Error) * MS)
        (stringify : JSON -> string) (parse : string -> JSON + Error).




End Browser.

(** * The page *)

(** [handleSend] of the [App] component, the caller of [consultAgent]. *)
Module App.

Inductive Role : Type := user | assistant.

Record Message : Type :=
  { id : string;
    role : Role;
    content : string;
    msg_sources : option (list Source);
    timestamp : Z }.

(** The state of the component that [handleSend] reads and sets, and
    what it wrote with [console.error]. *)
Record State : Type :=
  { input : string;
    messages : list Message;
    isThinking : bool;
    logged : list Error }.

(** What the browser gives: [String.prototype.trim],
    [Math.random().toString(36).substring(7)] and [new Date()]. *)
Record Runtime (S : Type) : Type :=
  { trim : string -> string;
    random_id : S -> string * S;
    clock : S -> Z }.

Arguments trim {S}.
Arguments random_id {S}.
Arguments clock {S}.

Definition failure_text : string :=
  "Error: Failed to connect to the brain. Please try again.".

Section Component.

Context {S : Type} (E : Env S) (R : Runtime S) (env : ProcessEnv).

(** A message with a fresh id and the time of its making. *)
Definition new_message (r : Role) (text : string)
    (srcs : option (list Source)) : M S Message :=
  fun w =>
    let (i, s) := random_id R (outside w) in
    (Ok {| id := i; role := r; content := text; msg_sources := srcs;
           timestamp := clock R s |},
     {| outside := s; trace := trace w |}).

(** [setMessages(prev => [...prev, m])] *)
Definition add_message (m : Message) (st : State) : State :=
  {| input := input st; messages := messages st ++ [m];
     isThinking := isThinking st; logged := logged st |}.

Definition handleSend (fuel : nat) (st : State) : M S State :=
  if negb (JS.truthy (Some (trim R (input st)))) || isThinking st then ret st
  else
    (userMessage <- new_message user (input st) None ;;
     let st1 := {| input := "";
                   messages := messages st ++ [userMessage];
                   isThinking := true;
                   logged := logged st |} in
     st2 <- try_catch
              (response <- consultAgent E fuel env (input st) ;;
               assistantMessage <- new_message assistant (text response)
                                     (Some (sources response)) ;;
               ret (add_message assistantMessage st1))
              (fun error =>
                 errorMessage <- new_message assistant failure_text None ;;
                 ret (add_message errorMessage
                        {| input := input st1; messages := messages st1;
                           isThinking := isThinking st1;
                           logged := logged st1 ++ [error] |})) ;;
     ret {| input := input st2; messages := messages st2;
            isThinking := false; logged := logged st2 |})%agent.

End Component.

End App.

(** ** Concrete servers and pages *)

Definition both_keys : ProcessEnv :=
  {| API_KEY := Some "a"; GEMINI_API_KEY := Some "g" |}.

(** A platform that stores what it is given, and rejects [undefined]. *)
Definition demo_platform : Server.Platform :=
  {| Server.bind :=
       fun _ v => match v with
                  | Some j => inl j
                  | None => inr (Dyn.TypeError "cannot bind undefined")
                  end;
     Server.expiry :=
       fun now v => match v with
                    | Some (JNum n) => Some (JNum (now + n * 1000))
                    | _ => None
                    end;
     Server.current_timestamp := fun now => JNum now;
     Server.encodeURIComponent := fun s => s |}.

(** An outside that answers every request with the status [code] and the
    JSON value [answer]. *)
Definition demo_net (code : Z) (answer : JSON) : Server.Net unit :=
  {| Server.net_fetch := fun x _ => (inl {| status := code; body := "" |}, x);
     Server.net_json := fun x _ => (inl answer, x);
     Server.net_now := fun _ => 0 |}.

Definition demo_env : Server.ServerEnv :=
  {| Server.GITHUB_CLIENT_ID := Some "gh-id";
     Server.GITHUB_CLIENT_SECRET := Some "gh-secret";
     Server.GOOGLE_CLIENT_ID := None;
     Server.GOOGLE_CLIENT_SECRET := None;
     Server.NOTION_CLIENT_ID := Some "";
     Server.NOTION_CLIENT_SECRET := None;
     Server.APP_URL := Some "https://app.example" |}.

Definition connection (provider token : string) : Server.Row :=
  {| Server.row_id := provider; Server.row_provider := provider;
     Server.access_token := JStr token; Server.refresh_token := JNull;
     Server.expires_at := JNull; Server.created_at := JNum 0 |}.

Definition demo_state (rows : list Server.Row) : Server.State unit :=
  {| Server.db := rows; Server.outbox := []; Server.console := [];
     Server.outer := tt |}.

Definition tool_body (name : string) (arguments : JSON) : JSON :=
  JObj [("tool", JStr name); ("args", arguments)].

Definition two_repos : JSON :=
  JArr [JObj [("name", JStr "r1"); ("html_url", JStr "https://x");
              ("description", JStr "d"); ("private", JBool false)];
        JObj [("name", JStr "r2"); ("html_url", JStr "https://y")]].

Definition bad_credentials : JSON :=
  JObj [("message", JStr "Bad credentials")].

Definition issue_args : JSON :=
  JObj [("repo", JStr "o/r"); ("title", JStr "t")].



Definition demo_runtime : App.Runtime nat :=
  {| App.trim := fun s => s;
     App.random_id := fun n => ("m", n);
     App.clock := fun _ => 0 |}.

Definition typing (text : string) : App.State :=
  {| App.input := text; App.messages := []; App.isThinking := false;
     App.logged := [] |}.

(** ** Running the monad *)

Section Proofs.

Context {S : Type} (E : Env S).

Lemma bind_ok {A B} (c : M S A) (k : A -> M S B) w a w' :
  c w = (Ok a, w') -> bind c k w = k a w'.
Proof. intros H. unfold bind. rewrite H. reflexivity. Qed.

Lemma bind_throw {A B} (c : M S A) (k : A -> M S B) w e w' :
  c w = (Throw e, w') -> bind c k w = (Throw e, w').
Proof. intros H. unfold bind. rewrite H. reflexivity. Qed.

Lemma try_catch_ok {A} (c : M S A) h w a w' :
  c w = (Ok a, w') -> try_catch c h w = (Ok a, w').
Proof. intros H. unfold try_catch. rewrite H. reflexivity. Qed.

Lemma try_catch_throw {A} (c : M S A) h w e w' :
  c w = (Throw e, w') -> try_catch c h w = h e w'.
Proof. intros H. unfold try_catch. rewrite H. reflexivity. Qed.

(** An outside call answers or throws; it never runs out of fuel. *)
Lemma sendMessage_cases m w :
  (exists r w', sendMessage E m w = (Ok r, w')) \/
  (exists e w', sendMessage E m w = (Throw e, w')).
Proof.
  unfold sendMessage.
  destruct (env_sendMessage E (outside w) m) as [[r | e] s]; cbn;
    [left | right]; eauto.
Qed.

Lemma invoke_cases call w :
  (exists result w', invoke E call w = (Ok result, w')) \/
  (exists error w', invoke E call w = (Throw error, w')).
Proof.
  unfold invoke, bind, fetch, res_json.
  destruct (env_fetch E (outside w) _) as [[res | e] s]; cbn.
  - destruct (env_json E s res) as [[j | e] s']; cbn; [left | right]; eauto.
  - right. eauto.
Qed.

(** The [try]/[catch] around one call, in terms of the invocation. *)
Lemma dispatch_invoke call acc w :
  dispatch E call acc w =
  match invoke E call w with
  | (Ok result, w') =>
      (Ok (acc ++ [{| fr_name := fc_name call; fr_response := Content result;
                      fr_id := fc_id call |}]), w')
  | (Throw error, w') =>
      (Ok (acc ++ [{| fr_name := fc_name call;
                      fr_response := ErrorMessage (message error);
                      fr_id := fc_id call |}]), w')
  | (OutOfFuel, w') => (OutOfFuel, w')
  end.
Proof.
  unfold dispatch, invoke, try_catch, bind, fetch, res_json, ret.
  destruct (env_fetch E (outside w) _) as [[res | e] s]; cbn; [| reflexivity].
  destruct (env_json E s res) as [[j | e] s']; reflexivity.
Qed.

Lemma for_calls_answered calls : forall acc w,
  exists rs w',
    for_calls E calls acc w = (Ok (acc ++ rs), w') /\ answered E w calls rs w'.
Proof.
  induction calls as [| call calls IH]; intros acc w; cbn [for_calls].
  - exists [], w. rewrite app_nil_r. split; [reflexivity | constructor].
  - unfold bind. rewrite dispatch_invoke.
    destruct (invoke_cases call w) as [(j & w1 & Hi) | (e & w1 & Hi)];
      rewrite Hi.
    + destruct (IH (acc ++ [{| fr_name := fc_name call;
                               fr_response := Content j;
                               fr_id := fc_id call |}]) w1)
        as (rs & w2 & Hrun & Hans).
      rewrite Hrun, <- app_assoc. eexists; exists w2.
      split; [reflexivity | eapply answered_ok; eassumption].
    + destruct (IH (acc ++ [{| fr_name := fc_name call;
                               fr_response := ErrorMessage (message e);
                               fr_id := fc_id call |}]) w1)
        as (rs & w2 & Hrun & Hans).
      rewrite Hrun, <- app_assoc. eexists; exists w2.
      split; [reflexivity | eapply answered_failed; eassumption].
Qed.

Lemma answered_shape w calls rs w' :
  answered E w calls rs w' ->
  map fr_id rs = map fc_id calls /\
  map fr_name rs = map fc_name calls /\
  length rs = length calls.
Proof.
  induction 1 as [| ? ? ? ? ? ? ? _ _ IH | ? ? ? ? ? ? ? _ _ IH]; cbn;
    [ | destruct IH as (Hi & Hn & Hl); rewrite Hi, Hn, Hl ..]; repeat split.
Qed.

(** [answered] is a function of the start world and the calls. *)
Lemma answered_unique w calls rs1 w1 :
  answered E w calls rs1 w1 ->
  forall rs2 w2, answered E w calls rs2 w2 -> rs1 = rs2 /\ w1 = w2.
Proof.
  induction 1 as [| ? ? ? ? ? ? ? Hinv _ IH | ? ? ? ? ? ? ? Hinv _ IH];
    intros rs2 w2' H2; inversion H2; subst; auto;
    match goal with
    | [ H : invoke E _ _ = _ |- _ ] => rewrite Hinv in H; inversion H; subst
    end;
    match goal with
    | [ H : answered E _ _ _ _ |- _ ] => destruct (IH _ _ H); subst; auto
    end.
Qed.

(** ** What a run adds to the trace *)

(** [grows_by P w w']: the trace of [w'] is that of [w] followed by events
    that all satisfy [P]. *)
Definition grows_by (P : Event -> bool) (w w' : World S) : Prop :=
  exists d, trace w' = trace w ++ d /\ forallb P d = true.

Lemma grows_by_refl P w : grows_by P w w.
Proof. exists []. rewrite app_nil_r. auto. Qed.

Lemma grows_by_trans P w1 w2 w3 :
  grows_by P w1 w2 -> grows_by P w2 w3 -> grows_by P w1 w3.
Proof.
  intros (d1 & H1 & F1) (d2 & H2 & F2). exists (d1 ++ d2).
  rewrite H2, H1, app_assoc, forallb_app, F1, F2. auto.
Qed.

Lemma grows_by_weaken (P Q : Event -> bool) w w' :
  (forall ev, P ev = true -> Q ev = true) ->
  grows_by P w w' -> grows_by Q w w'.
Proof.
  intros HPQ (d & Hd & Fd). exists d. split; [exact Hd |].
  rewrite forallb_forall in *. auto.
Qed.

Lemma invoke_grows call w out w' :
  invoke E call w = (out, w') -> grows_by is_tool_call w w'.
Proof.
  unfold invoke, bind, fetch, res_json.
  destruct (env_fetch E (outside w) _) as [[res | e] s]; cbn.
  - destruct (env_json E s res) as [r s']. intros H. inversion H; subst.
    eexists. split; [cbn; rewrite <- app_assoc; reflexivity | reflexivity].
  - intros H. inversion H; subst.
    eexists. split; [cbn; reflexivity | reflexivity].
Qed.

Lemma answered_grows w calls rs w' :
  answered E w calls rs w' -> grows_by is_tool_call w w'.
Proof.
  induction 1 as [| ? ? ? ? ? ? ? Hinv _ IH | ? ? ? ? ? ? ? Hinv _ IH].
  - apply grows_by_refl.
  - eapply grows_by_trans; [eapply invoke_grows; eassumption | exact IH].
  - eapply grows_by_trans; [eapply invoke_grows; eassumption | exact IH].
Qed.

Lemma attempts_app a b : attempts (a ++ b) = (attempts a + attempts b)%nat.
Proof. unfold attempts. rewrite filter_app, length_app. reflexivity. Qed.

Lemma tool_replies_app a b :
  tool_replies (a ++ b) = (tool_replies a + tool_replies b)%nat.
Proof. unfold tool_replies. rewrite filter_app, length_app. reflexivity. Qed.

Lemma delays_app a b : delays (a ++ b) = delays a ++ delays b.
Proof.
  induction a as [| ev a IH]; cbn; [reflexivity |].
  destruct ev; cbn; rewrite IH; reflexivity.
Qed.

(** The traffic of the function-call loop holds neither a query nor a
    wait. *)
Lemma round_trips_quiet d :
  forallb is_round_trip d = true -> attempts d = 0%nat /\ delays d = [].
Proof.
  induction d as [| ev d IH]; cbn; [auto |].
  intros H. apply andb_true_iff in H. destruct H as [Hev Hd].
  destruct (IH Hd) as [Ha Hs]. unfold attempts in *.
  destruct ev as [| [|] | | | |]; cbn in *; try discriminate; auto.
Qed.

(** ** The function-call loop *)

(** One pass: the answers to the calls go back to the model in a single
    message. *)
Lemma loop_body_answered iterations calls w rs w1 :
  answered E w calls rs w1 ->
  loop_body E iterations calls w =
  (response <- sendMessage E (MsgFunctionResponses rs) ;;
   ret (iterations + 1, response)) w1.
Proof.
  intros Hans. unfold loop_body.
  destruct (for_calls_answered calls [] w) as (rs' & w' & Hrun & Hans').
  destruct (answered_unique _ _ _ _ Hans _ _ Hans'); subst.
  cbn [app] in Hrun. unfold bind at 1. rewrite Hrun. reflexivity.
Qed.

Lemma loop_body_cases iterations calls w :
  (exists response w',
      loop_body E iterations calls w = (Ok (iterations + 1, response), w')) \/
  (exists e w', loop_body E iterations calls w = (Throw e, w')).
Proof.
  destruct (for_calls_answered calls [] w) as (rs & w1 & _ & Hans).
  rewrite (loop_body_answered _ _ _ _ _ Hans).
  destruct (sendMessage_cases (MsgFunctionResponses rs) w1)
    as [(r & w' & Hs) | (e & w' & Hs)].
  - left. exists r, w'. rewrite (bind_ok _ _ _ _ _ Hs). reflexivity.
  - right. exists e, w'. rewrite (bind_throw _ _ _ _ _ Hs). reflexivity.
Qed.

Lemma loop_body_counter iterations calls w iterations' response w' :
  loop_body E iterations calls w = (Ok (iterations', response), w') ->
  iterations' = iterations + 1.
Proof.
  intros H.
  destruct (loop_body_cases iterations calls w)
    as [(r & w1 & Hb) | (e & w1 & Hb)]; rewrite Hb in H; congruence.
Qed.

(** The requests of the tool calls are no messages to the model. *)
Lemma tool_calls_no_reply d :
  forallb is_tool_call d = true ->
  tool_replies d = 0%nat /\ forallb is_round_trip d = true.
Proof.
  induction d as [| ev d IH]; cbn; [auto |].
  intros H. apply andb_true_iff in H. destruct H as [Hev Hd].
  destruct (IH Hd) as [Hr Ht]. unfold tool_replies in *.
  destruct ev; cbn in *; try discriminate; auto.
Qed.

(** One pass sends exactly one message of function responses, after the
    requests of the tool calls. *)
Lemma loop_body_trace iterations calls w out w' :
  loop_body E iterations calls w = (out, w') ->
  grows_by is_round_trip w w' /\
  tool_replies (trace w') = (tool_replies (trace w) + 1)%nat.
Proof.
  destruct (for_calls_answered calls [] w) as (rs & w1 & _ & Hans).
  rewrite (loop_body_answered _ _ _ _ _ Hans).
  destruct (answered_grows _ _ _ _ Hans) as (d & Hd & Fd).
  destruct (tool_calls_no_reply _ Fd) as [Hq Ft].
  unfold bind, sendMessage, ret.
  destruct (env_sendMessage E (outside w1) _) as [[r | e] s];
    cbn; intros H; inversion H; subst; cbn [trace]; rewrite Hd.
  all: split;
    [ exists (d ++ [EvSendMessage (MsgFunctionResponses rs)]);
      rewrite app_assoc, forallb_app, Ft; auto
    | rewrite !tool_replies_app, Hq; cbn; lia ].
Qed.

(** The loop comes to an end once the fuel exceeds the passes left. *)
Lemma function_call_loop_ends fuel : forall iterations response w,
  (Z.to_nat (5 - iterations) < fuel)%nat ->
  fst (function_call_loop E fuel iterations response w) <> OutOfFuel.
Proof.
  induction fuel as [| fuel IH]; intros iterations response w Hfuel; [lia |].
  cbn [function_call_loop].
  destruct (functionCalls response) as [calls |]; [| cbn; discriminate].
  destruct (iterations <? 5) eqn:Hlt; [| cbn; discriminate].
  apply Z.ltb_lt in Hlt.
  destruct (loop_body_cases iterations calls w)
    as [(r & w' & Hb) | (e & w' & Hb)].
  - rewrite (bind_ok _ _ _ _ _ Hb). cbn [fst snd]. apply IH. lia.
  - rewrite (bind_throw _ _ _ _ _ Hb). cbn. discriminate.
Qed.

(** The counter only grows, and it stops at 5. *)
Lemma function_call_loop_counter fuel : forall iterations response w it r w',
  function_call_loop E fuel iterations response w = (Ok (it, r), w') ->
  iterations <= it /\ (iterations <= 5 -> it <= 5).
Proof.
  induction fuel as [| fuel IH]; intros iterations response w it r w' H;
    [discriminate |].
  cbn [function_call_loop] in H.
  destruct (functionCalls response) as [calls |];
    [| inversion H; subst; lia].
  destruct (iterations <? 5) eqn:Hlt; [| inversion H; subst; lia].
  apply Z.ltb_lt in Hlt.
  destruct (loop_body_cases iterations calls w)
    as [(r1 & w1 & Hb) | (e & w1 & Hb)].
  - rewrite (bind_ok _ _ _ _ _ Hb) in H. cbn [fst snd] in H.
    apply IH in H. lia.
  - rewrite (bind_throw _ _ _ _ _ Hb) in H. discriminate.
Qed.

Lemma loop_visits_counter h h' :
  loop_visits E h h' ->
  fst (fst h) <= fst (fst h') /\ (fst (fst h) <= 5 -> fst (fst h') <= 5).
Proof.
  induction 1 as [h | it r w calls it' r' w' h Hc Hlt Hb _ IH]; cbn in *.
  - lia.
  - apply Z.ltb_lt in Hlt. apply loop_body_counter in Hb. lia.
Qed.

(** Where the loop stops is a head it has visited. *)
Lemma function_call_loop_visits fuel : forall iterations response w it r w',
  function_call_loop E fuel iterations response w = (Ok (it, r), w') ->
  loop_visits E (iterations, response, w) (it, r, w').
Proof.
  induction fuel as [| fuel IH]; intros iterations response w it r w' H;
    [discriminate |].
  cbn [function_call_loop] in H.
  destruct (functionCalls response) as [calls |] eqn:Hc;
    [| inversion H; subst; constructor].
  destruct (iterations <? 5) eqn:Hlt; [| inversion H; subst; constructor].
  destruct (loop_body E iterations calls w) as [[[it1 r1] | e |] w1] eqn:Hb.
  - rewrite (bind_ok _ _ _ _ _ Hb) in H. cbn [fst snd] in H.
    eapply loop_visits_next; eauto.
  - rewrite (bind_throw _ _ _ _ _ Hb) in H. discriminate.
  - unfold bind in H. rewrite Hb in H. discriminate.
Qed.

Lemma function_call_loop_trace fuel : forall iterations response w out w',
  function_call_loop E fuel iterations response w = (out, w') ->
  grows_by is_round_trip w w'.
Proof.
  induction fuel as [| fuel IH]; intros iterations response w out w' H.
  - inversion H; subst. apply grows_by_refl.
  - cbn [function_call_loop] in H.
    destruct (functionCalls response) as [calls |];
      [| inversion H; subst; apply grows_by_refl].
    destruct (iterations <? 5); [| inversion H; subst; apply grows_by_refl].
    destruct (loop_body E iterations calls w) as [[st | e |] w1] eqn:Hb;
      pose proof (proj1 (loop_body_trace _ _ _ _ _ Hb)) as Hg;
      unfold bind in H; rewrite Hb in H.
    + eapply grows_by_trans; [exact Hg | eapply IH; exact H].
    + inversion H; subst. exact Hg.
    + inversion H; subst. exact Hg.
Qed.

(** Against a model that asks for calls in every answer, the loop makes
    every pass that is left, and stops with the counter at 5. *)
Lemma loop_body_always iterations calls w :
  always_calls E ->
  exists r w',
    loop_body E iterations calls w = (Ok (iterations + 1, r), w') /\
    functionCalls r <> None.
Proof.
  intros Hall.
  destruct (for_calls_answered calls [] w) as (rs & w1 & _ & Hans).
  rewrite (loop_body_answered _ _ _ _ _ Hans).
  unfold bind, sendMessage, ret.
  pose proof (Hall (outside w1) (MsgFunctionResponses rs)) as Hnext.
  destruct (env_sendMessage E (outside w1) _) as [[r | e] s];
    cbn in Hnext |- *; [eauto | contradiction].
Qed.

Lemma function_call_loop_always fuel : forall iterations response w,
  always_calls E ->
  functionCalls response <> None ->
  0 <= iterations <= 5 ->
  (Z.to_nat (5 - iterations) < fuel)%nat ->
  exists r w',
    function_call_loop E fuel iterations response w = (Ok (5, r), w') /\
    tool_replies (trace w') =
    (tool_replies (trace w) + Z.to_nat (5 - iterations))%nat.
Proof.
  induction fuel as [| fuel IH]; intros iterations response w Hall Hc Hit Hfuel;
    [lia |].
  cbn [function_call_loop].
  destruct (functionCalls response) as [calls |] eqn:Hcalls; [| congruence].
  destruct (iterations <? 5) eqn:Hlt.
  - apply Z.ltb_lt in Hlt.
    destruct (loop_body_always iterations calls w Hall) as (r1 & w1 & Hb & Hc1).
    pose proof (proj2 (loop_body_trace _ _ _ _ _ Hb)) as Hcount.
    rewrite (bind_ok _ _ _ _ _ Hb). cbn [fst snd].
    destruct (IH (iterations + 1) r1 w1 Hall Hc1) as (r & w' & Hrun & Htr);
      [lia | lia |].
    exists r, w'. split; [exact Hrun |]. rewrite Htr, Hcount. lia.
  - apply Z.ltb_ge in Hlt. assert (iterations = 5) by lia. subst.
    exists response, w. split; [reflexivity | cbn; lia].
Qed.

(** ** One turn attempt *)

(** An attempt sends the query once, and then only the traffic of the
    function-call loop. *)
Lemma sendMessage_trace m w out w' :
  sendMessage E m w = (out, w') -> trace w' = trace w ++ [EvSendMessage m].
Proof.
  unfold sendMessage. destruct (env_sendMessage E (outside w) m) as [r s].
  intros H. inversion H; subst. reflexivity.
Qed.

Lemma turn_attempt_trace fuel userQuery w out w' :
  turn_attempt E fuel userQuery w = (out, w') ->
  exists d,
    trace w' = trace w ++ EvSendMessage (MsgText userQuery) :: d /\
    forallb is_round_trip d = true.
Proof.
  intros H. unfold turn_attempt, bind in H.
  destruct (sendMessage E (MsgText userQuery) w) as [[r | e |] w1] eqn:Hs;
    pose proof (sendMessage_trace _ _ _ _ Hs) as Hq.
  - destruct (function_call_loop E fuel 0 r w1) as [o w2] eqn:Hloop.
    destruct (function_call_loop_trace _ _ _ _ _ _ Hloop) as (d & Hd & Fd).
    exists d. rewrite Hq, <- app_assoc in Hd. cbn [app] in Hd.
    destruct o as [st | e |]; inversion H; subst; auto.
  - inversion H; subst. exists []. auto.
  - inversion H; subst. exists []. auto.
Qed.

Lemma turn_attempt_observed fuel userQuery w out w' :
  turn_attempt E fuel userQuery w = (out, w') ->
  attempts (trace w') = (attempts (trace w) + 1)%nat /\
  delays (trace w') = delays (trace w).
Proof.
  intros H. destruct (turn_attempt_trace _ _ _ _ _ H) as (d & Hd & Fd).
  destruct (round_trips_quiet _ Fd) as [Ha Hs].
  rewrite Hd, attempts_app, delays_app.
  change (EvSendMessage (MsgText userQuery) :: d)
    with ([EvSendMessage (MsgText userQuery)] ++ d).
  rewrite attempts_app, delays_app, Ha, Hs. cbn. rewrite app_nil_r.
  split; [lia | reflexivity].
Qed.

Lemma turn_attempt_ends fuel userQuery w :
  (5 < fuel)%nat -> fst (turn_attempt E fuel userQuery w) <> OutOfFuel.
Proof.
  intros Hfuel. unfold turn_attempt.
  destruct (sendMessage_cases (MsgText userQuery) w)
    as [(r & w1 & Hs) | (e & w1 & Hs)].
  - rewrite (bind_ok _ _ _ _ _ Hs).
    pose proof (function_call_loop_ends fuel 0 r w1) as Hends.
    unfold bind.
    destruct (function_call_loop E fuel 0 r w1) as [[st | e |] w2];
      cbn in *; try discriminate.
    exfalso. apply Hends; [lia | reflexivity].
  - rewrite (bind_throw _ _ _ _ _ Hs). cbn. discriminate.
Qed.

(** ** The error handler *)

Lemma on_error_retry retryCount error w :
  isTransient error = true ->
  retryCount < maxRetries - 1 ->
  on_error E retryCount error w =
  (Ok (Continue (retryCount + 1)),
   after_backoff E (retryCount + 1) error (2 ^ (retryCount + 1) * 1000) w).
Proof.
  intros Ht Hlt. apply Z.ltb_lt in Hlt.
  unfold on_error, bind, console_error, setTimeout, ret, after_backoff, emit.
  rewrite Ht, Hlt. cbn. rewrite <- app_assoc. reflexivity.
Qed.

Lemma on_error_quota retryCount error w :
  (isTransient error && (retryCount <? maxRetries - 1)) = false ->
  (message_includes error "429" ||
   message_includes error "RESOURCE_EXHAUSTED") = true ->
  on_error E retryCount error w =
  (Ok (Return quotaExhaustedResponse), after_log (retryCount + 1) error w).
Proof.
  intros Hno Hq. unfold on_error, bind, console_error, ret.
  cbn beta iota. rewrite Hno, Hq. reflexivity.
Qed.

Lemma on_error_invalid_key retryCount error w :
  (isTransient error && (retryCount <? maxRetries - 1)) = false ->
  (message_includes error "429" ||
   message_includes error "RESOURCE_EXHAUSTED") = false ->
  (message_includes error "API_KEY_INVALID" ||
   message_includes error "invalid API key") = true ->
  on_error E retryCount error w =
  (Ok (Return invalidKeyResponse), after_log (retryCount + 1) error w).
Proof.
  intros Hno Hq Hk. unfold on_error, bind, console_error, ret.
  cbn beta iota. rewrite Hno, Hq, Hk. reflexivity.
Qed.

Lemma on_error_internal retryCount error w :
  (isTransient error && (retryCount <? maxRetries - 1)) = false ->
  (message_includes error "429" ||
   message_includes error "RESOURCE_EXHAUSTED") = false ->
  (message_includes error "API_KEY_INVALID" ||
   message_includes error "invalid API key") = false ->
  (message_includes error "500" || message_includes error "INTERNAL") = true ->
  on_error E retryCount error w =
  (Ok (Return internalErrorResponse), after_log (retryCount + 1) error w).
Proof.
  intros Hno Hq Hk Hi. unfold on_error, bind, console_error, ret.
  cbn beta iota. rewrite Hno, Hq, Hk, Hi. reflexivity.
Qed.

Lemma on_error_rethrow retryCount error w :
  (isTransient error && (retryCount <? maxRetries - 1)) = false ->
  (message_includes error "429" ||
   message_includes error "RESOURCE_EXHAUSTED") = false ->
  (message_includes error "API_KEY_INVALID" ||
   message_includes error "invalid API key") = false ->
  (message_includes error "500" || message_includes error "INTERNAL") = false ->
  on_error E retryCount error w =
  (Throw error, after_log (retryCount + 1) error w).
Proof.
  intros Hno Hq Hk Hi. unfold on_error, bind, console_error, ret, throw.
  cbn beta iota. rewrite Hno, Hq, Hk, Hi. reflexivity.
Qed.

(** The handler asks for another attempt only below the last one, and
    then with the counter one up. *)
Lemma on_error_continue retryCount error w retryCount' w' :
  on_error E retryCount error w = (Ok (Continue retryCount'), w') ->
  retryCount' = retryCount + 1 /\ retryCount < maxRetries - 1 /\
  isTransient error = true /\
  w' = after_backoff E retryCount' error (2 ^ retryCount' * 1000) w.
Proof.
  destruct (isTransient error && (retryCount <? maxRetries - 1)) eqn:Hgo.
  - apply andb_true_iff in Hgo. destruct Hgo as [Ht Hlt].
    apply Z.ltb_lt in Hlt. rewrite (on_error_retry _ _ _ Ht Hlt).
    intros H. inversion H; subst. auto.
  - unfold on_error, bind, console_error, ret, throw.
    cbn beta iota. rewrite Hgo.
    repeat match goal with
           | [ |- context [if ?b then _ else _] ] => destruct b
           end; discriminate.
Qed.

(** What the handler returns carries no sources. *)
Lemma on_error_return retryCount error w r w' :
  on_error E retryCount error w = (Ok (Return r), w') ->
  sources r = [] /\
  (r = quotaExhaustedResponse \/ r = invalidKeyResponse \/
   r = internalErrorResponse).
Proof.
  unfold on_error, bind, console_error, setTimeout, ret, throw.
  cbn beta iota.
  repeat match goal with
         | [ |- context [if ?b then _ else _] ] => destruct b
         end; intros H; inversion H; subst; auto.
Qed.

Lemma on_error_observed retryCount error w out w' :
  on_error E retryCount error w = (out, w') ->
  attempts (trace w') = attempts (trace w).
Proof.
  unfold on_error, bind, console_error, setTimeout, ret, throw, emit.
  cbn beta iota.
  repeat match goal with
         | [ |- context [if ?b then _ else _] ] => destruct b
         end; intros H; inversion H; subst; cbn [trace];
    rewrite ?attempts_app; cbn; lia.
Qed.

Lemma on_error_ends retryCount error w :
  fst (on_error E retryCount error w) <> OutOfFuel.
Proof.
  unfold on_error, bind, console_error, setTimeout, ret, throw.
  cbn beta iota.
  repeat match goal with
         | [ |- context [if ?b then _ else _] ] => destruct b
         end; cbn; discriminate.
Qed.

(** ** The retry loop *)

Lemma attempt_body_ok inner retryCount userQuery w r w' :
  turn_attempt E inner userQuery w = (Ok r, w') ->
  attempt_body E inner retryCount userQuery w = (Ok (Return r), w').
Proof.
  intros H. unfold attempt_body.
  apply try_catch_ok. rewrite (bind_ok _ _ _ _ _ H). reflexivity.
Qed.

Lemma attempt_body_throw inner retryCount userQuery w e w' :
  turn_attempt E inner userQuery w = (Throw e, w') ->
  attempt_body E inner retryCount userQuery w = on_error E retryCount e w'.
Proof.
  intros H. unfold attempt_body.
  apply try_catch_throw. rewrite (bind_throw _ _ _ _ _ H). reflexivity.
Qed.

(** The three ways a pass through the body can go. *)
Lemma attempt_body_cases inner retryCount userQuery w :
  (exists r w', turn_attempt E inner userQuery w = (Ok r, w') /\
                attempt_body E inner retryCount userQuery w = (Ok (Return r), w')) \/
  (exists e w', turn_attempt E inner userQuery w = (Throw e, w') /\
                attempt_body E inner retryCount userQuery w =
                on_error E retryCount e w') \/
  (exists w', turn_attempt E inner userQuery w = (OutOfFuel, w') /\
              attempt_body E inner retryCount userQuery w = (OutOfFuel, w')).
Proof.
  destruct (turn_attempt E inner userQuery w) as [[r | e |] w'] eqn:Ht.
  - left. exists r, w'. split; [reflexivity | apply attempt_body_ok; exact Ht].
  - right; left. exists e, w'.
    split; [reflexivity | apply attempt_body_throw; exact Ht].
  - right; right. exists w'. split; [reflexivity |].
    unfold attempt_body, try_catch, bind. rewrite Ht. reflexivity.
Qed.

Lemma attempt_body_continue inner retryCount userQuery w retryCount' w' :
  attempt_body E inner retryCount userQuery w = (Ok (Continue retryCount'), w') ->
  retryCount' = retryCount + 1 /\ retryCount < maxRetries - 1.
Proof.
  destruct (attempt_body_cases inner retryCount userQuery w)
    as [(r & w1 & _ & Hb) | [(e & w1 & _ & Hb) | (w1 & _ & Hb)]];
    rewrite Hb; intros H; try discriminate.
  apply on_error_continue in H. tauto.
Qed.

Lemma attempt_body_observed inner retryCount userQuery w out w' :
  attempt_body E inner retryCount userQuery w = (out, w') ->
  attempts (trace w') = (attempts (trace w) + 1)%nat.
Proof.
  destruct (attempt_body_cases inner retryCount userQuery w)
    as [(r & w1 & Ht & Hb) | [(e & w1 & Ht & Hb) | (w1 & Ht & Hb)]];
    rewrite Hb; intros H; apply turn_attempt_observed in Ht;
    destruct Ht as [Ha _].
  - inversion H; subst. exact Ha.
  - apply on_error_observed in H. lia.
  - inversion H; subst. exact Ha.
Qed.

Lemma attempt_body_ends inner retryCount userQuery w :
  (5 < inner)%nat ->
  fst (attempt_body E inner retryCount userQuery w) <> OutOfFuel.
Proof.
  intros Hinner.
  destruct (attempt_body_cases inner retryCount userQuery w)
    as [(r & w1 & Ht & Hb) | [(e & w1 & Ht & Hb) | (w1 & Ht & Hb)]];
    rewrite Hb.
  - cbn. discriminate.
  - apply on_error_ends.
  - pose proof (turn_attempt_ends inner userQuery w Hinner) as Hends.
    rewrite Ht in Hends. exfalso. apply Hends. reflexivity.
Qed.

(** The invariant of the retry loop: from a counter of at most 2, every
    head the loop visits has a counter of at most 2. *)
Lemma retry_visits_counter inner userQuery h h' :
  retry_visits E inner userQuery h h' ->
  fst h <= fst h' /\ (fst h <= 2 -> fst h' <= 2).
Proof.
  induction 1 as [h | rc w rc' w' h Hlt Hb _ IH]; cbn in *.
  - lia.
  - apply attempt_body_continue in Hb. unfold maxRetries in Hb. lia.
Qed.

(** With the counter at most 2 the loop never leaves through its
    condition. *)
Lemma retry_loop_stays fuel : forall inner retryCount userQuery w,
  retryCount <= 2 ->
  fst (retry_loop E fuel inner retryCount userQuery w) <> Ok None.
Proof.
  induction fuel as [| fuel IH]; intros inner rc q w Hrc; [cbn; discriminate |].
  cbn [retry_loop].
  assert (Hlt : (rc <? maxRetries) = true)
    by (apply Z.ltb_lt; unfold maxRetries; lia).
  rewrite Hlt. unfold bind.
  destruct (attempt_body E inner rc q w) as [[[rc' | r] | e |] w'] eqn:Hb;
    try (cbn; discriminate).
  apply attempt_body_continue in Hb. unfold maxRetries in Hb.
  apply IH. lia.
Qed.

(** The loop comes to an end once the fuel exceeds the retries left. *)
Lemma retry_loop_ends fuel : forall inner retryCount userQuery w,
  (5 < inner)%nat ->
  (Z.to_nat (2 - retryCount) < fuel)%nat ->
  fst (retry_loop E fuel inner retryCount userQuery w) <> OutOfFuel.
Proof.
  induction fuel as [| fuel IH]; intros inner rc q w Hinner Hfuel; [lia |].
  cbn [retry_loop].
  destruct (rc <? maxRetries); [| cbn; discriminate].
  pose proof (attempt_body_ends inner rc q w Hinner) as Hends.
  unfold bind.
  destruct (attempt_body E inner rc q w) as [[[rc' | r] | e |] w'] eqn:Hb;
    try (cbn; discriminate); [| exfalso; apply Hends; reflexivity].
  apply attempt_body_continue in Hb. unfold maxRetries in Hb.
  apply IH; [exact Hinner | lia].
Qed.

(** Fuel beyond the retries left changes nothing. *)
Lemma retry_loop_fuel fuel : forall fuel' inner retryCount userQuery w,
  (Z.to_nat (2 - retryCount) < fuel)%nat ->
  (Z.to_nat (2 - retryCount) < fuel')%nat ->
  retry_loop E fuel inner retryCount userQuery w =
  retry_loop E fuel' inner retryCount userQuery w.
Proof.
  induction fuel as [| fuel IH]; intros fuel' inner rc q w H1 H2; [lia |].
  destruct fuel' as [| fuel']; [lia |].
  cbn [retry_loop].
  destruct (rc <? maxRetries); [| reflexivity].
  unfold bind.
  destruct (attempt_body E inner rc q w) as [[[rc' | r] | e |] w'] eqn:Hb;
    try reflexivity.
  apply attempt_body_continue in Hb. unfold maxRetries in Hb.
  apply IH; lia.
Qed.

(** One step of the loop, by the way the pass through the body ends. *)
Lemma retry_loop_last fuel inner retryCount userQuery w :
  retryCount < maxRetries ->
  retry_loop E (Datatypes.S fuel) inner retryCount userQuery w =
  match attempt_body E inner retryCount userQuery w with
  | (Ok (Continue retryCount'), w') =>
      retry_loop E fuel inner retryCount' userQuery w'
  | (Ok (Return r), w') => (Ok (Some r), w')
  | (Throw e, w') => (Throw e, w')
  | (OutOfFuel, w') => (OutOfFuel, w')
  end.
Proof.
  intros Hlt. apply Z.ltb_lt in Hlt. cbn [retry_loop]. rewrite Hlt.
  unfold bind.
  destruct (attempt_body E inner retryCount userQuery w)
    as [[[rc' | r] | e |] w']; reflexivity.
Qed.

(** What the loop does from its start, it does from any head it visits. *)
Lemma retry_loop_from_head fuel inner userQuery h h' :
  retry_visits E inner userQuery h h' ->
  (Z.to_nat (2 - fst h) < fuel)%nat ->
  retry_loop E fuel inner (fst h) userQuery (snd h) =
  retry_loop E fuel inner (fst h') userQuery (snd h').
Proof.
  induction 1 as [h | rc w rc' w' h Hlt Hb _ IH]; cbn [fst snd] in *;
    intros Hfuel; [reflexivity |].
  destruct fuel as [| fuel]; [lia |].
  pose proof (attempt_body_continue _ _ _ _ _ _ Hb) as [Hrc Hlast].
  unfold maxRetries in Hlast.
  rewrite <- IH by lia.
  rewrite (retry_loop_last fuel inner rc userQuery w), Hb
    by (apply Z.ltb_lt; exact Hlt).
  apply retry_loop_fuel; lia.
Qed.

(** Every pass through the body is one attempt; from a counter of [rc]
    there are at most [3 - rc] of them. *)
Lemma retry_loop_attempts fuel : forall inner retryCount userQuery w out w',
  0 <= retryCount ->
  retry_loop E fuel inner retryCount userQuery w = (out, w') ->
  (attempts (trace w') <= attempts (trace w) + Z.to_nat (3 - retryCount))%nat.
Proof.
  induction fuel as [| fuel IH]; intros inner rc q w out w' Hrc H.
  - inversion H; subst. lia.
  - cbn [retry_loop] in H.
    destruct (rc <? maxRetries) eqn:Hlt; [| inversion H; subst; lia].
    apply Z.ltb_lt in Hlt. unfold maxRetries in Hlt.
    unfold bind in H.
    destruct (attempt_body E inner rc q w) as [o w1] eqn:Hb.
    pose proof (attempt_body_observed _ _ _ _ _ _ Hb) as Hone.
    destruct o as [[rc' | r] | e |]; try (inversion H; subst; lia).
    apply attempt_body_continue in Hb. apply IH in H; lia.
Qed.

(** ** [consultAgent] *)

Lemma consultAgent_no_key fuel env userQuery w :
  JS.truthy (JS.or (API_KEY env) (GEMINI_API_KEY env)) = false ->
  consultAgent E fuel env userQuery w = (Ok missingKeyResponse, w).
Proof.
  intros H. unfold consultAgent.
  destruct (JS.or (API_KEY env) (GEMINI_API_KEY env)); [| reflexivity].
  rewrite H. reflexivity.
Qed.

Lemma consultAgent_with_key fuel env userQuery w key :
  JS.or (API_KEY env) (GEMINI_API_KEY env) = Some key ->
  JS.truthy (Some key) = true ->
  consultAgent E fuel env userQuery w =
  match retry_loop E fuel fuel 0 userQuery (after_create key w) with
  | (Ok (Some response), w') => (Ok response, w')
  | (Ok None, w') => (Ok fallbackResponse, w')
  | (Throw e, w') => (Throw e, w')
  | (OutOfFuel, w') => (OutOfFuel, w')
  end.
Proof.
  intros Hkey Ht. unfold consultAgent. rewrite Hkey, Ht.
  unfold bind, chats_create, emit, after_create, ret.
  destruct (retry_loop E fuel fuel 0 userQuery _) as [[[r |] | e |] w'];
    reflexivity.
Qed.

(** With a key, what [consultAgent] does is what the retry loop does from
    any head it visits. *)
Lemma consultAgent_from_head fuel env userQuery w key retryCount w1 :
  JS.or (API_KEY env) (GEMINI_API_KEY env) = Some key ->
  JS.truthy (Some key) = true ->
  (2 < fuel)%nat ->
  retry_visits E fuel userQuery (0, after_create key w) (retryCount, w1) ->
  consultAgent E fuel env userQuery w =
  match retry_loop E fuel fuel retryCount userQuery w1 with
  | (Ok (Some response), w') => (Ok response, w')
  | (Ok None, w') => (Ok fallbackResponse, w')
  | (Throw e, w') => (Throw e, w')
  | (OutOfFuel, w') => (OutOfFuel, w')
  end.
Proof.
  intros Hkey Ht Hfuel Hv.
  rewrite (consultAgent_with_key _ _ _ _ _ Hkey Ht).
  apply (retry_loop_from_head fuel) in Hv; cbn [fst snd] in *; [| lia].
  rewrite Hv. reflexivity.
Qed.

(** ** Fuel does not matter *)

Lemma function_call_loop_fuel fuel : forall fuel' iterations response w,
  (Z.to_nat (5 - iterations) < fuel)%nat ->
  (Z.to_nat (5 - iterations) < fuel')%nat ->
  function_call_loop E fuel iterations response w =
  function_call_loop E fuel' iterations response w.
Proof.
  induction fuel as [| fuel IH]; intros fuel' iterations response w H1 H2;
    [lia |].
  destruct fuel' as [| fuel']; [lia |].
  cbn [function_call_loop].
  destruct (functionCalls response) as [calls |]; [| reflexivity].
  destruct (iterations <? 5) eqn:Hlt; [| reflexivity].
  apply Z.ltb_lt in Hlt.
  destruct (loop_body_cases iterations calls w)
    as [(r & w' & Hb) | (e & w' & Hb)].
  - rewrite !(bind_ok _ _ _ _ _ Hb). cbn [fst snd]. apply IH; lia.
  - rewrite !(bind_throw _ _ _ _ _ Hb). reflexivity.
Qed.

Lemma turn_attempt_fuel fuel fuel' userQuery w :
  (5 < fuel)%nat -> (5 < fuel')%nat ->
  turn_attempt E fuel userQuery w = turn_attempt E fuel' userQuery w.
Proof.
  intros H1 H2. unfold turn_attempt, bind.
  destruct (sendMessage E (MsgText userQuery) w) as [[r | e |] w1];
    try reflexivity.
  rewrite (function_call_loop_fuel fuel fuel') by (cbn; lia). reflexivity.
Qed.

Lemma attempt_body_fuel fuel fuel' retryCount userQuery w :
  (5 < fuel)%nat -> (5 < fuel')%nat ->
  attempt_body E fuel retryCount userQuery w =
  attempt_body E fuel' retryCount userQuery w.
Proof.
  intros H1 H2. unfold attempt_body, try_catch, bind.
  rewrite (turn_attempt_fuel fuel fuel') by assumption. reflexivity.
Qed.

Lemma retry_loop_inner fuel : forall inner inner' retryCount userQuery w,
  (5 < inner)%nat -> (5 < inner')%nat ->
  retry_loop E fuel inner retryCount userQuery w =
  retry_loop E fuel inner' retryCount userQuery w.
Proof.
  induction fuel as [| fuel IH]; intros inner inner' rc q w H1 H2;
    [reflexivity |].
  cbn [retry_loop]. destruct (rc <? maxRetries); [| reflexivity].
  unfold bind. rewrite (attempt_body_fuel inner inner') by assumption.
  destruct (attempt_body E inner' rc q w) as [[[rc' | r] | e |] w'];
    try reflexivity.
  apply IH; assumption.
Qed.

(** Above 5 units, [consultAgent] does the same whatever the fuel. *)
Lemma consultAgent_fuel fuel fuel' env userQuery w :
  (5 < fuel)%nat -> (5 < fuel')%nat ->
  consultAgent E fuel env userQuery w = consultAgent E fuel' env userQuery w.
Proof.
  intros H1 H2. unfold consultAgent.
  destruct (JS.or (API_KEY env) (GEMINI_API_KEY env)) as [key |];
    [| reflexivity].
  destruct (JS.truthy (Some key)); [| reflexivity].
  unfold bind at 1 3. unfold chats_create. unfold bind.
  rewrite (retry_loop_fuel fuel fuel') by (cbn; lia).
  rewrite (retry_loop_inner fuel' fuel fuel') by assumption. reflexivity.
Qed.

(** ** The tool results of one pass *)

Lemma count_occ_once (l : list string) (x : string) :
  NoDup l -> In x l -> count_occ string_dec l x = 1%nat.
Proof.
  intros Hnd Hin. apply (proj1 (NoDup_count_occ' string_dec l) Hnd x Hin).
Qed.

(** C1: for the calls of one model response, the [for] loop of
    [consultAgent] always completes and yields one function response per
    call, at the call's position and under the call's name and id; the
    response of a call whose invocation threw holds the error's message
    (this is what [answered] says), the other calls are answered all the
    same; when the ids are distinct, each id occurs exactly once among the
    responses; and the whole list goes back to the model in one message. *)
Theorem function_responses_pair_with_calls
    (iterations : Z) (calls : list FunctionCall) (w : World S) :
  exists rs w1,
    for_calls E calls [] w = (Ok rs, w1) /\
    answered E w calls rs w1 /\
    length rs = length calls /\
    map fr_id rs = map fc_id calls /\
    map fr_name rs = map fc_name calls /\
    (NoDup (map fc_id calls) ->
     forall call, In call calls ->
       count_occ string_dec (map fr_id rs) (fc_id call) = 1%nat) /\
    loop_body E iterations calls w =
    (response <- sendMessage E (MsgFunctionResponses rs) ;;
     ret (iterations + 1, response)) w1.
Proof.
  destruct (for_calls_answered calls [] w) as (rs & w1 & Hrun & Hans).
  destruct (answered_shape _ _ _ _ Hans) as (Hid & Hname & Hlen).
  exists rs, w1. repeat split; auto.
  - intros Hnd call Hin. rewrite Hid.
    apply count_occ_once; [exact Hnd | apply in_map; exact Hin].
  - apply loop_body_answered. exact Hans.
Qed.

(** ** The bound on the function-call loop *)

(** C2: whatever the model does, the function-call loop of one attempt
    comes to an end (with more than 5 units of fuel it never runs out),
    its counter is between 0 and 5 at every evaluation of the loop
    condition and when the loop is left, and against a model that asks
    for calls in every answer the loop is left with the counter at
    exactly 5, after 5 messages of function responses. *)
Theorem function_call_loop_at_most_5
    (fuel : nat) (response : GenerateContentResponse) (w : World S)
    (Hfuel : (5 < fuel)%nat) :
  fst (function_call_loop E fuel 0 response w) <> OutOfFuel /\
  (forall it r w',
      loop_visits E (0, response, w) (it, r, w') -> 0 <= it <= 5) /\
  (forall it r w',
      function_call_loop E fuel 0 response w = (Ok (it, r), w') ->
      0 <= it <= 5) /\
  (always_calls E -> functionCalls response <> None ->
   exists r w',
     function_call_loop E fuel 0 response w = (Ok (5, r), w') /\
     tool_replies (trace w') = (tool_replies (trace w) + 5)%nat).
Proof.
  split; [| split; [| split]].
  - apply function_call_loop_ends. cbn. lia.
  - intros it r w' Hv. apply loop_visits_counter in Hv. cbn in Hv. lia.
  - intros it r w' Hrun. apply function_call_loop_counter in Hrun. lia.
  - intros Hall Hcalls.
    destruct (function_call_loop_always fuel 0 response w Hall Hcalls)
      as (r & w' & Hrun & Htr); [lia | cbn; lia |].
    exists r, w'. split; [exact Hrun |]. rewrite Htr. reflexivity.
Qed.

(** ** Retrying *)

Lemma consultAgent_attempts fuel env userQuery w out w' :
  consultAgent E fuel env userQuery w = (out, w') ->
  (attempts (trace w') <= attempts (trace w) + 3)%nat.
Proof.
  unfold consultAgent.
  destruct (JS.or (API_KEY env) (GEMINI_API_KEY env)) as [key |];
    [| intros H; inversion H; subst; lia].
  destruct (JS.truthy (Some key)); [| intros H; inversion H; subst; lia].
  unfold bind at 1, chats_create.
  intros H. unfold bind in H.
  destruct (retry_loop E fuel fuel 0 userQuery (emit (EvCreateChat key) w))
    as [o w1] eqn:Hloop.
  apply retry_loop_attempts in Hloop; [| lia].
  unfold emit in Hloop. cbn [trace] in Hloop.
  rewrite attempts_app in Hloop. cbn in Hloop.
  destruct o as [[r |] | e |]; inversion H; subst; lia.
Qed.

(** C3: when the first two attempts fail with transient errors and the
    third succeeds, [consultAgent] returns the third attempt's answer as
    it is; the program has waited 2000 ms and then 4000 ms, and has made
    3 attempts.  In every run, the wait before retry number [a] is
    [2 ^ a] seconds, and at most 3 attempts are made. *)
Theorem transient_twice_then_success
    (fuel : nat) (env : ProcessEnv) (userQuery key : string) (w : World S)
    (e1 e2 : Error) (w1 w2 w3 : World S) (r : AgentResponse) :
  (2 < fuel)%nat ->
  JS.or (API_KEY env) (GEMINI_API_KEY env) = Some key ->
  JS.truthy (Some key) = true ->
  turn_attempt E fuel userQuery (after_create key w) = (Throw e1, w1) ->
  isTransient e1 = true ->
  turn_attempt E fuel userQuery (after_backoff E 1 e1 2000 w1)
    = (Throw e2, w2) ->
  isTransient e2 = true ->
  turn_attempt E fuel userQuery (after_backoff E 2 e2 4000 w2) = (Ok r, w3) ->
  consultAgent E fuel env userQuery w = (Ok r, w3) /\
  delays (trace w3) = delays (trace w) ++ [2000; 4000] /\
  attempts (trace w3) = (attempts (trace w) + 3)%nat /\
  (forall retryCount error v a v',
      on_error E retryCount error v = (Ok (Continue a), v') ->
      a = retryCount + 1 /\
      v' = after_backoff E a error (2 ^ a * 1000) v) /\
  (forall fuel' env' userQuery' v out v',
      consultAgent E fuel' env' userQuery' v = (out, v') ->
      (attempts (trace v') <= attempts (trace v) + 3)%nat).
Proof.
  intros Hfuel Hkey Htruthy H1 T1 H2 T2 H3.
  split; [| split; [| split; [| split]]].
  - rewrite (consultAgent_with_key _ _ _ _ _ Hkey Htruthy).
    rewrite (retry_loop_fuel fuel 3%nat) by (cbn; lia).
    rewrite retry_loop_last by (unfold maxRetries; lia).
    rewrite (attempt_body_throw _ _ _ _ _ _ H1).
    rewrite on_error_retry by (auto; unfold maxRetries; lia).
    change (0 + 1) with 1. change (2 ^ 1 * 1000) with 2000.
    rewrite retry_loop_last by (unfold maxRetries; lia).
    rewrite (attempt_body_throw _ _ _ _ _ _ H2).
    rewrite on_error_retry by (auto; unfold maxRetries; lia).
    change (1 + 1) with 2. change (2 ^ 2 * 1000) with 4000.
    rewrite retry_loop_last by (unfold maxRetries; lia).
    rewrite (attempt_body_ok _ _ _ _ _ _ H3). reflexivity.
  - apply turn_attempt_observed in H1, H2, H3.
    destruct H1 as [_ D1], H2 as [_ D2], H3 as [_ D3].
    rewrite D3. unfold after_backoff at 1. cbn [trace].
    rewrite delays_app, D2. unfold after_backoff at 1. cbn [trace].
    rewrite delays_app, D1. unfold after_create. cbn [trace].
    rewrite delays_app. cbn. rewrite app_nil_r, <- app_assoc. reflexivity.
  - apply turn_attempt_observed in H1, H2, H3.
    destruct H1 as [A1 _], H2 as [A2 _], H3 as [A3 _].
    rewrite A3. unfold after_backoff at 1. cbn [trace].
    rewrite attempts_app, A2. unfold after_backoff at 1. cbn [trace].
    rewrite attempts_app, A1. unfold after_create. cbn [trace].
    rewrite attempts_app. cbn. lia.
  - intros rc e v a v' Hc. apply on_error_continue in Hc. tauto.
  - intros fuel' env' q' v out v' Hrun.
    eapply consultAgent_attempts; exact Hrun.
Qed.

(** ** Failures that end the turn *)

Lemma consultAgent_returns_at_head fuel env userQuery w key retryCount w1 r w' :
  (2 < fuel)%nat ->
  JS.or (API_KEY env) (GEMINI_API_KEY env) = Some key ->
  JS.truthy (Some key) = true ->
  retry_visits E fuel userQuery (0, after_create key w) (retryCount, w1) ->
  attempt_body E fuel retryCount userQuery w1 = (Ok (Return r), w') ->
  consultAgent E fuel env userQuery w = (Ok r, w').
Proof.
  intros Hfuel Hkey Ht Hv Hb.
  rewrite (consultAgent_from_head _ _ _ _ _ _ _ Hkey Ht Hfuel Hv).
  apply retry_visits_counter in Hv. cbn [fst] in Hv.
  rewrite (retry_loop_fuel fuel 3%nat) by lia.
  rewrite retry_loop_last, Hb by (unfold maxRetries; lia). reflexivity.
Qed.

Lemma consultAgent_throws_at_head fuel env userQuery w key retryCount w1 e w' :
  (2 < fuel)%nat ->
  JS.or (API_KEY env) (GEMINI_API_KEY env) = Some key ->
  JS.truthy (Some key) = true ->
  retry_visits E fuel userQuery (0, after_create key w) (retryCount, w1) ->
  attempt_body E fuel retryCount userQuery w1 = (Throw e, w') ->
  consultAgent E fuel env userQuery w = (Throw e, w').
Proof.
  intros Hfuel Hkey Ht Hv Hb.
  rewrite (consultAgent_from_head _ _ _ _ _ _ _ Hkey Ht Hfuel Hv).
  apply retry_visits_counter in Hv. cbn [fst] in Hv.
  rewrite (retry_loop_fuel fuel 3%nat) by lia.
  rewrite retry_loop_last, Hb by (unfold maxRetries; lia). reflexivity.
Qed.

(** C4, as the code has it: an error of the last attempt (the one made
    with [retryCount = 2]) whose message contains "500" or "INTERNAL", and
    none of the quota and invalid-key markers, ends the turn with the
    internal-error answer; the error is logged and nothing else happens. *)
Theorem internal_error_on_last_attempt
    (fuel : nat) (env : ProcessEnv) (userQuery key : string)
    (w w1 w2 : World S) (error : Error) :
  (2 < fuel)%nat ->
  JS.or (API_KEY env) (GEMINI_API_KEY env) = Some key ->
  JS.truthy (Some key) = true ->
  retry_visits E fuel userQuery (0, after_create key w) (2, w1) ->
  turn_attempt E fuel userQuery w1 = (Throw error, w2) ->
  (message_includes error "500" || message_includes error "INTERNAL") = true ->
  (message_includes error "429" ||
   message_includes error "RESOURCE_EXHAUSTED") = false ->
  (message_includes error "API_KEY_INVALID" ||
   message_includes error "invalid API key") = false ->
  isTransient error = true /\
  consultAgent E fuel env userQuery w =
  (Ok internalErrorResponse, after_log 3 error w2).
Proof.
  intros Hfuel Hkey Ht Hv Hthrow Hint Hquota Hinvalid. split.
  - unfold isTransient. apply orb_true_iff in Hint.
    destruct Hint as [H | H]; rewrite H; cbn; rewrite ?orb_true_r; reflexivity.
  - eapply consultAgent_returns_at_head; eauto.
    rewrite (attempt_body_throw _ _ _ _ _ _ Hthrow).
    apply on_error_internal; auto. apply andb_false_r.
Qed.

(** C5, as the code has it: an error whose message contains "429" and
    which is not taken for a retry (its message has none of the transient
    markers, or the attempt is the last one) ends the turn with the
    quota-exhausted answer; the error is logged, there is no wait and no
    further attempt. *)
Theorem quota_error_ends_turn
    (fuel : nat) (env : ProcessEnv) (userQuery key : string)
    (w w1 w2 : World S) (retryCount : Z) (error : Error) :
  (2 < fuel)%nat ->
  JS.or (API_KEY env) (GEMINI_API_KEY env) = Some key ->
  JS.truthy (Some key) = true ->
  retry_visits E fuel userQuery (0, after_create key w) (retryCount, w1) ->
  turn_attempt E fuel userQuery w1 = (Throw error, w2) ->
  message_includes error "429" = true ->
  isTransient error = false \/ retryCount = maxRetries - 1 ->
  consultAgent E fuel env userQuery w =
  (Ok quotaExhaustedResponse, after_log (retryCount + 1) error w2).
Proof.
  intros Hfuel Hkey Ht Hv Hthrow Hq Hno.
  eapply consultAgent_returns_at_head; eauto.
  rewrite (attempt_body_throw _ _ _ _ _ _ Hthrow).
  apply on_error_quota.
  - destruct Hno as [Hno | Hno]; [rewrite Hno; reflexivity |].
    subst retryCount. apply andb_false_r.
  - rewrite Hq. reflexivity.
Qed.

(** C6, as the code has it: a failure that is not taken for a retry (it is
    not transient, or the attempt is the last one) and whose message holds
    none of the markers the handler knows is thrown again, out of
    [consultAgent], after being logged; no answer is returned for it. *)
Theorem unclassified_failure_is_rethrown
    (fuel : nat) (env : ProcessEnv) (userQuery key : string)
    (w w1 w2 : World S) (retryCount : Z) (error : Error) :
  (2 < fuel)%nat ->
  JS.or (API_KEY env) (GEMINI_API_KEY env) = Some key ->
  JS.truthy (Some key) = true ->
  retry_visits E fuel userQuery (0, after_create key w) (retryCount, w1) ->
  turn_attempt E fuel userQuery w1 = (Throw error, w2) ->
  isTransient error = false \/ retryCount = maxRetries - 1 ->
  (message_includes error "429" ||
   message_includes error "RESOURCE_EXHAUSTED") = false ->
  (message_includes error "API_KEY_INVALID" ||
   message_includes error "invalid API key") = false ->
  (message_includes error "500" || message_includes error "INTERNAL") = false ->
  consultAgent E fuel env userQuery w =
  (Throw error, after_log (retryCount + 1) error w2).
Proof.
  intros Hfuel Hkey Ht Hv Hthrow Hno Hquota Hinvalid Hint.
  eapply consultAgent_throws_at_head; eauto.
  rewrite (attempt_body_throw _ _ _ _ _ _ Hthrow).
  apply on_error_rethrow; auto.
  destruct Hno as [Hno | Hno]; [rewrite Hno; reflexivity |].
  subst retryCount. apply andb_false_r.
Qed.

(** ** The early return *)

(** C7: when neither [API_KEY] nor [GEMINI_API_KEY] holds a key (each is
    undefined or empty), [consultAgent] returns the missing-key answer
    and leaves the world as it found it: no chat is created, no message
    is sent, no tool is called. *)
Theorem missing_key_short_circuits
    (fuel : nat) (env : ProcessEnv) (userQuery : string) (w : World S) :
  JS.truthy (API_KEY env) = false ->
  JS.truthy (GEMINI_API_KEY env) = false ->
  consultAgent E fuel env userQuery w = (Ok missingKeyResponse, w).
Proof.
  intros H1 H2. apply consultAgent_no_key. unfold JS.or.
  rewrite H1. exact H2.
Qed.

(** ** The answer of a turn without tool calls *)

Lemma sources_of_citations response :
  sources_of response =
  match chunks_of response with
  | Some chunks => citations chunks
  | None => []
  end.
Proof.
  unfold sources_of. destruct (chunks_of response) as [chunks |]; [| reflexivity].
  induction chunks as [| chunk chunks IH]; cbn [filter citations map];
    [reflexivity |].
  unfold has_web at 1. destruct (web chunk) as [src |] eqn:Hw.
  - cbn [map]. unfold to_source at 1. rewrite Hw, IH. reflexivity.
  - exact IH.
Qed.

(** C8, as the code has it: when the first answer of the model holds no
    function calls, [consultAgent] returns after that one message; the
    text is the model's text when that is defined and not empty, and
    "Task completed." otherwise; the sources are the citations of the
    grounding chunks of the first candidate, in the model's order. *)
Theorem answer_without_tool_calls
    (fuel : nat) (env : ProcessEnv) (userQuery key : string) (w : World S)
    (response : GenerateContentResponse) (s : S) :
  (0 < fuel)%nat ->
  JS.or (API_KEY env) (GEMINI_API_KEY env) = Some key ->
  JS.truthy (Some key) = true ->
  env_sendMessage E (outside w) (MsgText userQuery) = (inl response, s) ->
  functionCalls response = None ->
  exists r,
    consultAgent E fuel env userQuery w =
    (Ok r, {| outside := s;
              trace := trace w ++
                       [EvCreateChat key; EvSendMessage (MsgText userQuery)] |}) /\
    (forall t, resp_text response = Some t -> t <> "" -> text r = t) /\
    (resp_text response = None \/ resp_text response = Some "" ->
     text r = "Task completed.") /\
    sources r = match chunks_of response with
                | Some chunks => citations chunks
                | None => []
                end.
Proof.
  intros Hfuel Hkey Ht Hsend Hcalls.
  exists (agentResponse_of response). split; [| split; [| split]].
  - rewrite (consultAgent_with_key _ _ _ _ _ Hkey Ht).
    destruct fuel as [| f]; [lia |].
    rewrite retry_loop_last by (unfold maxRetries; lia).
    assert (Hattempt :
              turn_attempt E (Datatypes.S f) userQuery (after_create key w) =
              (Ok (agentResponse_of response),
               {| outside := s;
                  trace := trace w ++
                           [EvCreateChat key;
                            EvSendMessage (MsgText userQuery)] |})).
    { unfold turn_attempt, bind, sendMessage, after_create. cbn [outside trace].
      rewrite Hsend. cbn. rewrite Hcalls. cbn.
      rewrite <- app_assoc. reflexivity. }
    rewrite (attempt_body_ok _ _ _ _ _ _ Hattempt). reflexivity.
  - intros t Htext Hne. cbn. unfold text_of. rewrite Htext.
    destruct t; [congruence | reflexivity].
  - intros [Htext | Htext]; cbn; unfold text_of; rewrite Htext; reflexivity.
  - cbn. apply sources_of_citations.
Qed.

(** ** The way out of the retry loop *)

Lemma consultAgent_ends fuel env userQuery w :
  (5 < fuel)%nat -> fst (consultAgent E fuel env userQuery w) <> OutOfFuel.
Proof.
  intros Hfuel. unfold consultAgent.
  destruct (JS.or (API_KEY env) (GEMINI_API_KEY env)) as [key |];
    [| cbn; discriminate].
  destruct (JS.truthy (Some key)); [| cbn; discriminate].
  unfold bind, chats_create.
  pose proof (retry_loop_ends fuel fuel 0 userQuery
                (emit (EvCreateChat key) w) Hfuel) as Hends.
  destruct (retry_loop E fuel fuel 0 userQuery _) as [[[r |] | e |] w'];
    cbn in *; try discriminate.
  exfalso. apply Hends; [lia | reflexivity].
Qed.

(** C9: from [retryCount = 0] the counter is between 0 and 2 at every
    evaluation of the loop condition, so the condition holds each time;
    the retry loop never leaves through its condition, whatever the fuel;
    a value [consultAgent] returns is the missing-key answer, given
    before the loop is entered, or the value of a [return] inside the loop
    body, and what it throws is thrown inside the loop body; the answer
    behind the loop is given in no run, and [consultAgent] comes to an
    end. *)
Theorem retry_loop_never_falls_through
    (inner : nat) (userQuery : string) (w0 : World S) :
  (forall retryCount w,
      retry_visits E inner userQuery (0, w0) (retryCount, w) ->
      0 <= retryCount <= 2 /\ (retryCount <? maxRetries) = true) /\
  (forall fuel, fst (retry_loop E fuel inner 0 userQuery w0) <> Ok None) /\
  (forall fuel env w r w',
      consultAgent E fuel env userQuery w = (Ok r, w') ->
      (JS.truthy (JS.or (API_KEY env) (GEMINI_API_KEY env)) = false /\
       r = missingKeyResponse /\ w' = w) \/
      (exists key,
          retry_loop E fuel fuel 0 userQuery (after_create key w) =
          (Ok (Some r), w'))) /\
  (forall fuel env w e w',
      consultAgent E fuel env userQuery w = (Throw e, w') ->
      exists key,
        retry_loop E fuel fuel 0 userQuery (after_create key w) =
        (Throw e, w')) /\
  (forall fuel env w,
      (5 < fuel)%nat -> fst (consultAgent E fuel env userQuery w) <> OutOfFuel).
Proof.
  split; [| split; [| split; [| split]]].
  - intros rc w Hv. apply retry_visits_counter in Hv. cbn [fst] in Hv.
    split; [lia |]. apply Z.ltb_lt. unfold maxRetries. lia.
  - intros fuel. apply retry_loop_stays. lia.
  - intros fuel env w r w' Hrun.
    destruct (JS.truthy (JS.or (API_KEY env) (GEMINI_API_KEY env))) eqn:Ht.
    + right.
      destruct (JS.or (API_KEY env) (GEMINI_API_KEY env)) as [key |] eqn:Hkey;
        [| discriminate].
      exists key. rewrite (consultAgent_with_key _ _ _ _ _ Hkey Ht) in Hrun.
      pose proof (retry_loop_stays fuel fuel 0 userQuery (after_create key w))
        as Hstay.
      destruct (retry_loop E fuel fuel 0 userQuery (after_create key w))
        as [[[r1 |] | e |] w1]; cbn in Hstay; try discriminate.
      * inversion Hrun; subst. reflexivity.
      * exfalso. apply Hstay; [lia | reflexivity].
    + left. rewrite (consultAgent_no_key _ _ _ _ Ht) in Hrun.
      inversion Hrun; subst. auto.
  - intros fuel env w e w' Hrun.
    destruct (JS.truthy (JS.or (API_KEY env) (GEMINI_API_KEY env))) eqn:Ht.
    + destruct (JS.or (API_KEY env) (GEMINI_API_KEY env)) as [key |] eqn:Hkey;
        [| discriminate].
      exists key. rewrite (consultAgent_with_key _ _ _ _ _ Hkey Ht) in Hrun.
      destruct (retry_loop E fuel fuel 0 userQuery (after_create key w))
        as [[[r1 |] | e1 |] w1]; try discriminate.
      inversion Hrun; subst. reflexivity.
    + rewrite (consultAgent_no_key _ _ _ _ Ht) in Hrun. discriminate.
  - intros fuel env w Hfuel. apply consultAgent_ends. exact Hfuel.
Qed.

(** ** Sources of the answers that report a failure *)

(** A value returned inside the loop body is the answer of an attempt
    that succeeded at a head the loop visited, or it has no sources. *)
Lemma retry_loop_returns fuel : forall inner retryCount userQuery w r w',
  retry_loop E fuel inner retryCount userQuery w = (Ok (Some r), w') ->
  sources r = [] \/
  exists rc1 w1,
    retry_visits E inner userQuery (retryCount, w) (rc1, w1) /\
    turn_attempt E inner userQuery w1 = (Ok r, w').
Proof.
  induction fuel as [| fuel IH]; intros inner rc q w r w' H; [discriminate |].
  cbn [retry_loop] in H.
  destruct (rc <? maxRetries) eqn:Hlt; [| discriminate].
  unfold bind in H.
  destruct (attempt_body_cases inner rc q w)
    as [(r1 & w1 & Ht & Hb) | [(e & w1 & Ht & Hb) | (w1 & Ht & Hb)]];
    rewrite Hb in H.
  - inversion H; subst. right. exists rc, w. split; [constructor | exact Ht].
  - destruct (on_error E rc e w1) as [[[rc' | r1] | e1 |] w2] eqn:Hh;
      try discriminate.
    + apply IH in H. destruct H as [H | (rc1 & w3 & Hv & Hok)]; [auto |].
      right. exists rc1, w3. split; [| exact Hok].
      eapply retry_visits_next; eauto.
    + inversion H; subst. left. apply on_error_return in Hh. tauto.
  - discriminate.
Qed.

(** C10: the missing-key, quota-exhausted, invalid-key and internal-error
    answers and the answer behind the loop have no sources; whatever the
    error handler returns has none; and an answer returned by
    [consultAgent] has none unless it is the answer of an attempt that
    succeeded. *)
Theorem failure_answers_have_no_sources :
  sources missingKeyResponse = [] /\
  sources quotaExhaustedResponse = [] /\
  sources invalidKeyResponse = [] /\
  sources internalErrorResponse = [] /\
  sources fallbackResponse = [] /\
  (forall retryCount error w r w',
      on_error E retryCount error w = (Ok (Return r), w') ->
      sources r = []) /\
  (forall fuel env userQuery w r w',
      consultAgent E fuel env userQuery w = (Ok r, w') ->
      sources r = [] \/
      exists key retryCount w1,
        retry_visits E fuel userQuery (0, after_create key w) (retryCount, w1) /\
        turn_attempt E fuel userQuery w1 = (Ok r, w')).
Proof.
  repeat (split; [reflexivity |]). split.
  - intros rc e w r w' H. apply on_error_return in H. tauto.
  - intros fuel env q w r w' Hrun.
    destruct (JS.truthy (JS.or (API_KEY env) (GEMINI_API_KEY env))) eqn:Ht.
    + destruct (JS.or (API_KEY env) (GEMINI_API_KEY env)) as [key |] eqn:Hkey;
        [| discriminate].
      rewrite (consultAgent_with_key _ _ _ _ _ Hkey Ht) in Hrun.
      destruct (retry_loop E fuel fuel 0 q (after_create key w))
        as [[[r1 |] | e |] w1] eqn:Hloop; try discriminate.
      * inversion Hrun; subst. apply retry_loop_returns in Hloop.
        destruct Hloop as [H | (rc1 & w2 & Hv & Hok)]; [auto |].
        right. exists key, rc1, w2. auto.
      * inversion Hrun; subst. left. reflexivity.
    + rewrite (consultAgent_no_key _ _ _ _ Ht) in Hrun.
      inversion Hrun; subst. left. reflexivity.
Qed.

(** * Further properties of [consultAgent] *)

(** ** The remaining answer of the error handler *)

(** X1: an error whose message names an invalid key, holds no quota
    marker, and is not taken for a retry ends the turn with the
    invalid-key answer; the error is logged, nothing else happens. *)
Theorem invalid_key_error_ends_turn
    (fuel : nat) (env : ProcessEnv) (userQuery key : string)
    (w w1 w2 : World S) (retryCount : Z) (error : Error) :
  (2 < fuel)%nat ->
  JS.or (API_KEY env) (GEMINI_API_KEY env) = Some key ->
  JS.truthy (Some key) = true ->
  retry_visits E fuel userQuery (0, after_create key w) (retryCount, w1) ->
  turn_attempt E fuel userQuery w1 = (Throw error, w2) ->
  (message_includes error "API_KEY_INVALID" ||
   message_includes error "invalid API key") = true ->
  (message_includes error "429" ||
   message_includes error "RESOURCE_EXHAUSTED") = false ->
  isTransient error = false \/ retryCount = maxRetries - 1 ->
  consultAgent E fuel env userQuery w =
  (Ok invalidKeyResponse, after_log (retryCount + 1) error w2).
Proof.
  intros Hfuel Hkey Ht Hv Hthrow Hinvalid Hquota Hno.
  eapply consultAgent_returns_at_head; eauto.
  rewrite (attempt_body_throw _ _ _ _ _ _ Hthrow).
  apply on_error_invalid_key; auto.
  destruct Hno as [Hno | Hno]; [rewrite Hno; reflexivity |].
  subst retryCount. apply andb_false_r.
Qed.

(** ** The schedule of the waits *)

Lemma on_error_no_wait retryCount error w out w' :
  on_error E retryCount error w = (out, w') ->
  (forall retryCount', out <> Ok (Continue retryCount')) ->
  delays (trace w') = delays (trace w).
Proof.
  unfold on_error, bind, console_error, setTimeout, ret, throw, emit.
  cbn beta iota.
  repeat match goal with
         | [ |- context [if ?b then _ else _] ] => destruct b
         end; intros H Hno; inversion H; subst; cbn [trace];
    rewrite ?delays_app; cbn; rewrite ?app_nil_r; try reflexivity.
  exfalso. eapply Hno. reflexivity.
Qed.

Lemma retry_loop_schedule fuel : forall inner retryCount userQuery w out w',
  0 <= retryCount <= 2 ->
  retry_loop E fuel inner retryCount userQuery w = (out, w') ->
  out <> OutOfFuel ->
  exists n,
    (n <= 2 - Z.to_nat retryCount)%nat /\
    delays (trace w') =
    delays (trace w) ++ firstn n (skipn (Z.to_nat retryCount) [2000; 4000]) /\
    attempts (trace w') = (attempts (trace w) + n + 1)%nat.
Proof.
  induction fuel as [| fuel IH]; intros inner rc q w out w' Hrc H Hout.
  - inversion H; subst. congruence.
  - rewrite retry_loop_last in H by (unfold maxRetries; lia).
    destruct (attempt_body_cases inner rc q w)
      as [(r & w1 & Ht & Hb) | [(e & w1 & Ht & Hb) | (w1 & Ht & Hb)]].
    + rewrite Hb in H. inversion H; subst.
      apply turn_attempt_observed in Ht. destruct Ht as [Ha Hd].
      exists 0%nat. cbn [firstn]. rewrite app_nil_r.
      repeat split; [lia | exact Hd | lia].
    + apply turn_attempt_observed in Ht. destruct Ht as [Ha Hd].
      rewrite Hb in H.
      destruct (on_error E rc e w1) as [[[rc' | r] | e' |] w2] eqn:Hh.
      * pose proof (on_error_continue _ _ _ _ _ Hh) as (Hrc' & Hlast & _ & Hw2).
        unfold maxRetries in Hlast.
        apply IH in H; [| lia | exact Hout].
        destruct H as (n & Hn & Hdel & Hatt).
        exists (Datatypes.S n). subst w2. unfold after_backoff in Hdel, Hatt.
        cbn [trace] in Hdel, Hatt.
        rewrite delays_app, Hd in Hdel. rewrite attempts_app, Ha in Hatt.
        change (attempts [EvConsoleError rc' e;
                          EvSetTimeout (2 ^ rc' * 1000)]) with 0%nat in Hatt.
        change (delays [EvConsoleError rc' e; EvSetTimeout (2 ^ rc' * 1000)])
          with [2 ^ rc' * 1000] in Hdel.
        rewrite <- app_assoc in Hdel.
        assert (Hcase : rc = 0 \/ rc = 1) by lia.
        destruct Hcase; subst rc rc'.
        -- change (Z.to_nat (0 + 1)) with 1%nat in Hn, Hdel.
           change (Z.to_nat 0) with 0%nat.
           split; [lia | split; [exact Hdel | lia]].
        -- change (Z.to_nat (1 + 1)) with 2%nat in Hn, Hdel.
           change (Z.to_nat 1) with 1%nat.
           split; [lia | split; [exact Hdel | lia]].
      * inversion H; subst.
        pose proof (on_error_observed _ _ _ _ _ Hh) as Ha'.
        apply on_error_no_wait in Hh; [| intros; discriminate].
        exists 0%nat. cbn [firstn]. rewrite app_nil_r.
        repeat split; [lia | congruence | lia].
      * inversion H; subst.
        pose proof (on_error_observed _ _ _ _ _ Hh) as Ha'.
        apply on_error_no_wait in Hh; [| intros; discriminate].
        exists 0%nat. cbn [firstn]. rewrite app_nil_r.
        repeat split; [lia | congruence | lia].
      * exfalso. apply (on_error_ends rc e w1). rewrite Hh. reflexivity.
    + rewrite Hb in H. inversion H; subst. congruence.
Qed.

(** X2: in every run that comes to an end with a key in place, the waits
    are the first [n] of 2000 ms and 4000 ms, where [n] is the number of
    retries, and the attempts are [n + 1]; so a turn never waits more
    than 6 seconds in total, and never waits after its last attempt. *)
Theorem backoff_schedule
    (fuel : nat) (env : ProcessEnv) (userQuery : string) (w w' : World S)
    (out : Outcome AgentResponse) :
  JS.truthy (JS.or (API_KEY env) (GEMINI_API_KEY env)) = true ->
  consultAgent E fuel env userQuery w = (out, w') ->
  out <> OutOfFuel ->
  exists n,
    (n <= 2)%nat /\
    delays (trace w') = delays (trace w) ++ firstn n [2000; 4000] /\
    attempts (trace w') = (attempts (trace w) + n + 1)%nat.
Proof.
  intros Ht Hrun Hout.
  destruct (JS.or (API_KEY env) (GEMINI_API_KEY env)) as [key |] eqn:Hkey;
    [| discriminate].
  rewrite (consultAgent_with_key _ _ _ _ _ Hkey Ht) in Hrun.
  destruct (retry_loop E fuel fuel 0 userQuery (after_create key w))
    as [o w1] eqn:Hloop.
  apply retry_loop_schedule in Hloop; [| lia |].
  - destruct Hloop as (n & Hn & Hdel & Hatt). exists n.
    unfold after_create in Hdel, Hatt. cbn [trace] in Hdel, Hatt.
    rewrite delays_app in Hdel. rewrite attempts_app in Hatt.
    cbn in Hdel, Hatt. rewrite app_nil_r in Hdel.
    assert (w' = w1) by (destruct o as [[r |] | e |]; congruence). subst w1.
    repeat split; [lia | exact Hdel | lia].
  - intros ->. apply Hout. congruence.
Qed.

(** ** The number of messages to the model *)

Lemma model_messages_split tr :
  model_messages tr = (attempts tr + tool_replies tr)%nat.
Proof.
  unfold model_messages, attempts, tool_replies.
  induction tr as [| ev tr IH]; [reflexivity |].
  destruct ev as [| [|] | | | |]; cbn; lia.
Qed.

Lemma function_call_loop_replies fuel : forall iterations response w out w',
  0 <= iterations ->
  function_call_loop E fuel iterations response w = (out, w') ->
  (tool_replies (trace w') <=
   tool_replies (trace w) + Z.to_nat (5 - iterations))%nat.
Proof.
  induction fuel as [| fuel IH]; intros it r w out w' Hit H.
  - inversion H; subst. lia.
  - cbn [function_call_loop] in H.
    destruct (functionCalls r) as [calls |]; [| inversion H; subst; lia].
    destruct (it <? 5) eqn:Hlt; [| inversion H; subst; lia].
    apply Z.ltb_lt in Hlt. unfold bind in H.
    destruct (loop_body E it calls w) as [o w1] eqn:Hb.
    pose proof (proj2 (loop_body_trace _ _ _ _ _ Hb)) as Hone.
    destruct o as [[it1 r1] | e |]; try (inversion H; subst; lia).
    apply loop_body_counter in Hb. cbn [fst snd] in H.
    apply IH in H; lia.
Qed.

Lemma turn_attempt_replies fuel userQuery w out w' :
  turn_attempt E fuel userQuery w = (out, w') ->
  (tool_replies (trace w') <= tool_replies (trace w) + 5)%nat.
Proof.
  intros H. unfold turn_attempt, bind in H.
  destruct (sendMessage E (MsgText userQuery) w) as [[r | e |] w1] eqn:Hs;
    pose proof (sendMessage_trace _ _ _ _ Hs) as Hq;
    assert (Hsame : tool_replies (trace w1) = tool_replies (trace w))
      by (rewrite Hq, tool_replies_app; cbn; lia).
  - destruct (function_call_loop E fuel 0 r w1) as [o w2] eqn:Hloop.
    apply function_call_loop_replies in Hloop; [| lia].
    change (Z.to_nat (5 - 0)) with 5%nat in Hloop.
    destruct o as [st | e |]; inversion H; subst; lia.
  - inversion H; subst. lia.
  - inversion H; subst. lia.
Qed.

Lemma on_error_replies retryCount error w out w' :
  on_error E retryCount error w = (out, w') ->
  tool_replies (trace w') = tool_replies (trace w).
Proof.
  unfold on_error, bind, console_error, setTimeout, ret, throw, emit.
  cbn beta iota.
  repeat match goal with
         | [ |- context [if ?b then _ else _] ] => destruct b
         end; intros H; inversion H; subst; cbn [trace];
    rewrite ?tool_replies_app; cbn; lia.
Qed.

Lemma attempt_body_replies inner retryCount userQuery w out w' :
  attempt_body E inner retryCount userQuery w = (out, w') ->
  (tool_replies (trace w') <= tool_replies (trace w) + 5)%nat.
Proof.
  destruct (attempt_body_cases inner retryCount userQuery w)
    as [(r & w1 & Ht & Hb) | [(e & w1 & Ht & Hb) | (w1 & Ht & Hb)]];
    rewrite Hb; intros H; apply turn_attempt_replies in Ht.
  - inversion H; subst. exact Ht.
  - apply on_error_replies in H. lia.
  - inversion H; subst. exact Ht.
Qed.

Lemma retry_loop_replies fuel : forall inner retryCount userQuery w out w',
  0 <= retryCount ->
  retry_loop E fuel inner retryCount userQuery w = (out, w') ->
  (tool_replies (trace w') <=
   tool_replies (trace w) + 5 * Z.to_nat (3 - retryCount))%nat.
Proof.
  induction fuel as [| fuel IH]; intros inner rc q w out w' Hrc H.
  - inversion H; subst. lia.
  - cbn [retry_loop] in H.
    destruct (rc <? maxRetries) eqn:Hlt; [| inversion H; subst; lia].
    apply Z.ltb_lt in Hlt. unfold maxRetries in Hlt.
    unfold bind in H.
    destruct (attempt_body E inner rc q w) as [o w1] eqn:Hb.
    pose proof (attempt_body_replies _ _ _ _ _ _ Hb) as Hfive.
    destruct o as [[rc' | r] | e |]; try (inversion H; subst; lia).
    apply attempt_body_continue in Hb. apply IH in H; lia.
Qed.

(** X3: one call of [consultAgent] sends at most 18 messages to the
    model: at most 3 that carry the query, and at most 15 that carry
    function responses (5 per attempt). *)
Theorem at_most_18_model_messages
    (fuel : nat) (env : ProcessEnv) (userQuery : string) (w w' : World S)
    (out : Outcome AgentResponse) :
  consultAgent E fuel env userQuery w = (out, w') ->
  (tool_replies (trace w') <= tool_replies (trace w) + 15)%nat /\
  (model_messages (trace w') <= model_messages (trace w) + 18)%nat.
Proof.
  intros Hrun.
  pose proof (consultAgent_attempts _ _ _ _ _ _ Hrun) as Hatt.
  assert (Hrep : (tool_replies (trace w') <= tool_replies (trace w) + 15)%nat).
  { unfold consultAgent in Hrun.
    destruct (JS.or (API_KEY env) (GEMINI_API_KEY env)) as [key |];
      [| inversion Hrun; subst; lia].
    destruct (JS.truthy (Some key)); [| inversion Hrun; subst; lia].
    unfold bind at 1, chats_create in Hrun. unfold bind in Hrun.
    destruct (retry_loop E fuel fuel 0 userQuery (emit (EvCreateChat key) w))
      as [o w1] eqn:Hloop.
    apply retry_loop_replies in Hloop; [| lia].
    unfold emit in Hloop. cbn [trace] in Hloop.
    rewrite tool_replies_app in Hloop. cbn in Hloop.
    destruct o as [[r |] | e |]; inversion Hrun; subst; lia. }
  split; [exact Hrep |]. rewrite !model_messages_split. lia.
Qed.

(** ** The requests of the tool calls *)

Lemma fetches_app a b : fetches (a ++ b) = fetches a ++ fetches b.
Proof.
  induction a as [| ev a IH]; cbn; [reflexivity |].
  destruct ev; cbn; rewrite IH; reflexivity.
Qed.

Lemma json_reads_app a b : json_reads (a ++ b) = json_reads a ++ json_reads b.
Proof.
  induction a as [| ev a IH]; cbn; [reflexivity |].
  destruct ev; cbn; rewrite IH; reflexivity.
Qed.

Lemma invoke_requests call w out w' :
  invoke E call w = (out, w') ->
  fetches (trace w') = fetches (trace w) ++ [request_of call] /\
  (length (json_reads (trace w')) <= length (json_reads (trace w)) + 1)%nat.
Proof.
  unfold invoke, bind, fetch, res_json.
  destruct (env_fetch E (outside w) _) as [[res | e] s]; cbn.
  - destruct (env_json E s res) as [r s']. intros H. inversion H; subst.
    cbn [trace]. rewrite !fetches_app, !json_reads_app, !length_app. cbn.
    rewrite app_nil_r. split; [reflexivity | lia].
  - intros H. inversion H; subst. cbn [trace].
    rewrite fetches_app, json_reads_app, length_app. cbn.
    split; [reflexivity | lia].
Qed.

Lemma answered_requests w calls rs w' :
  answered E w calls rs w' ->
  fetches (trace w') = fetches (trace w) ++ map request_of calls /\
  (length (json_reads (trace w')) <=
   length (json_reads (trace w)) + length calls)%nat.
Proof.
  induction 1 as [| ? ? ? ? ? ? ? Hinv _ IH | ? ? ? ? ? ? ? Hinv _ IH].
  - cbn. rewrite app_nil_r. split; [reflexivity | lia].
  - apply invoke_requests in Hinv. destruct Hinv as [Hf Hj], IH as [IHf IHj].
    rewrite IHf, Hf, <- app_assoc. cbn. split; [reflexivity | lia].
  - apply invoke_requests in Hinv. destruct Hinv as [Hf Hj], IH as [IHf IHj].
    rewrite IHf, Hf, <- app_assoc. cbn. split; [reflexivity | lia].
Qed.

(** X4: one pass over the calls of a response posts exactly one request
    per call to the tool endpoint, in the order of the calls, each with
    the call's name and arguments, and decodes at most one response per
    call. *)
Theorem one_request_per_call
    (calls : list FunctionCall) (acc : list FunctionResponse)
    (w w' : World S) (out : Outcome (list FunctionResponse)) :
  for_calls E calls acc w = (out, w') ->
  fetches (trace w') = fetches (trace w) ++ map request_of calls /\
  (length (json_reads (trace w')) <=
   length (json_reads (trace w)) + length calls)%nat.
Proof.
  intros Hrun.
  destruct (for_calls_answered calls acc w) as (rs & w1 & Hrun' & Hans).
  rewrite Hrun' in Hrun. inversion Hrun; subst.
  eapply answered_requests. exact Hans.
Qed.

(** ** The cap of the function-call loop *)

Lemma loop_body_reply iterations calls w iterations' response w' :
  loop_body E iterations calls w = (Ok (iterations', response), w') ->
  exists rs w1,
    answered E w calls rs w1 /\
    sendMessage E (MsgFunctionResponses rs) w1 = (Ok response, w').
Proof.
  intros H.
  destruct (for_calls_answered calls [] w) as (rs & w1 & _ & Hans).
  rewrite (loop_body_answered _ _ _ _ _ Hans) in H.
  exists rs, w1. split; [exact Hans |].
  unfold bind in H.
  destruct (sendMessage E (MsgFunctionResponses rs) w1) as [[r | e |] w2];
    inversion H; subst; reflexivity.
Qed.

Lemma function_call_loop_always_last fuel : forall iterations response w,
  always_calls E ->
  functionCalls response <> None ->
  0 <= iterations < 5 ->
  (Z.to_nat (5 - iterations) < fuel)%nat ->
  exists rs w1 r w',
    function_call_loop E fuel iterations response w = (Ok (5, r), w') /\
    sendMessage E (MsgFunctionResponses rs) w1 = (Ok r, w') /\
    functionCalls r <> None.
Proof.
  induction fuel as [| fuel IH]; intros it response w Hall Hc Hit Hfuel;
    [lia |].
  cbn [function_call_loop].
  destruct (functionCalls response) as [calls |] eqn:Hcalls; [| congruence].
  assert (Hlt : (it <? 5) = true) by (apply Z.ltb_lt; lia). rewrite Hlt.
  destruct (loop_body_always it calls w Hall) as (r1 & w1 & Hb & Hc1).
  rewrite (bind_ok _ _ _ _ _ Hb). cbn [fst snd].
  destruct (Z.eq_dec (it + 1) 5) as [Hfive | Hless].
  - destruct (loop_body_reply _ _ _ _ _ _ Hb) as (rs & wa & _ & Hsend).
    exists rs, wa, r1, w1. rewrite Hfive.
    destruct fuel as [| fuel]; [lia |]. cbn [function_call_loop].
    destruct (functionCalls r1); [| congruence].
    change (5 <? 5) with false. cbn. auto.
  - apply IH; auto; lia.
Qed.

Lemma sendMessage_always m w :
  always_calls E ->
  exists r w', sendMessage E m w = (Ok r, w') /\ functionCalls r <> None.
Proof.
  intros Hall. pose proof (Hall (outside w) m) as Hnext.
  unfold sendMessage.
  destruct (env_sendMessage E (outside w) m) as [[r | e] s];
    cbn in Hnext |- *; [eauto | contradiction].
Qed.

(** X5: against a model that asks for calls in every answer, an attempt
    succeeds with the sixth answer of the model: the attempt ends in the
    world in which that answer arrived, so the calls it asks for are not
    carried out, and what is returned is made from that answer alone. *)
Theorem calls_beyond_the_cap_are_dropped
    (fuel : nat) (userQuery : string) (w : World S) :
  (5 < fuel)%nat ->
  always_calls E ->
  exists rs w1 r w',
    turn_attempt E fuel userQuery w = (Ok (agentResponse_of r), w') /\
    sendMessage E (MsgFunctionResponses rs) w1 = (Ok r, w') /\
    functionCalls r <> None /\
    model_messages (trace w') = (model_messages (trace w) + 6)%nat.
Proof.
  intros Hfuel Hall.
  destruct (sendMessage_always (MsgText userQuery) w Hall)
    as (r0 & w0 & Hs & Hfirst).
  destruct (function_call_loop_always_last fuel 0 r0 w0 Hall Hfirst)
    as (rs & w1 & r & w' & Hloop & Hsend & Hcalls); [lia | cbn; lia |].
  destruct (function_call_loop_always fuel 0 r0 w0 Hall Hfirst)
    as (r' & w'' & Hloop' & Hcount); [lia | cbn; lia |].
  rewrite Hloop in Hloop'. inversion Hloop'; subst r' w''.
  assert (Hrun : turn_attempt E fuel userQuery w =
                 (Ok (agentResponse_of r), w')).
  { unfold turn_attempt. rewrite (bind_ok _ _ _ _ _ Hs).
    rewrite (bind_ok _ _ _ _ _ Hloop). reflexivity. }
  exists rs, w1, r, w'. repeat split; auto.
  apply sendMessage_trace in Hs.
  apply turn_attempt_observed in Hrun. destruct Hrun as [Hatt _].
  rewrite !model_messages_split, Hatt, Hcount, Hs, tool_replies_app.
  cbn. lia.
Qed.

(** ** The key and the chat *)

Lemma handler_event_not_create ev :
  is_handler_event ev = true -> not_create ev = true.
Proof. destruct ev; cbn; congruence. Qed.

Lemma round_trip_not_create ev :
  is_round_trip ev = true -> not_create ev = true.
Proof. destruct ev as [| [|] | | | |]; cbn; congruence. Qed.

Lemma turn_attempt_no_create fuel userQuery w out w' :
  turn_attempt E fuel userQuery w = (out, w') -> grows_by not_create w w'.
Proof.
  intros H. destruct (turn_attempt_trace _ _ _ _ _ H) as (d & Hd & Fd).
  exists (EvSendMessage (MsgText userQuery) :: d). split; [exact Hd |].
  cbn. rewrite forallb_forall in *. intros ev Hin.
  apply round_trip_not_create. auto.
Qed.

Lemma on_error_no_create retryCount error w out w' :
  on_error E retryCount error w = (out, w') -> grows_by not_create w w'.
Proof.
  unfold on_error, bind, console_error, setTimeout, ret, throw, emit.
  cbn beta iota.
  repeat match goal with
         | [ |- context [if ?b then _ else _] ] => destruct b
         end; intros H; inversion H; subst; cbn [trace];
    rewrite <- ?app_assoc; eexists; (split; [reflexivity | reflexivity]).
Qed.

Lemma attempt_body_no_create inner retryCount userQuery w out w' :
  attempt_body E inner retryCount userQuery w = (out, w') ->
  grows_by not_create w w'.
Proof.
  destruct (attempt_body_cases inner retryCount userQuery w)
    as [(r & w1 & Ht & Hb) | [(e & w1 & Ht & Hb) | (w1 & Ht & Hb)]];
    rewrite Hb; intros H; apply turn_attempt_no_create in Ht.
  - inversion H; subst. exact Ht.
  - apply on_error_no_create in H. eapply grows_by_trans; eassumption.
  - inversion H; subst. exact Ht.
Qed.

Lemma retry_loop_no_create fuel : forall inner retryCount userQuery w out w',
  retry_loop E fuel inner retryCount userQuery w = (out, w') ->
  grows_by not_create w w'.
Proof.
  induction fuel as [| fuel IH]; intros inner rc q w out w' H.
  - inversion H; subst. apply grows_by_refl.
  - cbn [retry_loop] in H.
    destruct (rc <? maxRetries); [| inversion H; subst; apply grows_by_refl].
    unfold bind in H.
    destruct (attempt_body E inner rc q w) as [o w1] eqn:Hb.
    apply attempt_body_no_create in Hb.
    destruct o as [[rc' | r] | e |]; try (inversion H; subst; exact Hb).
    apply IH in H. eapply grows_by_trans; eassumption.
Qed.

(** X6: with a key in place, the first thing [consultAgent] does is to
    create one chat, with [API_KEY] when that is set and not empty and
    with [GEMINI_API_KEY] otherwise; no other chat is created afterwards,
    so every attempt of the turn talks to the same chat. *)
Theorem one_chat_per_turn
    (fuel : nat) (env : ProcessEnv) (userQuery : string) (w w' : World S)
    (out : Outcome AgentResponse) :
  JS.truthy (JS.or (API_KEY env) (GEMINI_API_KEY env)) = true ->
  consultAgent E fuel env userQuery w = (out, w') ->
  exists key d,
    (if JS.truthy (API_KEY env)
     then API_KEY env = Some key
     else GEMINI_API_KEY env = Some key) /\
    trace w' = trace w ++ EvCreateChat key :: d /\
    forallb not_create d = true.
Proof.
  intros Ht Hrun.
  destruct (JS.or (API_KEY env) (GEMINI_API_KEY env)) as [key |] eqn:Hkey;
    [| discriminate].
  rewrite (consultAgent_with_key _ _ _ _ _ Hkey Ht) in Hrun.
  destruct (retry_loop E fuel fuel 0 userQuery (after_create key w))
    as [o w1] eqn:Hloop.
  apply retry_loop_no_create in Hloop. destruct Hloop as (d & Hd & Fd).
  assert (w' = w1) by (destruct o as [[r |] | e |]; congruence). subst w1.
  exists key, d. split; [| split; [| exact Fd]].
  - unfold JS.or in Hkey. destruct (JS.truthy (API_KEY env)); exact Hkey.
  - rewrite Hd. unfold after_create. cbn [trace].
    rewrite <- app_assoc. reflexivity.
Qed.

End Proofs.

(** * The encoding of a mail *)

Section Encoding.

Lemma byte_range a : 0 <= Base64.byte a < 256.
Proof.
  unfold Base64.byte. pose proof (N_ascii_bounded a). lia.
Qed.

Lemma chr_byte a : Base64Url.chr (Base64.byte a) = a.
Proof.
  unfold Base64Url.chr, Base64.byte. rewrite N2Z.id. apply ascii_N_embedding.
Qed.

Lemma sextet_in n : 0 <= n < 64 -> In n Base64Url.sextets.
Proof.
  intros H. unfold Base64Url.sextets. apply in_map_iff.
  exists (Z.to_nat n). split; [lia | apply in_seq; lia].
Qed.

(** The facts about the 64 digits, each checked on all of them. *)
Lemma digit_facts n :
  0 <= n < 64 ->
  (let c := Base64.digit n in
   let c' := if Ascii.eqb c "+" then "-"%char else c in
   (if Ascii.eqb c' "/" then "_"%char else c') = Base64Url.digit n) /\
  Ascii.eqb (Base64Url.digit n) "=" = false /\
  Base64Url.value (Base64Url.digit n) = Some n.
Proof.
  intros H. apply sextet_in in H. revert n H. apply Forall_forall.
  unfold Base64Url.sextets. cbn [seq map].
  repeat (constructor; [vm_compute; auto |]). constructor.
Qed.

Lemma url_digit_is_digit n :
  0 <= n < 64 -> Base64Url.is_digit (Base64Url.digit n) = true.
Proof.
  intros H. unfold Base64Url.is_digit.
  destruct (digit_facts n H) as (_ & _ & Hv). rewrite Hv. reflexivity.
Qed.

Lemma strip_padding_cons c s :
  Ascii.eqb c "=" = false ->
  Server.strip_padding (String c s) = String c (Server.strip_padding s).
Proof.
  intros H. cbn [Server.strip_padding].
  destruct (Server.strip_padding s); [rewrite H |]; reflexivity.
Qed.

Lemma url_safe_digit n s :
  0 <= n < 64 ->
  Server.url_safe (String (Base64.digit n) s) =
  String (Base64Url.digit n) (Server.url_safe s).
Proof.
  intros H. destruct (digit_facts n H) as (Hd & Hne & _).
  unfold Server.url_safe. cbn [Server.replace_all].
  cbv zeta in Hd. rewrite Hd. apply strip_padding_cons. exact Hne.
Qed.

Lemma list_ind3 {A} (Q : list A -> Prop) :
  Q [] -> (forall a, Q [a]) -> (forall a b, Q [a; b]) ->
  (forall a b c l, Q l -> Q (a :: b :: c :: l)) ->
  forall l, Q l.
Proof.
  intros H0 H1 H2 H3.
  fix IH 1.
  intros [| a [| b [| c l]]];
    [exact H0 | apply H1 | apply H2 | apply H3; apply IH].
Qed.

Ltac sextet_bounds :=
  repeat match goal with
         | [ a : ascii |- _ ] =>
             lazymatch goal with
             | [ _ : 0 <= Base64.byte a < 256 |- _ ] => fail
             | _ => pose proof (byte_range a)
             end
         end.

(** The three [replace] calls turn base 64 into unpadded URL-safe base 64. *)
Lemma url_safe_encode bytes :
  Server.url_safe (Base64.encode bytes) = Base64Url.encode bytes.
Proof.
  induction bytes as [| a | a b | a b c l IH] using list_ind3;
    cbn [Base64.encode Base64Url.encode]; cbv zeta; sextet_bounds.
  - reflexivity.
  - rewrite !url_safe_digit by (Z.div_mod_to_equations; lia). reflexivity.
  - rewrite !url_safe_digit by (Z.div_mod_to_equations; lia). reflexivity.
  - rewrite !url_safe_digit by (Z.div_mod_to_equations; lia).
    rewrite IH. reflexivity.
Qed.

Lemma encode_all_digits bytes :
  Base64Url.all_digits (Base64Url.encode bytes) = true.
Proof.
  induction bytes as [| a | a b | a b c l IH] using list_ind3;
    cbn [Base64Url.encode Base64Url.all_digits]; cbv zeta; sextet_bounds.
  - reflexivity.
  - rewrite !url_digit_is_digit by (Z.div_mod_to_equations; lia). reflexivity.
  - rewrite !url_digit_is_digit by (Z.div_mod_to_equations; lia). reflexivity.
  - rewrite !url_digit_is_digit by (Z.div_mod_to_equations; lia).
    rewrite IH. reflexivity.
Qed.

Lemma value_digit n : 0 <= n < 64 -> Base64Url.value (Base64Url.digit n) = Some n.
Proof. intros H. apply (digit_facts n H). Qed.

Lemma chr_eq a n : n = Base64.byte a -> Base64Url.chr n = a.
Proof. intros ->. apply chr_byte. Qed.

Lemma decode_encode bytes :
  Base64Url.decode (Base64Url.encode bytes) = Some bytes.
Proof.
  induction bytes as [| a | a b | a b c l IH] using list_ind3;
    cbn [Base64Url.encode Base64Url.decode]; cbv zeta; sextet_bounds.
  - reflexivity.
  - rewrite !value_digit by (Z.div_mod_to_equations; lia).
    f_equal. f_equal. apply chr_eq. Z.div_mod_to_equations; lia.
  - rewrite !value_digit by (Z.div_mod_to_equations; lia).
    f_equal. f_equal; [| f_equal]; apply chr_eq; Z.div_mod_to_equations; lia.
  - rewrite !value_digit by (Z.div_mod_to_equations; lia). rewrite IH.
    f_equal. f_equal; [| f_equal; [| f_equal]]; apply chr_eq;
      Z.div_mod_to_equations; lia.
Qed.

Lemma occurs_strip_padding c s :
  occurs c (Server.strip_padding s) = true -> occurs c s = true.
Proof.
  induction s as [| d s IH]; cbn [Server.strip_padding occurs]; [auto |].
  destruct (Server.strip_padding s) as [| k kept] eqn:Hs.
  - destruct (Ascii.eqb d "="); cbn; [discriminate |].
    rewrite orb_false_r. intros ->. reflexivity.
  - cbn [occurs]. intros H. apply orb_true_iff in H.
    destruct H as [H | H]; [rewrite H; reflexivity |].
    rewrite IH by exact H. apply orb_true_r.
Qed.

Lemma occurs_replace_all from to s :
  from <> to -> occurs from (Server.replace_all from to s) = false.
Proof.
  intros Hne. induction s as [| d s IH]; cbn; [reflexivity |].
  rewrite IH, orb_false_r.
  destruct (Ascii.eqb_spec d from) as [-> | Hd].
  - apply Ascii.eqb_neq. exact Hne.
  - apply Ascii.eqb_neq. congruence.
Qed.

Lemma occurs_replace_other c from to s :
  c <> to ->
  occurs c (Server.replace_all from to s) = true -> occurs c s = true.
Proof.
  intros Hne. induction s as [| d s IH]; cbn; [auto |].
  intros H. apply orb_true_iff in H. destruct H as [H | H].
  - destruct (Ascii.eqb d from).
    + apply Ascii.eqb_eq in H. contradiction.
    + rewrite H. reflexivity.
  - rewrite IH by exact H. apply orb_true_r.
Qed.

Lemma last_char_strip_padding s :
  last_char (Server.strip_padding s) <> Some "="%char.
Proof.
  induction s as [| d s IH]; cbn [Server.strip_padding]; [discriminate |].
  destruct (Server.strip_padding s) as [| k kept] eqn:Hs.
  - destruct (Ascii.eqb_spec d "=") as [-> | Hd]; cbn; congruence.
  - cbn [last_char] in *. exact IH.
Qed.

(** X7: whatever text goes through the three [replace] calls, the result
    holds no [+] and no [/], and does not end in [=]. *)
Theorem url_safe_has_no_unsafe_character (s : string) :
  occurs "+" (Server.url_safe s) = false /\
  occurs "/" (Server.url_safe s) = false /\
  last_char (Server.url_safe s) <> Some "="%char.
Proof.
  unfold Server.url_safe. split; [| split].
  - destruct (occurs "+" _) eqn:H; [| reflexivity].
    apply occurs_strip_padding in H.
    apply occurs_replace_other in H; [| discriminate].
    rewrite occurs_replace_all in H by discriminate. discriminate.
  - destruct (occurs "/" _) eqn:H; [| reflexivity].
    apply occurs_strip_padding in H.
    rewrite occurs_replace_all in H by discriminate. discriminate.
  - apply last_char_strip_padding.
Qed.

(** X8: the text sent to Gmail for a mail is made of the 64 URL-safe
    digits only, and it loses nothing: decoding it as unpadded URL-safe
    base 64 gives back the bytes of the message. *)
Theorem encoded_message_round_trip (to subject body : Dyn.Value) :
  Base64Url.all_digits (Server.encodedMessage to subject body) = true /\
  Base64Url.decode (Server.encodedMessage to subject body) =
  Some (list_ascii_of_string (Server.mail_message to subject body)).
Proof.
  unfold Server.encodedMessage, Base64.of_string.
  rewrite url_safe_encode. split.
  - apply encode_all_digits.
  - apply decode_encode.
Qed.

End Encoding.

(** * The tool endpoint *)

Section ToolEndpoint.

Context {X : Type} (N : Server.Net X).

Ltac handler_unfold :=
  unfold Server.tools_execute, Server.list_github_repos,
    Server.create_github_issue, Server.send_gmail,
    Server.and_then, Server.catch, Server.lift, Server.pure, Server.raise,
    Server.get_connection, Server.fetch, Server.response_json,
    Server.console_error in *.

(** Case analysis on the innermost scrutinee, until none is left. *)
Ltac case_step :=
  match goal with
  | [ |- context [match ?x with _ => _ end] ] =>
      lazymatch x with
      | context [match _ with _ => _ end] => fail
      | _ => destruct x eqn:?
      end
  end.

Ltac case_all := cbn beta; repeat (case_step; cbn beta iota).

(** The tests on the tool's name, and the projections of a state. *)
Ltac step :=
  repeat match goal with
         | [ |- context [Dyn.is_string (Dyn.str ?a) ?b] ] =>
             let v := eval vm_compute in (Dyn.is_string (Dyn.str a) b) in
             change (Dyn.is_string (Dyn.str a) b) with v
         end;
  cbn beta iota;
  cbn [Server.db Server.outbox Server.console Server.outer].

Lemma is_string_true v s : Dyn.is_string v s = true <-> v = Dyn.str s.
Proof.
  unfold Dyn.is_string, Dyn.str. split.
  - destruct v as [[| | | t | |] |]; try discriminate.
    intros H. apply String.eqb_eq in H. subst. reflexivity.
  - intros ->. apply String.eqb_refl.
Qed.

Lemma get_not_null body k :
  body <> JNull -> Dyn.get (Some body) k = inl (ServerRef.prop body k).
Proof. destruct body; try reflexivity. congruence. Qed.

Lemma get_inl_not_null body k v :
  Dyn.get (Some body) k = inl v -> body <> JNull /\ v = ServerRef.prop body k.
Proof. destruct body; cbn; intros H; inversion H; split; congruence. Qed.

Lemma declared_spec tool :
  ServerRef.declared tool = false <->
  forall d, In d Server.tools -> tool <> Dyn.str (Server.decl_name d).
Proof.
  unfold ServerRef.declared. split.
  - intros H d Hin Heq.
    assert (Ht : existsb (fun d => Dyn.is_string tool (Server.decl_name d))
                   Server.tools = true).
    { apply existsb_exists. exists d. split; [exact Hin |].
      apply is_string_true. exact Heq. }
    congruence.
  - intros H.
    destruct (existsb _ Server.tools) eqn:Hex; [| reflexivity].
    apply existsb_exists in Hex. destruct Hex as (d & Hin & Hd).
    apply is_string_true in Hd. exfalso. exact (H d Hin Hd).
Qed.

(** What the endpoint answers, by whether the tool is a declared one. *)
Lemma tools_execute_status body st :
  body <> JNull ->
  exists reply st',
    Server.tools_execute N body st = (inl reply, st') /\
    Server.db st' = Server.db st /\
    (if ServerRef.declared (ServerRef.prop body "tool")
     then In (Server.reply_status reply) [200; 400; 500]
     else reply = Server.status_json 404
                    (Server.error_object (Dyn.str "Tool not found")) /\
          st' = st).
Proof.
  intros Hbody. handler_unfold.
  rewrite !(get_not_null body _ Hbody). unfold ServerRef.declared. cbn [existsb Server.tools
    Server.decl_name].
  destruct (Dyn.is_string (ServerRef.prop body "tool") "list_github_repos");
    [| destruct (Dyn.is_string (ServerRef.prop body "tool") "create_github_issue");
       [| destruct (Dyn.is_string (ServerRef.prop body "tool") "send_gmail")]];
    cbn [orb];
    case_all; eexists; eexists; (split; [reflexivity |]); cbn; auto 10.
Qed.

(** X9: a request to the tool endpoint whose body is not [null] always
    gets a reply, with status 200, 400, 404 or 500, whatever the outside
    does: what is thrown on the way is caught and answered with 500; and
    the table of connections is left as it was. *)
Theorem tools_execute_always_replies (body : JSON) (st : Server.State X) :
  body <> JNull ->
  exists reply st',
    Server.tools_execute N body st = (inl reply, st') /\
    In (Server.reply_status reply) [200; 400; 404; 500] /\
    Server.db st' = Server.db st.
Proof.
  intros Hbody.
  destruct (tools_execute_status body st Hbody) as (reply & st' & Hrun & Hdb & Hst).
  exists reply, st'. split; [exact Hrun |]. split; [| exact Hdb].
  destruct (ServerRef.declared _).
  - cbn in *. intuition.
  - destruct Hst as [-> _]. cbn. auto.
Qed.

(** X10: the endpoint answers 404 exactly for the tools that are not
    among the ones declared to the model: a declared tool is never
    answered with "Tool not found", and any other name is, without a
    request going out. *)
Theorem declared_tools_are_served
    (body : JSON) (tool : Dyn.Value) (st st' : Server.State X)
    (reply : Server.Reply) :
  Dyn.get (Some body) "tool" = inl tool ->
  Server.tools_execute N body st = (inl reply, st') ->
  (Server.reply_status reply = 404 <->
   forall d, In d Server.tools -> tool <> Dyn.str (Server.decl_name d)) /\
  (Server.reply_status reply = 404 ->
   reply = Server.status_json 404
             (Server.error_object (Dyn.str "Tool not found")) /\
   st' = st).
Proof.
  intros Hget Hrun. apply get_inl_not_null in Hget. destruct Hget as [Hbody ->].
  destruct (tools_execute_status body st Hbody) as (r & s & Hrun' & _ & Hst).
  rewrite Hrun in Hrun'. inversion Hrun'; subst r s. clear Hrun'.
  rewrite <- declared_spec.
  destruct (ServerRef.declared (ServerRef.prop body "tool")).
  - assert (Hne : Server.reply_status reply <> 404)
      by (cbn in Hst; intuition lia).
    split; [split |]; intros H; try discriminate; contradiction.
  - destruct Hst as [-> ->]. cbn. repeat split; auto.
Qed.

Lemma github_tool_without_connection body st :
  ServerRef.prop body "tool" = Dyn.str "list_github_repos" \/
  ServerRef.prop body "tool" = Dyn.str "create_github_issue" ->
  body <> JNull ->
  Server.select_by_id "github" (Server.db st) = None ->
  Server.tools_execute N body st =
  (inl (Server.status_json 400
          (Server.error_object (Dyn.str "GitHub not connected"))), st).
Proof.
  intros Hname Hbody Hnone. handler_unfold.
  rewrite !(get_not_null body _ Hbody).
  destruct Hname as [-> | ->]; step; rewrite Hnone; reflexivity.
Qed.

Lemma gmail_without_connection body st :
  ServerRef.prop body "tool" = Dyn.str "send_gmail" ->
  body <> JNull ->
  Server.select_by_id "google" (Server.db st) = None ->
  Server.tools_execute N body st =
  (inl (Server.status_json 400
          (Server.error_object (Dyn.str "Google not connected"))), st).
Proof.
  intros Hname Hbody Hnone. handler_unfold.
  rewrite !(get_not_null body _ Hbody), Hname. step.
  rewrite Hnone. reflexivity.
Qed.

(** X11: without a connection for the provider of a tool, the endpoint
    answers 400 and does nothing else: no request goes out, nothing is
    logged, the arguments are not even read. *)
Theorem tool_without_connection
    (body : JSON) (tool : Dyn.Value) (st : Server.State X) :
  Dyn.get (Some body) "tool" = inl tool ->
  (tool = Dyn.str "list_github_repos" \/ tool = Dyn.str "create_github_issue" ->
   Server.select_by_id "github" (Server.db st) = None ->
   Server.tools_execute N body st =
   (inl (Server.status_json 400
           (Server.error_object (Dyn.str "GitHub not connected"))), st)) /\
  (tool = Dyn.str "send_gmail" ->
   Server.select_by_id "google" (Server.db st) = None ->
   Server.tools_execute N body st =
   (inl (Server.status_json 400
           (Server.error_object (Dyn.str "Google not connected"))), st)).
Proof.
  intros Hget. apply get_inl_not_null in Hget. destruct Hget as [Hbody ->].
  split.
  - intros Hname Hnone. apply github_tool_without_connection; assumption.
  - intros Hname Hnone. apply gmail_without_connection; assumption.
Qed.

(** Once a GitHub connection is there, the listing asks GitHub with its
    token, whatever comes of the request. *)
Lemma list_github_repos_request body st connection :
  ServerRef.prop body "tool" = Dyn.str "list_github_repos" ->
  body <> JNull ->
  Server.select_by_id "github" (Server.db st) = Some connection ->
  exists r st',
    Server.tools_execute N body st = (r, st') /\
    Server.outbox st' =
    Server.outbox st ++
    [ServerRef.repos_request (Server.access_token connection)].
Proof.
  intros Hname Hbody Hconn. unfold ServerRef.repos_request. handler_unfold.
  rewrite !(get_not_null body _ Hbody), Hname. step. rewrite Hconn. step.
  case_all; eexists; eexists; (split; [reflexivity |]); reflexivity.
Qed.

Lemma repo_entry_summary r :
  r <> JNull -> Server.repo_entry r = inl (ServerRef.repo_summary r).
Proof.
  intros H. unfold Server.repo_entry.
  rewrite !(get_not_null r _ H). reflexivity.
Qed.

Lemma map_entries_summary items :
  Forall (fun r => r <> JNull) items ->
  Server.map_entries items = inl (map ServerRef.repo_summary items).
Proof.
  induction 1 as [| r items Hr _ IH]; cbn [Server.map_entries map];
    [reflexivity |].
  rewrite (repo_entry_summary r Hr), IH. reflexivity.
Qed.

(** X12: with a GitHub connection and an answer from GitHub that is an
    array without [null] entries, the listing is asked for with the
    stored token, and the reply is 200 with one summary per repository,
    in GitHub's order, each holding at most the name, the url and the
    description. *)
Theorem list_github_repos_summaries
    (body : JSON) (st : Server.State X) (connection : Server.Row)
    (response : HttpResponse) (items : list JSON) (x1 x2 : X) :
  Dyn.get (Some body) "tool" = inl (Dyn.str "list_github_repos") ->
  Server.select_by_id "github" (Server.db st) = Some connection ->
  Server.net_fetch N (Server.outer st)
    (ServerRef.repos_request (Server.access_token connection))
    = (inl response, x1) ->
  Server.net_json N x1 response = (inl (JArr items), x2) ->
  Forall (fun r => r <> JNull) items ->
  Server.tools_execute N body st =
  (inl (Server.json (JArr (map ServerRef.repo_summary items))),
   ServerRef.after_request
     (ServerRef.repos_request (Server.access_token connection)) x2 st).
Proof.
  intros Hget Hconn Hfetch Hjson Hitems.
  apply get_inl_not_null in Hget. destruct Hget as [Hbody Htool].
  unfold ServerRef.repos_request in *. handler_unfold.
  rewrite !(get_not_null body _ Hbody), <- Htool. step.
  rewrite Hconn. step. rewrite Hfetch. step. rewrite Hjson. step.
  cbn [Server.map_repos]. rewrite (map_entries_summary items Hitems).
  reflexivity.
Qed.






End ToolEndpoint.

(** * The application as a whole *)

Section Application.

Context {X : Type} (P : Server.Platform) (N : Server.Net X)
        (env : Server.ServerEnv).

Ltac app_unfold :=
  unfold Server.handle, Server.health, Server.connections,
    Server.github_url, Server.google_url, Server.notion_url,
    Server.github_callback, Server.google_callback, Server.notion_callback,
    Server.disconnect, Server.check_token_error, Server.auth_failed,
    Server.run_insert, Server.set_db,
    Server.tools_execute, Server.list_github_repos,
    Server.create_github_issue, Server.send_gmail,
    Server.and_then, Server.catch, Server.lift, Server.pure, Server.raise,
    Server.get_connection, Server.fetch, Server.response_json,
    Server.console_error in *.

Ltac case_step :=
  match goal with
  | [ |- context [match ?x with _ => _ end] ] =>
      lazymatch x with
      | context [match _ with _ => _ end] => fail
      | _ => destruct x eqn:?
      end
  end.

Ltac case_all :=
  cbn beta;
  repeat (case_step; cbn beta iota;
          cbn [Server.db Server.outbox Server.console Server.outer]).

Ltac table_done :=
  first [ apply ServerRef.table_unchanged
        | apply ServerRef.table_deleted
        | apply ServerRef.table_replaced; cbn; auto ].

Ltac stored :=
  eexists; split; [| split]; [ | | reflexivity]; reflexivity.

Ltac outbox_done :=
  first [ exists []; split; [rewrite app_nil_r; reflexivity | constructor]
        | eexists [_]; split;
          [reflexivity | constructor; [reflexivity | constructor]] ].

(** What one request does to the table and to the outbox. *)
Lemma handle_effect request st :
  exists r st',
    Server.handle P N env request st = (r, st') /\
    ServerRef.table_change (Server.db st) (Server.db st') /\
    exists new,
      Server.outbox st' = Server.outbox st ++ new /\
      Forall (fun q => ServerRef.known_host (Server.out_url q) = true) new.
Proof.
  destruct request as [| | [| |] | [| |] code | id | body]; app_unfold;
    case_all; eexists; eexists; (split; [reflexivity |]);
    cbn [Server.db Server.outbox Server.console Server.outer];
    (split; [table_done | outbox_done]).
Qed.

(** ** The table of connections *)

Lemma delete_by_id_ids id rows :
  map Server.row_id (Server.delete_by_id id rows) =
  filter (fun k => negb (String.eqb k id)) (map Server.row_id rows).
Proof.
  unfold Server.delete_by_id.
  induction rows as [| r rows IH]; cbn; [reflexivity |].
  destruct (negb (Server.row_id r =? id)%string); cbn; rewrite IH; reflexivity.
Qed.

Lemma table_change_ok rows rows' :
  ServerRef.connections_ok rows ->
  ServerRef.table_change rows rows' ->
  ServerRef.connections_ok rows'.
Proof.
  intros [Hnd Hall] Hchange. destruct Hchange as [| id | row Hp Hin].
  - split; assumption.
  - split.
    + rewrite delete_by_id_ids. apply NoDup_filter. exact Hnd.
    + unfold Server.delete_by_id. apply Forall_forall. intros r Hr.
      apply filter_In in Hr. destruct Hr as [Hr _].
      rewrite Forall_forall in Hall. auto.
  - split.
    + unfold Server.insert_or_replace. rewrite map_app, delete_by_id_ids.
      cbn [map]. apply NoDup_app.
      * apply NoDup_filter. exact Hnd.
      * constructor; [intros [] | constructor].
      * intros k Hk [Heq | []]. subst k. apply filter_In in Hk.
        destruct Hk as [_ Hk]. rewrite String.eqb_refl in Hk. discriminate.
    + unfold Server.insert_or_replace. apply Forall_app. split.
      * unfold Server.delete_by_id. apply Forall_forall. intros r Hr.
        apply filter_In in Hr. destruct Hr as [Hr _].
        rewrite Forall_forall in Hall. auto.
      * constructor; [auto | constructor].
Qed.

Lemma serve_cons request requests st :
  Server.serve P N env (request :: requests) st =
  (fst (Server.handle P N env request st)
     :: fst (Server.serve P N env requests
               (snd (Server.handle P N env request st))),
   snd (Server.serve P N env requests
          (snd (Server.handle P N env request st)))).
Proof.
  cbn [Server.serve].
  destruct (Server.handle P N env request st) as [r st1]. cbn [fst snd].
  destruct (Server.serve P N env requests st1) as [rs st2]. reflexivity.
Qed.

(** X17: whatever requests come in, and whatever the outside answers,
    the table keeps at most one connection per provider: when it starts
    with distinct ids, each row filed under the name of one of the three
    providers, it stays so, and it never holds more than three rows. *)
Theorem connections_stay_well_formed
    (requests : list Server.Request) (st : Server.State X) :
  ServerRef.connections_ok (Server.db st) ->
  ServerRef.connections_ok
    (Server.db (snd (Server.serve P N env requests st))) /\
  (length (Server.db (snd (Server.serve P N env requests st))) <= 3)%nat.
Proof.
  intros Hok.
  assert (Hfinal : ServerRef.connections_ok
                     (Server.db (snd (Server.serve P N env requests st)))).
  { revert st Hok. induction requests as [| request requests IH];
      intros st Hok; [exact Hok |].
    rewrite serve_cons. cbn [snd]. apply IH.
    destruct (handle_effect request st) as (r & st' & Hrun & Hchange & _).
    rewrite Hrun. cbn [snd]. eapply table_change_ok; eassumption. }
  split; [exact Hfinal |].
  destruct Hfinal as [Hnd Hall].
  rewrite <- (length_map Server.row_id).
  change 3%nat with (length ["github"; "google"; "notion"]).
  apply NoDup_incl_length; [exact Hnd |].
  intros k Hk. apply in_map_iff in Hk. destruct Hk as (r & <- & Hr).
  rewrite Forall_forall in Hall. apply (Hall r Hr).
Qed.

(** X18: whatever requests come in, every request the server sends out
    goes to GitHub, Google's token or mail service, or Notion. *)
Theorem server_talks_to_known_hosts
    (requests : list Server.Request) (st : Server.State X) :
  exists new,
    Server.outbox (snd (Server.serve P N env requests st)) =
    Server.outbox st ++ new /\
    Forall (fun q => ServerRef.known_host (Server.out_url q) = true) new.
Proof.
  revert st. induction requests as [| request requests IH]; intros st.
  - exists []. cbn. rewrite app_nil_r. split; [reflexivity | constructor].
  - rewrite serve_cons. cbn [snd].
    destruct (handle_effect request st) as (r & st' & Hrun & _ & new1 & H1 & F1).
    rewrite Hrun. cbn [snd].
    destruct (IH st') as (new2 & H2 & F2).
    exists (new1 ++ new2). rewrite H2, H1, app_assoc.
    split; [reflexivity | apply Forall_app; split; assumption].
Qed.

(** X19: only the three callbacks and the disconnect route write to the
    table; every other route, the tool endpoint included, leaves it as
    it is. *)
Theorem only_callbacks_and_disconnect_write
    (request : Server.Request) (st st' : Server.State X)
    (r : Server.Reply + Error) :
  Server.handle P N env request st = (r, st') ->
  (forall provider code, request <> Server.GetAuthCallback provider code) ->
  (forall id, request <> Server.PostDisconnect id) ->
  Server.db st' = Server.db st.
Proof.
  intros Hrun Hcb Hdis.
  destruct request as [| | [| |] | provider code | id | body];
    try (exfalso; eapply Hcb; reflexivity);
    try (exfalso; eapply Hdis; reflexivity);
    revert Hrun; app_unfold; case_all; intros Hrun; inversion Hrun;
    reflexivity.
Qed.

(** ** Authorisation *)

Lemma callback_without_code
    (provider : Server.Provider) (code : Dyn.Value) (st : Server.State X) :
  Dyn.truthy code = false ->
  Server.handle P N env (Server.GetAuthCallback provider code) st =
  (inl (Server.status_send 400 "No code provided"), st).
Proof.
  intros Hcode. destruct provider; app_unfold; rewrite Hcode; reflexivity.
Qed.

(** X20: a callback always gets a reply, with status 200, 400 or 500.
    Without a code it is 400 "No code provided", and nothing is sent
    out, stored or logged.  Unless the status is 200 the table is left as
    it was, whatever went wrong on the way; with 200, the row of the
    provider, and no other, has been put in place. *)
Theorem callback_stores_only_on_success
    (provider : Server.Provider) (code : Dyn.Value) (st : Server.State X) :
  exists reply st',
    Server.handle P N env (Server.GetAuthCallback provider code) st =
    (inl reply, st') /\
    In (Server.reply_status reply) [200; 400; 500] /\
    (Dyn.truthy code = false ->
     reply = Server.status_send 400 "No code provided" /\ st' = st) /\
    (Server.reply_status reply <> 200 -> Server.db st' = Server.db st) /\
    (Server.reply_status reply = 200 ->
     exists row,
       Server.row_id row = ServerRef.provider_id provider /\
       Server.row_provider row = ServerRef.provider_id provider /\
       Server.db st' = Server.insert_or_replace row (Server.db st)).
Proof.
  destruct (Dyn.truthy code) eqn:Hcode.
  - destruct provider; app_unfold; rewrite Hcode; cbn [negb]; case_all;
      eexists; eexists; (split; [reflexivity |]);
      cbn [Server.db Server.reply_status Server.status_send Server.send];
      (split; [cbn; auto |]);
      (split; [discriminate |]);
      (split; [intros H; try reflexivity; exfalso; apply H; reflexivity |]);
      intros H; try discriminate; stored.
  - rewrite (callback_without_code provider code st Hcode).
    eexists; eexists. split; [reflexivity |]. cbn.
    repeat split; auto; intros; discriminate.
Qed.

Lemma select_insert_same row rows :
  Server.select_by_id (Server.row_id row) (Server.insert_or_replace row rows)
  = Some row.
Proof.
  unfold Server.select_by_id, Server.insert_or_replace, Server.delete_by_id.
  induction rows as [| r rows IH]; cbn.
  - rewrite String.eqb_refl. reflexivity.
  - destruct (Server.row_id r =? Server.row_id row)%string eqn:Heq; cbn;
      [exact IH | rewrite Heq; exact IH].
Qed.

Lemma select_insert_other id row rows :
  id <> Server.row_id row ->
  Server.select_by_id id (Server.insert_or_replace row rows) =
  Server.select_by_id id rows.
Proof.
  intros Hne.
  unfold Server.select_by_id, Server.insert_or_replace, Server.delete_by_id.
  induction rows as [| r rows IH]; cbn.
  - apply String.eqb_neq in Hne. rewrite String.eqb_sym, Hne. reflexivity.
  - destruct (Server.row_id r =? Server.row_id row)%string eqn:Heq; cbn.
    + apply String.eqb_eq in Heq.
      assert (Hr : (Server.row_id r =? id)%string = false)
        by (apply String.eqb_neq; congruence).
      rewrite Hr. exact IH.
    + destruct (Server.row_id r =? id)%string; [reflexivity | exact IH].
Qed.

Lemma select_delete_same id rows :
  Server.select_by_id id (Server.delete_by_id id rows) = None.
Proof.
  unfold Server.select_by_id, Server.delete_by_id.
  induction rows as [| r rows IH]; cbn; [reflexivity |].
  destruct (Server.row_id r =? id)%string eqn:Heq; cbn;
    [exact IH | rewrite Heq; exact IH].
Qed.

Lemma select_delete_other id id' rows :
  id' <> id ->
  Server.select_by_id id' (Server.delete_by_id id rows) =
  Server.select_by_id id' rows.
Proof.
  intros Hne. unfold Server.select_by_id, Server.delete_by_id.
  induction rows as [| r rows IH]; cbn; [reflexivity |].
  destruct (Server.row_id r =? id)%string eqn:Heq; cbn.
  - apply String.eqb_eq in Heq.
    assert (Hr : (Server.row_id r =? id')%string = false)
      by (apply String.eqb_neq; congruence).
    rewrite Hr. exact IH.
  - destruct (Server.row_id r =? id')%string; [reflexivity | exact IH].
Qed.

(** X21: when GitHub hands out a token for the code, and the database
    stores a string as it is, the callback sends the success page and
    leaves the token as the GitHub connection, in the place of any
    earlier one; the other connections are as before; and the next
    listing of repositories asks GitHub with that token. *)
Theorem github_connection_is_used
    (code : Dyn.Value) (st st' : Server.State X) (r : Server.Reply + Error)
    (tokenResponse : HttpResponse) (data : JSON) (t : string) (x1 x2 : X) :
  Server.bind P true (Some (JStr t)) = inl (JStr t) ->
  Dyn.truthy code = true ->
  Server.net_fetch N (Server.outer st) (ServerRef.github_token_request env code)
    = (inl tokenResponse, x1) ->
  Server.net_json N x1 tokenResponse = (inl data, x2) ->
  data <> JNull ->
  Dyn.truthy (ServerRef.prop data "error") = false ->
  ServerRef.prop data "access_token" = Some (JStr t) ->
  Server.handle P N env (Server.GetAuthCallback Server.GitHub code) st = (r, st') ->
  r = inl (Server.send (Server.success_page "github" "GitHub")) /\
  (exists row,
      Server.select_by_id "github" (Server.db st') = Some row /\
      Server.access_token row = JStr t) /\
  (forall id, id <> "github" ->
              Server.select_by_id id (Server.db st') =
              Server.select_by_id id (Server.db st)) /\
  (forall body,
      Dyn.get (Some body) "tool" = inl (Dyn.str "list_github_repos") ->
      exists r' st'',
        Server.tools_execute N body st' = (r', st'') /\
        Server.outbox st'' =
        Server.outbox st' ++ [ServerRef.repos_request (JStr t)]).
Proof.
  intros Hbind Hcode Hfetch Hjson Hdata Herr Htoken Hrun.
  unfold ServerRef.github_token_request in Hfetch.
  revert Hrun. app_unfold. rewrite Hcode. cbn [negb]. cbn beta iota.
  rewrite Hfetch. cbn beta iota.
  cbn [Server.db Server.outbox Server.console Server.outer].
  rewrite Hjson. cbn beta iota.
  cbn [Server.db Server.outbox Server.console Server.outer].
  rewrite !(get_not_null data _ Hdata), Herr, Htoken. cbn beta iota.
  rewrite Hbind. cbn beta iota.
  cbn [Server.db Server.outbox Server.console Server.outer].
  intros Hrun. inversion Hrun; subst r st'. clear Hrun.
  cbn [Server.db].
  set (row := {| Server.row_id := "github"; Server.row_provider := "github";
                 Server.access_token := JStr t; Server.refresh_token := JNull;
                 Server.expires_at := JNull;
                 Server.created_at :=
                   Server.current_timestamp P (Server.net_now N x2) |}).
  split; [reflexivity |]. split; [| split].
  - exists row. split; [apply (select_insert_same row) | reflexivity].
  - intros id Hne. apply select_insert_other. exact Hne.
  - intros body Hget. apply get_inl_not_null in Hget.
    destruct Hget as [Hbody Htool].
    apply (list_github_repos_request N body _ row); auto.
    cbn [Server.db]. apply (select_insert_same row).
Qed.

(** X22: disconnecting always answers success; afterwards the connection
    of that id is gone, whether it was there or not, the others are as
    before, nothing was sent out; and a GitHub tool called after
    disconnecting GitHub is answered 400 "GitHub not connected". *)
Theorem disconnect_forgets_the_connection
    (id : string) (st : Server.State X) :
  exists st',
    Server.handle P N env (Server.PostDisconnect id) st =
    (inl (Server.json (JObj [("success", JBool true)])), st') /\
    Server.select_by_id id (Server.db st') = None /\
    (forall id', id' <> id ->
                 Server.select_by_id id' (Server.db st') =
                 Server.select_by_id id' (Server.db st)) /\
    Server.outbox st' = Server.outbox st /\
    (id = "github" ->
     forall body,
       Dyn.get (Some body) "tool" = inl (Dyn.str "list_github_repos") \/
       Dyn.get (Some body) "tool" = inl (Dyn.str "create_github_issue") ->
       Server.tools_execute N body st' =
       (inl (Server.status_json 400
               (Server.error_object (Dyn.str "GitHub not connected"))), st')).
Proof.
  eexists. split; [reflexivity |].
  unfold Server.set_db. cbn [Server.db Server.outbox].
  split; [apply select_delete_same |].
  split; [intros id' Hne; apply select_delete_other; exact Hne |].
  split; [reflexivity |].
  intros -> body Hget.
  assert (Hbody : body <> JNull)
    by (destruct Hget as [H | H]; apply get_inl_not_null in H; tauto).
  apply github_tool_without_connection; [| exact Hbody |].
  - destruct Hget as [H | H]; apply get_inl_not_null in H;
      destruct H as [_ H]; [left | right]; congruence.
  - cbn [Server.db]. apply select_delete_same.
Qed.

Lemma prefix_app a b : String.prefix a (a ++ b)%string = true.
Proof.
  induction a as [| c a IH]; cbn; [destruct b; reflexivity |].
  destruct (ascii_dec c c); [exact IH | congruence].
Qed.

Lemma prefix_cons c a b :
  String.prefix (String c a) (String c b) = String.prefix a b.
Proof. cbn. destruct (ascii_dec c c); [reflexivity | congruence]. Qed.

Lemma prefix_app3 p id r rest :
  String.prefix (p ++ id ++ r)%string (p ++ id ++ r ++ rest)%string = true.
Proof.
  induction p as [| c p IH]; cbn [append].
  - induction id as [| c id IH]; cbn [append].
    + apply prefix_app.
    + rewrite prefix_cons. exact IH.
  - rewrite prefix_cons. exact IH.
Qed.

(** X23: the three routes that give the authorisation URL change nothing
    and send nothing.  Without a client id for the provider (unset or
    empty) the reply is 500 and names the missing variable; with one, it
    is 200 with a URL that starts with the provider's authorisation
    endpoint and the client id. *)
Theorem auth_url_needs_client_id
    (provider : Server.Provider) (st : Server.State X) :
  exists reply,
    Server.handle P N env (Server.GetAuthUrl provider) st = (inl reply, st) /\
    (JS.truthy (ServerRef.client_id env provider) = false ->
     reply = Server.status_json 500
               (Server.error_object
                  (Dyn.str (ServerRef.client_id_name provider
                              ++ " not configured")%string))) /\
    (forall id,
        ServerRef.client_id env provider = Some id -> id <> "" ->
        exists url,
          reply = Server.json (JObj [("url", JStr url)]) /\
          String.prefix (ServerRef.authorize_endpoint provider
                           ++ "?client_id=" ++ id ++ "&redirect_uri=")%string
                        url = true).
Proof.
  destruct provider; app_unfold; cbn [ServerRef.client_id
    ServerRef.client_id_name ServerRef.authorize_endpoint];
    match goal with
    | [ |- context [JS.truthy ?v] ] => destruct v as [[| c id] |]
    end; cbn [JS.truthy negb];
    eexists; (split; [reflexivity |]); split;
    try (intros; discriminate); try (intros; reflexivity);
    intros id' Hid Hne; inversion Hid; subst; try congruence;
    eexists; (split; [reflexivity |]); cbn [Server.env_text].
  - exact (prefix_app3 "https://github.com/login/oauth/authorize?client_id="
             (String c id) "&redirect_uri=" _).
  - exact (prefix_app3 "https://accounts.google.com/o/oauth2/v2/auth?client_id="
             (String c id) "&redirect_uri=" _).
  - exact (prefix_app3 "https://api.notion.com/v1/oauth/authorize?client_id="
             (String c id) "&redirect_uri=" _).
Qed.

End Application.

(** * The client against the server *)

Section ClientAndServer.

Context {X MS : Type} (N : Server.Net X)
        (model : MS -> Message -> (GenerateContentResponse + Error) * MS)
        (stringify : JSON -> string) (parse : string -> JSON + Error).



End ClientAndServer.

(** * The page *)

Section Page.

Context {S : Type} (E : Env S) (R : App.Runtime S) (env : ProcessEnv).

(** [handleSend] does nothing when the input is blank or a turn is under
    way. *)
Lemma handleSend_ignores_blank_input
    (fuel : nat) (st : App.State) (w : World S) :
  App.trim R (App.input st) = "" \/ App.isThinking st = true ->
  App.handleSend E R env fuel st w = (Ok st, w).
Proof.
  intros H. unfold App.handleSend.
  destruct H as [H | H]; rewrite H; cbn [JS.truthy negb orb];
    rewrite ?orb_true_r; reflexivity.
Qed.

(** X25: otherwise [handleSend] comes to an end without throwing and
    leaves exactly two new messages, the user's with the input as its
    content and then the assistant's; the input is cleared and
    [isThinking] is off again.  The assistant's message holds the text and
    the sources [consultAgent] returned; when [consultAgent] threw, it
    holds the fixed failure text and no sources, and the error is logged. *)
Theorem handleSend_appends_two_messages
    (fuel : nat) (st : App.State) (w : World S) :
  (5 < fuel)%nat ->
  App.trim R (App.input st) <> "" ->
  App.isThinking st = false ->
  exists u a st' w',
    App.handleSend E R env fuel st w = (Ok st', w') /\
    App.messages st' = App.messages st ++ [u; a] /\
    App.input st' = "" /\
    App.isThinking st' = false /\
    App.role u = App.user /\ App.content u = App.input st /\
    App.role a = App.assistant /\
    (forall r w1,
        consultAgent E fuel env (App.input st)
          (snd (App.new_message R App.user (App.input st) None w)) = (Ok r, w1) ->
        App.content a = text r /\ App.msg_sources a = Some (sources r) /\
        App.logged st' = App.logged st) /\
    (forall e w1,
        consultAgent E fuel env (App.input st)
          (snd (App.new_message R App.user (App.input st) None w))
          = (Throw e, w1) ->
        App.content a = App.failure_text /\ App.msg_sources a = None /\
        App.logged st' = App.logged st ++ [e]).
Proof.
  intros Hfuel Hblank Hidle. unfold App.handleSend.
  assert (Ht : JS.truthy (Some (App.trim R (App.input st))) = true)
    by (destruct (App.trim R (App.input st)); [congruence | reflexivity]).
  rewrite Ht, Hidle. cbn [negb orb].
  unfold bind at 1.
  destruct (App.new_message R App.user (App.input st) None w) as [ou w0] eqn:Hu.
  assert (Huser : exists u, ou = Ok u /\ App.role u = App.user /\
                            App.content u = App.input st).
  { unfold App.new_message in Hu.
    destruct (App.random_id R (outside w)) as [i s].
    inversion Hu; subst. eexists. split; [reflexivity |]. cbn. auto. }
  destruct Huser as (u & -> & Hrole & Hcontent). cbn [snd].
  pose proof (consultAgent_ends E fuel env (App.input st) w0 Hfuel) as Hends.
  unfold bind, try_catch.
  destruct (consultAgent E fuel env (App.input st) w0) as [[r | e |] w1] eqn:Hrun.
  - destruct (App.new_message R App.assistant (text r) (Some (sources r)) w1)
      as [oa w2] eqn:Ha.
    unfold App.new_message in Ha.
    destruct (App.random_id R (outside w1)) as [i s]. inversion Ha; subst.
    unfold ret. cbn.
    eexists u, _, _, _. split; [reflexivity |]. cbn.
    rewrite <- app_assoc.
    repeat split; auto;
      match goal with
      | [ H : (_, _) = (_, _) |- _ ] => inversion H; subst; reflexivity
      end.
  - destruct (App.new_message R App.assistant App.failure_text None w1)
      as [oa w2] eqn:Ha.
    unfold App.new_message in Ha.
    destruct (App.random_id R (outside w1)) as [i s]. inversion Ha; subst.
    unfold ret. cbn.
    eexists u, _, _, _. split; [reflexivity |]. cbn.
    rewrite <- app_assoc.
    repeat split; auto;
      match goal with
      | [ H : (_, _) = (_, _) |- _ ] => inversion H; subst; reflexivity
      end.
  - exfalso. apply Hends. reflexivity.
Qed.

End Page.

(** ** Concrete runs *)

(** The first scenario of the specification. *)
Example list_my_repos :
  fst (consultAgent env_list_repos 6 with_key "List my repos" start) =
  Ok {| text := "Here are your repos: r1."; sources := [] |}.
Proof. vm_compute. reflexivity. Qed.

(** The second scenario: "Deadline Exceeded", then "INTERNAL", then an
    answer; the turn succeeds after waits of 2 s and 4 s. *)
Example deadline_internal_success :
  fst (run_recovering ["Deadline Exceeded"; "INTERNAL"] "ok") =
  Ok {| text := "ok"; sources := [] |} /\
  delays (trace (snd (run_recovering ["Deadline Exceeded"; "INTERNAL"] "ok"))) =
  [2000; 4000].
Proof. vm_compute. auto. Qed.

Lemma function_responses_pair_with_calls_witness :
  exists rs w1,
    for_calls env_mail_down [list_repos; send_mail] [] start = (Ok rs, w1) /\
    rs = [{| fr_name := "list_github_repos";
             fr_response := Content (JStr "list_github_repos");
             fr_id := "1" |};
          {| fr_name := "send_gmail";
             fr_response := ErrorMessage (Some "Failed to fetch");
             fr_id := "2" |}] /\
    count_occ string_dec (map fr_id rs) "2" = 1%nat.
Proof.
  destruct (function_responses_pair_with_calls
              env_mail_down 0 [list_repos; send_mail] start)
    as (rs & w1 & Hrun & _ & _ & _ & _ & Hcount & _).
  exists rs, w1. split; [exact Hrun |]. split.
  - vm_compute in Hrun. inversion Hrun. reflexivity.
  - apply (Hcount ltac:(repeat constructor; cbn; intuition discriminate)
                  send_mail).
    cbn. auto.
Defined.

Lemma function_call_loop_at_most_5_witness :
  fst (function_call_loop env_always_calls 6 0 (asks [list_repos]) start)
    <> OutOfFuel /\
  exists r w',
    function_call_loop env_always_calls 6 0 (asks [list_repos]) start =
    (Ok (5, r), w') /\
    tool_replies (trace w') = (tool_replies (trace start) + 5)%nat.
Proof.
  destruct (function_call_loop_at_most_5
              env_always_calls 6 (asks [list_repos]) start ltac:(lia))
    as (Hends & _ & _ & Hall).
  split; [exact Hends |]. apply Hall.
  - intros s m. cbn. destruct s as [| s]; cbn; discriminate.
  - cbn. discriminate.
Defined.

Lemma transient_twice_then_success_witness :
  exists w3,
    run_recovering ["Deadline Exceeded"; "INTERNAL"] "Here you are." =
    (Ok {| text := "Here you are."; sources := [] |}, w3) /\
    delays (trace w3) = delays (trace start) ++ [2000; 4000] /\
    attempts (trace w3) = (attempts (trace start) + 3)%nat.
Proof.
  unfold run_recovering.
  set (E := env_recovering ["Deadline Exceeded"; "INTERNAL"] "Here you are.").
  destruct (transient_twice_then_success
              E 6 with_key "q" "k" start
              (fails "Deadline Exceeded") (fails "INTERNAL")
              (snd (turn_attempt E 6 "q" (after_create "k" start)))
              (snd (turn_attempt E 6 "q"
                      (after_backoff E 1 (fails "Deadline Exceeded") 2000
                         (snd (turn_attempt E 6 "q" (after_create "k" start))))))
              (snd (consultAgent E 6 with_key "q" start))
              {| text := "Here you are."; sources := [] |})
    as (Hrun & Hdelays & Hattempts & _);
    try (vm_compute; reflexivity); [lia |].
  eexists. split; [exact Hrun | split; [exact Hdelays | exact Hattempts]].
Defined.

(** C4 does not hold as stated: "Service Unavailable" matches the
    transient test, and when it is the error of the last attempt it is
    thrown out of [consultAgent]; and an error that holds "500" next to
    a quota marker ends the last attempt with the quota answer. *)
Lemma transient_last_attempt_not_internal :
  isTransient (fails "Service Unavailable") = true /\
  fst (run_failing "Service Unavailable") =
  Throw (fails "Service Unavailable") /\
  fst (run_failing "Service Unavailable") <> Ok internalErrorResponse /\
  attempts (trace (snd (run_failing "Service Unavailable"))) = 3%nat /\
  isTransient (fails quota_message) = true /\
  fst (run_failing quota_message) = Ok quotaExhaustedResponse /\
  fst (run_failing quota_message) <> Ok internalErrorResponse /\
  attempts (trace (snd (run_failing quota_message))) = 3%nat.
Proof.
  vm_compute. repeat split; try reflexivity; discriminate.
Qed.

Lemma internal_error_on_last_attempt_witness :
  exists w,
    run_failing "500 Internal Server Error" = (Ok internalErrorResponse, w) /\
    attempts (trace w) = 3%nat.
Proof.
  unfold run_failing. set (E := env_failing "500 Internal Server Error").
  assert (Hv : retry_visits E 6 "q" (0, after_create "k" start)
                 (2, after_backoff E 2 (fails "500 Internal Server Error") 4000
                       (snd (turn_attempt E 6 "q"
                          (after_backoff E 1 (fails "500 Internal Server Error") 2000
                             (snd (turn_attempt E 6 "q"
                                     (after_create "k" start)))))))).
  { eapply retry_visits_next; [reflexivity | vm_compute; reflexivity |].
    eapply retry_visits_next; [reflexivity | vm_compute; reflexivity |].
    vm_compute. apply retry_visits_here. }
  destruct (internal_error_on_last_attempt
              E 6 with_key "q" "k" start _
              (snd (turn_attempt E 6 "q"
                 (after_backoff E 2 (fails "500 Internal Server Error") 4000
                    (snd (turn_attempt E 6 "q"
                       (after_backoff E 1 (fails "500 Internal Server Error") 2000
                          (snd (turn_attempt E 6 "q"
                                  (after_create "k" start)))))))))
              (fails "500 Internal Server Error")
              ltac:(lia) eq_refl eq_refl Hv)
    as (_ & Hrun); try (vm_compute; reflexivity).
  eexists. split; [exact Hrun |]. vm_compute. reflexivity.
Defined.

(** C5 does not hold as stated: an error whose message holds "429" and
    "500" is transient for the handler, so the first attempt is tried
    again after 2 s, and the turn ends with the model's answer. *)
Lemma quota_error_is_retried :
  message_includes (fails quota_message) "429" = true /\
  fst (run_recovering [quota_message] "ok") =
  Ok {| text := "ok"; sources := [] |} /\
  fst (run_recovering [quota_message] "ok") <> Ok quotaExhaustedResponse /\
  delays (trace (snd (run_recovering [quota_message] "ok"))) = [2000] /\
  attempts (trace (snd (run_recovering [quota_message] "ok"))) = 2%nat.
Proof.
  vm_compute. repeat split; try reflexivity; discriminate.
Qed.

Lemma quota_error_ends_turn_witness :
  exists w,
    run_failing "429 Too Many Requests" = (Ok quotaExhaustedResponse, w) /\
    attempts (trace w) = 1%nat /\ delays (trace w) = [].
Proof.
  unfold run_failing. set (E := env_failing "429 Too Many Requests").
  pose proof (quota_error_ends_turn
                E 6 with_key "q" "k" start (after_create "k" start)
                (snd (turn_attempt E 6 "q" (after_create "k" start)))
                0 (fails "429 Too Many Requests")
                ltac:(lia) eq_refl eq_refl
                (retry_visits_here E 6 "q" (0, after_create "k" start))
                eq_refl eq_refl (or_introl eq_refl)) as Hrun.
  eexists. split; [exact Hrun |]. vm_compute. auto.
Defined.

(** C6 does not hold as stated: when all three attempts fail with
    "Deadline Exceeded", which the handler retries but has no answer for,
    [consultAgent] returns no answer at all: it throws the error. *)
Lemma exhausted_retries_throw :
  fst (run_failing "Deadline Exceeded") = Throw (fails "Deadline Exceeded") /\
  (forall r, fst (run_failing "Deadline Exceeded") <> Ok r) /\
  attempts (trace (snd (run_failing "Deadline Exceeded"))) = 3%nat /\
  delays (trace (snd (run_failing "Deadline Exceeded"))) = [2000; 4000].
Proof.
  vm_compute. repeat split; try reflexivity. intros r. discriminate.
Qed.

Lemma unclassified_failure_is_rethrown_witness :
  exists w,
    run_failing "socket hang up" = (Throw (fails "socket hang up"), w) /\
    attempts (trace w) = 1%nat.
Proof.
  unfold run_failing. set (E := env_failing "socket hang up").
  pose proof (unclassified_failure_is_rethrown
                E 6 with_key "q" "k" start (after_create "k" start)
                (snd (turn_attempt E 6 "q" (after_create "k" start)))
                0 (fails "socket hang up")
                ltac:(lia) eq_refl eq_refl
                (retry_visits_here E 6 "q" (0, after_create "k" start))
                eq_refl (or_introl eq_refl) eq_refl eq_refl eq_refl) as Hrun.
  eexists. split; [exact Hrun |]. vm_compute. reflexivity.
Defined.

Lemma missing_key_short_circuits_witness :
  consultAgent env_list_repos 6 without_key "List my repos" start =
  (Ok missingKeyResponse, start).
Proof.
  apply (missing_key_short_circuits env_list_repos 6 without_key
           "List my repos" start); reflexivity.
Defined.

(** C8 does not hold as stated: when the model's text is empty, the text
    returned is "Task completed.", not the model's text. *)
Lemma empty_text_is_replaced :
  functionCalls (says "") = None /\
  resp_text (says "") = Some "" /\
  fst (run_recovering [] "") =
  Ok {| text := "Task completed."; sources := [] |} /\
  "Task completed." <> "".
Proof.
  vm_compute. repeat split; try reflexivity; discriminate.
Qed.

Lemma answer_without_tool_calls_witness :
  exists r w,
    consultAgent env_grounded 6 with_key "What is Rocq?" start = (Ok r, w) /\
    text r = "Rocq is a proof assistant." /\
    sources r = [{| uri := "https://rocq-prover.org"; title := "Rocq" |};
                 {| uri := "https://example.org"; title := "Example" |}].
Proof.
  destruct (answer_without_tool_calls
              env_grounded 6 with_key "What is Rocq?" "k" start grounded 1%nat
              ltac:(lia) eq_refl eq_refl eq_refl eq_refl)
    as (r & Hrun & Htext & _ & Hsources).
  exists r. eexists. split; [exact Hrun |]. split.
  - apply Htext; [reflexivity | discriminate].
  - exact Hsources.
Defined.

(** ** Concrete runs of the further properties *)

Lemma invalid_key_error_ends_turn_witness :
  exists w,
    run_failing "API_KEY_INVALID: key not valid" = (Ok invalidKeyResponse, w) /\
    attempts (trace w) = 1%nat.
Proof.
  unfold run_failing. set (E := env_failing "API_KEY_INVALID: key not valid").
  pose proof (invalid_key_error_ends_turn
                E 6 with_key "q" "k" start (after_create "k" start)
                (snd (turn_attempt E 6 "q" (after_create "k" start)))
                0 (fails "API_KEY_INVALID: key not valid")
                ltac:(lia) eq_refl eq_refl
                (retry_visits_here E 6 "q" (0, after_create "k" start))
                eq_refl eq_refl eq_refl (or_introl eq_refl)) as Hrun.
  eexists. split; [exact Hrun |]. vm_compute. reflexivity.
Defined.

Lemma backoff_schedule_witness :
  exists n,
    (n <= 2)%nat /\
    delays (trace (snd (run_recovering ["INTERNAL"] "ok"))) =
    delays (trace start) ++ firstn n [2000; 4000] /\
    attempts (trace (snd (run_recovering ["INTERNAL"] "ok"))) =
    (attempts (trace start) + n + 1)%nat.
Proof.
  apply (backoff_schedule (env_recovering ["INTERNAL"] "ok") 6 with_key "q"
           start (snd (run_recovering ["INTERNAL"] "ok"))
           (fst (run_recovering ["INTERNAL"] "ok")));
    [reflexivity | vm_compute; reflexivity | vm_compute; discriminate].
Defined.

Lemma at_most_18_model_messages_witness :
  (tool_replies (trace (snd (consultAgent env_always_calls 6 with_key "q" start)))
   <= tool_replies (trace start) + 15)%nat /\
  (model_messages (trace (snd (consultAgent env_always_calls 6 with_key "q" start)))
   <= model_messages (trace start) + 18)%nat.
Proof.
  apply (at_most_18_model_messages env_always_calls 6 with_key "q" start
           (snd (consultAgent env_always_calls 6 with_key "q" start))
           (fst (consultAgent env_always_calls 6 with_key "q" start))).
  vm_compute. reflexivity.
Defined.

Lemma one_request_per_call_witness :
  fetches (trace (snd (for_calls env_mail_down [list_repos; send_mail] [] start)))
  = fetches (trace start) ++ map request_of [list_repos; send_mail] /\
  (length (json_reads
             (trace (snd (for_calls env_mail_down [list_repos; send_mail] []
                            start))))
   <= length (json_reads (trace start)) + length [list_repos; send_mail])%nat.
Proof.
  apply (one_request_per_call env_mail_down [list_repos; send_mail] [] start
           (snd (for_calls env_mail_down [list_repos; send_mail] [] start))
           (fst (for_calls env_mail_down [list_repos; send_mail] [] start))).
  vm_compute. reflexivity.
Defined.

Lemma calls_beyond_the_cap_are_dropped_witness :
  exists rs w1 r w',
    turn_attempt env_always_calls 6 "q" start = (Ok (agentResponse_of r), w') /\
    sendMessage env_always_calls (MsgFunctionResponses rs) w1 = (Ok r, w') /\
    functionCalls r <> None /\
    model_messages (trace w') = (model_messages (trace start) + 6)%nat.
Proof.
  apply (calls_beyond_the_cap_are_dropped env_always_calls 6 "q" start);
    [lia |].
  intros s m. cbn. destruct s as [| s]; cbn; discriminate.
Defined.

Lemma one_chat_per_turn_witness :
  exists key d,
    (if JS.truthy (API_KEY both_keys)
     then API_KEY both_keys = Some key
     else GEMINI_API_KEY both_keys = Some key) /\
    trace (snd (consultAgent (env_recovering ["INTERNAL"] "ok") 6 both_keys
                  "q" start))
    = trace start ++ EvCreateChat key :: d /\
    forallb not_create d = true.
Proof.
  apply (one_chat_per_turn (env_recovering ["INTERNAL"] "ok") 6 both_keys "q"
           start _ (fst (consultAgent (env_recovering ["INTERNAL"] "ok") 6
                           both_keys "q" start)));
    [reflexivity | vm_compute; reflexivity].
Defined.

Lemma tools_execute_always_replies_witness :
  exists reply st',
    Server.tools_execute (demo_net 200 bad_credentials)
      (tool_body "list_github_repos" JNull)
      (demo_state [connection "github" "t0"]) = (inl reply, st') /\
    In (Server.reply_status reply) [200; 400; 404; 500] /\
    Server.db st' = [connection "github" "t0"].
Proof.
  apply (tools_execute_always_replies (demo_net 200 bad_credentials)
           (tool_body "list_github_repos" JNull)
           (demo_state [connection "github" "t0"])).
  discriminate.
Defined.

Lemma declared_tools_are_served_witness :
  Server.reply_status
    (Server.status_json 404 (Server.error_object (Dyn.str "Tool not found")))
  = 404 <->
  forall d, In d Server.tools -> Dyn.str "delete_repo" <> Dyn.str (Server.decl_name d).
Proof.
  apply (declared_tools_are_served (demo_net 200 JNull)
           (tool_body "delete_repo" JNull) (Dyn.str "delete_repo")
           (demo_state []) (demo_state [])
           (Server.status_json 404
              (Server.error_object (Dyn.str "Tool not found"))));
    reflexivity.
Defined.

Lemma tool_without_connection_witness :
  Server.tools_execute (demo_net 200 two_repos)
    (tool_body "create_github_issue" issue_args)
    (demo_state [connection "google" "t1"]) =
  (inl (Server.status_json 400
          (Server.error_object (Dyn.str "GitHub not connected"))),
   demo_state [connection "google" "t1"]).
Proof.
  apply (tool_without_connection (demo_net 200 two_repos)
           (tool_body "create_github_issue" issue_args)
           (Dyn.str "create_github_issue")
           (demo_state [connection "google" "t1"]) eq_refl);
    [right; reflexivity | reflexivity].
Defined.

Lemma list_github_repos_summaries_witness :
  fst (Server.tools_execute (demo_net 200 two_repos)
         (tool_body "list_github_repos" (JObj []))
         (demo_state [connection "github" "t0"])) =
  inl (Server.json
         (JArr [JObj [("name", JStr "r1"); ("url", JStr "https://x");
                      ("description", JStr "d")];
                JObj [("name", JStr "r2"); ("url", JStr "https://y")]])).
Proof.
  rewrite (list_github_repos_summaries (demo_net 200 two_repos)
             (tool_body "list_github_repos" (JObj []))
             (demo_state [connection "github" "t0"])
             (connection "github" "t0") {| status := 200; body := "" |}
             [JObj [("name", JStr "r1"); ("html_url", JStr "https://x");
                    ("description", JStr "d"); ("private", JBool false)];
              JObj [("name", JStr "r2"); ("html_url", JStr "https://y")]]
             tt tt eq_refl eq_refl eq_refl eq_refl
             ltac:(repeat constructor; discriminate)).
  reflexivity.
Defined.





Lemma connections_stay_well_formed_witness :
  ServerRef.connections_ok
    (Server.db
       (snd (Server.serve demo_platform
               (demo_net 200 (JObj [("access_token", JStr "t2")])) demo_env
               [Server.GetAuthCallback Server.GitHub (Dyn.str "c1");
                Server.GetAuthCallback Server.GitHub (Dyn.str "c2");
                Server.PostDisconnect "google"]
               (demo_state [])))) /\
  (length
     (Server.db
        (snd (Server.serve demo_platform
                (demo_net 200 (JObj [("access_token", JStr "t2")])) demo_env
                [Server.GetAuthCallback Server.GitHub (Dyn.str "c1");
                 Server.GetAuthCallback Server.GitHub (Dyn.str "c2");
                 Server.PostDisconnect "google"]
                (demo_state [])))) <= 3)%nat.
Proof.
  apply (connections_stay_well_formed demo_platform
           (demo_net 200 (JObj [("access_token", JStr "t2")])) demo_env
           [Server.GetAuthCallback Server.GitHub (Dyn.str "c1");
            Server.GetAuthCallback Server.GitHub (Dyn.str "c2");
            Server.PostDisconnect "google"]
           (demo_state [])).
  split; constructor.
Defined.

Lemma only_callbacks_and_disconnect_write_witness :
  Server.db
    (snd (Server.handle demo_platform (demo_net 200 two_repos) demo_env
            (Server.PostToolsExecute (tool_body "list_github_repos" JNull))
            (demo_state [connection "github" "t0"]))) =
  [connection "github" "t0"].
Proof.
  apply (only_callbacks_and_disconnect_write demo_platform
           (demo_net 200 two_repos) demo_env
           (Server.PostToolsExecute (tool_body "list_github_repos" JNull))
           (demo_state [connection "github" "t0"]) _
           (fst (Server.handle demo_platform (demo_net 200 two_repos) demo_env
                   (Server.PostToolsExecute
                      (tool_body "list_github_repos" JNull))
                   (demo_state [connection "github" "t0"]))));
    [vm_compute; reflexivity | discriminate | discriminate].
Defined.

Lemma github_connection_is_used_witness :
  exists row,
    Server.select_by_id "github"
      (Server.db
         (snd (Server.handle demo_platform
                 (demo_net 200 (JObj [("access_token", JStr "t2")])) demo_env
                 (Server.GetAuthCallback Server.GitHub (Dyn.str "c1"))
                 (demo_state [connection "github" "t0"]))))
    = Some row /\
    Server.access_token row = JStr "t2".
Proof.
  apply (github_connection_is_used demo_platform
           (demo_net 200 (JObj [("access_token", JStr "t2")])) demo_env
           (Dyn.str "c1") (demo_state [connection "github" "t0"]) _
           (fst (Server.handle demo_platform
                   (demo_net 200 (JObj [("access_token", JStr "t2")])) demo_env
                   (Server.GetAuthCallback Server.GitHub (Dyn.str "c1"))
                   (demo_state [connection "github" "t0"])))
           {| status := 200; body := "" |}
           (JObj [("access_token", JStr "t2")]) "t2" tt tt
           eq_refl eq_refl eq_refl eq_refl ltac:(discriminate) eq_refl eq_refl).
  vm_compute. reflexivity.
Defined.

Lemma handleSend_appends_two_messages_witness :
  exists u a st' w',
    App.handleSend (env_recovering [] "Hello.") demo_runtime with_key 6
      (typing "Hi") start = (Ok st', w') /\
    App.messages st' = App.messages (typing "Hi") ++ [u; a] /\
    App.content u = "Hi" /\
    App.content a = "Hello.".
Proof.
  destruct (handleSend_appends_two_messages
              (env_recovering [] "Hello.") demo_runtime with_key 6
              (typing "Hi") start ltac:(lia) ltac:(discriminate) eq_refl)
    as (u & a & st' & w' & Hrun & Hmsgs & _ & _ & _ & Hu & _ & Hok & _).
  exists u, a, st', w'. repeat split; auto.
  apply (Hok {| text := "Hello."; sources := [] |}
             (snd (consultAgent (env_recovering [] "Hello.") 6 with_key "Hi"
                     (snd (App.new_message demo_runtime App.user "Hi" None
                             start))))).
  vm_compute. reflexivity.
Defined.
